(** * FlexiMart ETL pipeline: a shallow embedding of [etl_pipeline.py]

    The development follows [ETLPipeline] method by method.

    Conventions of the embedding.
    - A pandas cell that may be missing (NaN / None) is an [option]; [None] is
      the missing value, so [pd.isna x] is [x = None].
    - Text is a [string] whose characters are read as code points below 128;
      on that range the regular-expression class [\d] is ['0'..'9'].
    - A DataFrame is the list of its rows, in row order.
    - A float64 value is the exact rational [Q] it denotes: the rounding of
      binary floating point is outside this embedding.  An int64 value is a [Z]
      and its arithmetic wraps around at 64 bits.  Stock levels and persisted
      identifiers are integers [Z].
    - A Python dict is a [gmap]. *)

From Stdlib Require Import ZArith QArith List Ascii String Bool Lia.
From stdpp Require Import gmap strings list fin_maps.

Local Open Scope string_scope.
Local Open Scope Z_scope.
Set Warnings "-abstract-large-number".

(** ** Text helpers *)

Module Text.

Definition code (c : ascii) : N := N_of_ascii c.

(** [\d] on code points below 128. *)
Definition is_digit (c : ascii) : bool :=
  ((48 <=? code c) && (code c <=? 57))%N.

(** [re.sub(r'\D', '', s)] *)
Fixpoint digits_only (s : string) : string :=
  match s with
  | EmptyString => EmptyString
  | String c r => if is_digit c then String c (digits_only r) else digits_only r
  end.

(** [s[n:]] for [0 <= n] *)
Fixpoint drop (n : nat) (s : string) : string :=
  match n, s with
  | O, _ => s
  | S _, EmptyString => EmptyString
  | S k, String _ r => drop k r
  end.

(** [s[-n:]] for [0 < n] *)
Definition last_n (n : nat) (s : string) : string :=
  drop (String.length s - n) s.

(** [s.startswith(p)] *)
Definition startswith (p s : string) : bool := String.prefix p s.

(** The characters [str.strip()] removes, on code points below 128. *)
Definition is_space (c : ascii) : bool :=
  (((9 <=? code c) && (code c <=? 13)) || ((28 <=? code c) && (code c <=? 32)))%N.

Fixpoint lstrip (s : string) : string :=
  match s with
  | EmptyString => EmptyString
  | String c r => if is_space c then lstrip r else s
  end.

Fixpoint rstrip (s : string) : string :=
  match s with
  | EmptyString => EmptyString
  | String c r =>
    match rstrip r with
    | EmptyString => if is_space c then EmptyString else String c EmptyString
    | r' => String c r'
    end
  end.

(** [s.strip()] *)
Definition strip (s : string) : string := rstrip (lstrip s).

Definition is_upper (c : ascii) : bool := ((65 <=? code c) && (code c <=? 90))%N.
Definition is_lower (c : ascii) : bool := ((97 <=? code c) && (code c <=? 122))%N.
Definition is_cased (c : ascii) : bool := is_upper c || is_lower c.

Definition to_lower (c : ascii) : ascii :=
  if is_upper c then ascii_of_N (code c + 32) else c.
Definition to_upper (c : ascii) : ascii :=
  if is_lower c then ascii_of_N (code c - 32) else c.

(** [s.lower()] *)
Fixpoint lower (s : string) : string :=
  match s with
  | EmptyString => EmptyString
  | String c r => String (to_lower c) (lower r)
  end.

(** [s.title()]: a cased character is upper-cased when the character before
    it is not cased, and lower-cased otherwise. *)
Fixpoint title_from (previous_is_cased : bool) (s : string) : string :=
  match s with
  | EmptyString => EmptyString
  | String c r =>
    String (if previous_is_cased then to_lower c else to_upper c)
           (title_from (is_cased c) r)
  end.

Definition title (s : string) : string := title_from false s.

End Text.

(** ** Field normaliser *)

(** [ETLPipeline.standardize_phone] *)
Definition standardize_phone (phone : option string) : option string :=
  match phone with
  | None => None
  | Some phone_str =>
    if String.eqb phone_str "" then None else
    let digits_only := Text.digits_only phone_str in
    let n := String.length digits_only in
    if (n =? 10)%nat then Some ("+91-" ++ digits_only)
    else if (n =? 12)%nat && Text.startswith "91" digits_only
         then Some ("+91-" ++ Text.drop 2 digits_only)
    else if (n =? 11)%nat && Text.startswith "0" digits_only
         then Some ("+91-" ++ Text.drop 1 digits_only)
    else if (10 <=? n)%nat then Some ("+91-" ++ Text.last_n 10 digits_only)
    else None
  end.


(** [ETLPipeline.standardize_category]: [str(category).strip().title()] *)
Definition standardize_category (category : option string) : option string :=
  match category with
  | None => None
  | Some category_str =>
    if String.eqb category_str "" then None
    else Some (Text.title (Text.strip category_str))
  end.

(** *** Dates: [datetime.strptime] and [strftime] for the five formats *)

Module PyDate.

Record date := mkdate { year : nat; month : nat; day : nat }.

(** The named groups of the regular expression a format compiles to. *)
Inductive group := gY | gm | gd.

Inductive token :=
| Dir (g : group)     (* %Y, %m, %d *)
| Lit (c : ascii).    (* a literal character of the format *)

Definition group_eqb (a b : group) : bool :=
  match a, b with
  | gY, gY | gm, gm | gd, gd => true
  | _, _ => false
  end.

Definition digit_val (c : ascii) : nat := N.to_nat (Text.code c - 48).

Definition between (lo hi c : ascii) : bool :=
  ((Text.code lo <=? Text.code c) && (Text.code c <=? Text.code hi))%N.

(** One alternative made of two characters, the first in [a1..a2] and the
    second in [b1..b2]; its value is read by [int]. *)
Definition two (a1 a2 b1 b2 : ascii) (s : string) : list (nat * string) :=
  match s with
  | String a (String b r) =>
    if between a1 a2 a && between b1 b2 b
    then [((if Text.is_digit a then 10 * digit_val a else 0) + digit_val b, r)%nat]
    else []
  | _ => []
  end.

Definition one (a1 a2 : ascii) (s : string) : list (nat * string) :=
  match s with
  | String a r => if between a1 a2 a then [(digit_val a, r)] else []
  | _ => []
  end.

(** The candidates of a directive at the head of [s], in the order the
    regular expression tries its alternatives:
    - [%Y] is [\d\d\d\d];
    - [%m] is [1[0-2]|0[1-9]|[1-9]];
    - [%d] is [3[01]|[12]\d|0[1-9]|[1-9]| [1-9]]. *)
Definition alts (g : group) (s : string) : list (nat * string) :=
  match g with
  | gY =>
    match s with
    | String a (String b (String c (String d r))) =>
      if Text.is_digit a && Text.is_digit b && Text.is_digit c && Text.is_digit d
      then [(1000 * digit_val a + 100 * digit_val b + 10 * digit_val c + digit_val d, r)%nat]
      else []
    | _ => []
    end
  | gm => two "1" "1" "0" "2" s ++ two "0" "0" "1" "9" s ++ one "1" "9" s
  | gd => two "3" "3" "0" "1" s ++ two "1" "2" "0" "9" s ++ two "0" "0" "1" "9" s
          ++ one "1" "9" s ++ two " " " " "1" "9" s
  end.

Fixpoint first_some {A B} (f : A -> option B) (l : list A) : option B :=
  match l with
  | [] => None
  | a :: l' => match f a with Some b => Some b | None => first_some f l' end
  end.

(** [format_regex.match(data_string)]: a backtracking prefix match that
    returns the group dictionary and the text left unconsumed. *)
Fixpoint re_match (fmt : list token) (s : string)
  : option (list (group * nat) * string) :=
  match fmt with
  | [] => Some ([], s)
  | Lit c :: fmt' =>
    match s with
    | String c' r => if Ascii.eqb c c' then re_match fmt' r else None
    | EmptyString => None
    end
  | Dir g :: fmt' =>
    first_some (fun '(v, r) =>
                  match re_match fmt' r with
                  | Some (gs, r') => Some ((g, v) :: gs, r')
                  | None => None
                  end) (alts g s)
  end.

Fixpoint found (g : group) (gs : list (group * nat)) (dflt : nat) : nat :=
  match gs with
  | [] => dflt
  | (g', v) :: gs' => if group_eqb g g' then v else found g gs' dflt
  end.

Definition is_leap (y : nat) : bool :=
  ((y mod 4 =? 0) && (negb (y mod 100 =? 0) || (y mod 400 =? 0)))%nat.

Definition days_in_month (y m : nat) : nat :=
  match m with
  | 2 => if is_leap y then 29 else 28
  | 4 | 6 | 9 | 11 => 30
  | _ => 31
  end%nat.

(** The range check of the [datetime] constructor (MINYEAR is 1). *)
Definition valid (d : date) : bool :=
  ((1 <=? year d) && (year d <=? 9999) && (1 <=? month d) && (month d <=? 12)
   && (1 <=? day d) && (day d <=? days_in_month (year d) (month d)))%nat.

(** [datetime.strptime(s, fmt)]; [None] stands for [ValueError]. *)
Definition strptime (s : string) (fmt : list token) : option date :=
  match re_match fmt s with
  | None => None
  | Some (gs, rest) =>
    match rest with
    | String _ _ => None            (* unconverted data remains *)
    | EmptyString =>
      let d := mkdate (found gY gs 1900) (found gm gs 1) (found gd gs 1) in
      if valid d then Some d else None
    end
  end.

Definition digit_char (n : nat) : ascii := ascii_of_nat (48 + n).

Definition pad2 (n : nat) : string :=
  String (digit_char (n / 10 mod 10)) (String (digit_char (n mod 10)) "").

Definition pad4 (n : nat) : string :=
  String (digit_char (n / 1000 mod 10)) (String (digit_char (n / 100 mod 10))
    (String (digit_char (n / 10 mod 10)) (String (digit_char (n mod 10)) ""))).

(** The decimal digits of [n] without padding, for [n] up to 9999 (MAXYEAR). *)
Definition unpadded (n : nat) : string :=
  if (n <? 10)%nat then String (digit_char n) ""
  else if (n <? 100)%nat then pad2 n
  else if (n <? 1000)%nat then String (digit_char (n / 100 mod 10)) (pad2 n)
  else pad4 n.

(** [d.strftime('%Y-%m-%d')] as CPython writes it through the C library of
    Linux (glibc): [%Y] is the year in decimal without padding (the year
    999 is written 999, not 0999), [%m] and [%d] are on two digits. *)
Definition strftime (d : date) : string :=
  unpadded (year d) ++ "-" ++ pad2 (month d) ++ "-" ++ pad2 (day d).

Definition fmt_Ymd := [Dir gY; Lit "-"; Dir gm; Lit "-"; Dir gd].   (* %Y-%m-%d *)
Definition fmt_dmY_slash := [Dir gd; Lit "/"; Dir gm; Lit "/"; Dir gY]. (* %d/%m/%Y *)
Definition fmt_mdY := [Dir gm; Lit "-"; Dir gd; Lit "-"; Dir gY].   (* %m-%d-%Y *)
Definition fmt_dmY := [Dir gd; Lit "-"; Dir gm; Lit "-"; Dir gY].   (* %d-%m-%Y *)
Definition fmt_mdY_slash := [Dir gm; Lit "/"; Dir gd; Lit "/"; Dir gY]. (* %m/%d/%Y *)

End PyDate.

Definition date_formats : list (list PyDate.token) :=
  [PyDate.fmt_Ymd; PyDate.fmt_dmY_slash; PyDate.fmt_mdY; PyDate.fmt_dmY;
   PyDate.fmt_mdY_slash].

(** The [for fmt in date_formats: try ... except ValueError: continue] loop. *)
Fixpoint try_formats (date_str : string) (fmts : list (list PyDate.token))
  : option string :=
  match fmts with
  | [] => None
  | fmt :: rest =>
    match PyDate.strptime date_str fmt with
    | Some date_obj => Some (PyDate.strftime date_obj)
    | None => try_formats date_str rest
    end
  end.

(** [ETLPipeline.standardize_date] *)
Definition standardize_date (date_str : option string) : option string :=
  match date_str with
  | None => None
  | Some s =>
    if String.eqb s "" then None
    else try_formats (Text.strip s) date_formats
  end.

(** ** pandas helpers *)

Module Pd.

(** [df.drop_duplicates(subset=[key], keep='first')]; missing keys compare
    equal to each other. *)
Fixpoint drop_duplicates_from {A K} `{EqDecision K} (key : A -> K)
         (seen : list K) (df : list A) : list A :=
  match df with
  | [] => []
  | r :: rest =>
    if decide (key r ∈ seen) then drop_duplicates_from key seen rest
    else r :: drop_duplicates_from key (key r :: seen) rest
  end.

Definition drop_duplicates {A K} `{EqDecision K} (key : A -> K) (df : list A)
  : list A := drop_duplicates_from key [] df.

(** [df.dropna(subset=[col])] *)
Definition dropna {A B} (col : A -> option B) (df : list A) : list A :=
  List.filter (fun r => bool_decide (is_Some (col r))) df.

(** [col.isna().sum()] *)
Definition count_na {A B} (col : A -> option B) (df : list A) : nat :=
  length (List.filter (fun r => bool_decide (col r = None)) df).

(** [df.insert(0, 'id', range(1, len(df) + 1))] *)
Definition add_surrogate_key {A} (df : list A) : list (Z * A) :=
  imap (fun i r => (Z.of_nat i + 1, r)) df.

(** Stable insertion sort, standing for [np.sort]. *)
Fixpoint insert_sorted {A} (leb : A -> A -> bool) (x : A) (l : list A) : list A :=
  match l with
  | [] => [x]
  | y :: l' => if leb x y then x :: l else y :: insert_sorted leb x l'
  end.

Definition sort {A} (leb : A -> A -> bool) (l : list A) : list A :=
  foldr (insert_sorted leb) [] l.

(** A cell of a numeric column.  The column has dtype int64 (all its cells
    are integers and none is missing) or float64. *)
Inductive num :=
| Int64 (z : Z)
| Float64 (q : Q).

(** Two's complement on 64 bits. *)
Definition wrap64 (z : Z) : Z := (z + 2 ^ 63) mod 2 ^ 64 - 2 ^ 63.

(** [float(x)] *)
Definition to_float (x : num) : Q :=
  match x with
  | Int64 z => inject_Z z
  | Float64 q => q
  end.

(** [int(x)]: a float is truncated towards zero. *)
Definition to_int (x : num) : Z :=
  match x with
  | Int64 z => z
  | Float64 q => Z.quot (Qnum q) (Zpos (Qden q))
  end.

(** The product of two cells in [col_a * col_b]: of two int64 columns an
    int64, which wraps around; a float64 as soon as one column is. *)
Definition mul_cells (x y : num) : num :=
  match x, y with
  | Int64 a, Int64 b => Int64 (wrap64 (a * b))
  | _, _ => Float64 (to_float x * to_float y)
  end.

(** [col_a * col_b], cell by cell: a missing operand gives a missing cell. *)
Definition mul (x y : option num) : option num :=
  match x, y with
  | Some a, Some b => Some (mul_cells a b)
  | _, _ => None
  end.

Definition add_cells (x y : num) : num :=
  match x, y with
  | Int64 a, Int64 b => Int64 (wrap64 (a + b))
  | _, _ => Float64 (to_float x + to_float y)
  end.

(** [Series.sum()]: missing cells are skipped and the sum of nothing is 0;
    the sum of an int64 column is an int64. *)
Definition sum (col : list (option num)) : num :=
  fold_left add_cells (omap id col) (Int64 0).

(** [Series.median()]: missing cells are skipped; the middle value of the
    sorted cells, or the mean of the two middle values; missing when no
    cell is present. *)
Definition median (col : list (option Q)) : option Q :=
  let v := sort Qle_bool (omap id col) in
  let n := length v in
  if (n =? 0)%nat then None
  else if Nat.odd n then v !! (n / 2)%nat
  else match v !! (n / 2 - 1)%nat, v !! (n / 2)%nat with
       | Some a, Some b => Some ((a + b) / (2 # 1))%Q
       | _, _ => None
       end.

Definition count_occ_str (x : string) (l : list string) : nat :=
  length (List.filter (String.eqb x) l).

(** The distinct values of a column, in order of first appearance. *)
Fixpoint unique {A} `{EqDecision A} (l : list A) : list A :=
  match l with
  | [] => []
  | x :: l' => x :: List.filter (fun y => negb (bool_decide (x = y))) (unique l')
  end.

(** [Series.mode()] of a text column: missing cells are dropped, the values
    with the highest count are kept and returned sorted ascending. *)
Definition mode (col : list (option string)) : list string :=
  let v := omap id col in
  let best := foldr Nat.max 0%nat (List.map (fun x => count_occ_str x v) v) in
  sort String.leb (List.filter (fun x => (count_occ_str x v =? best)%nat) (unique v)).

End Pd.

(** ** Record cleanser *)

(** A cell of a column whose dtype matters to the pipeline: the names of the
    customers frame and the identifiers of the sales frame.  [read_csv] gives
    such a column the dtype object, its cells being text ([str]), unless
    every cell reads as a number: then the column is numeric and a cell is a
    number, kept here by the text [str] gives for it.  The cells of the other
    text columns are only ever read through [str] and are kept as that
    text. *)
Inductive ident :=
| Text (s : string)
| Number (repr : string).

#[global] Instance ident_eq_dec : EqDecision ident.
Proof. solve_decision. Defined.

(** [str(x)] of such a cell. *)
Definition cell_text (x : ident) : string :=
  match x with
  | Text s => s
  | Number repr => repr
  end.

Module Customer.
Record t := mk {
  customer_id : option string;
  first_name : option ident;
  last_name : option ident;
  email : option string;
  phone : option string;
  city : option string;
  registration_date : option string }.
End Customer.

Module Product.
Record t := mk {
  product_id : option string;
  product_name : option string;
  category : option string;
  price : option Q;
  stock_quantity : option Z }.
End Product.

Module Sale.
Record t := mk {
  transaction_id : option string;
  customer_id : option ident;
  product_id : option ident;
  quantity : option Pd.num;
  unit_price : option Pd.num;
  transaction_date : option string;
  status : option string }.
End Sale.

(** Addition of text columns: a missing operand gives a missing result. *)
Definition str_add (a b : option string) : option string :=
  match a, b with
  | Some x, Some y => Some (x ++ y)
  | _, _ => None
  end.

(** [Series.str.lower()] on a cell of a column of dtype object: a cell that
    is not text gives a missing cell. *)
Definition str_lower (x : option ident) : option string :=
  match x with
  | Some (Text s) => Some (Text.lower s)
  | _ => None
  end.

(** The value assigned to [email] on the rows of the mask:
    [first_name.str.lower() + '.' + last_name.str.lower() + '@unknown.com'] *)
Definition default_email (r : Customer.t) : option string :=
  str_add (str_add (str_add (str_lower (Customer.first_name r)) (Some "."))
                   (str_lower (Customer.last_name r)))
          (Some "@unknown.com").

Definition fill_email (r : Customer.t) : Customer.t :=
  match Customer.email r with
  | Some _ => r
  | None =>
    Customer.mk (Customer.customer_id r) (Customer.first_name r) (Customer.last_name r)
                (default_email r) (Customer.phone r) (Customer.city r)
                (Customer.registration_date r)
  end.

Definition clean_customer_fields (r : Customer.t) : Customer.t :=
  Customer.mk (Customer.customer_id r) (Customer.first_name r) (Customer.last_name r)
              (Customer.email r) (standardize_phone (Customer.phone r)) (Customer.city r)
              (standardize_date (Customer.registration_date r)).

(** Whether a column of the frame holds any text, that is, has the dtype
    object.  [read_csv] gives a column in which no cell is text a numeric
    dtype (float64 when every cell is missing), and the accessor [.str] of
    such a column raises AttributeError; [drop_duplicates] keeps the dtype of
    the column. *)
Definition holds_text {A} (col : A -> option ident) (df : list A) : bool :=
  existsb (fun r => match col r with Some (Text _) => true | _ => false end) df.

(** [ETLPipeline.transform_customers]; [None] stands for the AttributeError
    of [.str.lower()] on a name column without text, which nothing catches. *)
Definition transform_customers (customers_df : list Customer.t)
  : option (list (Z * Customer.t)) :=
  let df := Pd.drop_duplicates Customer.customer_id customers_df in
  let missing_emails := Pd.count_na Customer.email df in
  let filled :=
    if (0 <? missing_emails)%nat then
      if holds_text Customer.first_name customers_df
         && holds_text Customer.last_name customers_df
      then Some (List.map fill_email df)
      else None
    else Some df in
  match filled with
  | None => None
  | Some df =>
    let df := List.map clean_customer_fields df in
    Some (Pd.add_surrogate_key df)
  end.

Definition set_price (p : option Q) (r : Product.t) : Product.t :=
  Product.mk (Product.product_id r) (Product.product_name r) (Product.category r)
             p (Product.stock_quantity r).

(** The prices of the rows whose raw category is exactly [c]. *)
Definition prices_of_category (c : string) (df : list Product.t) : list (option Q) :=
  List.map Product.price
           (List.filter (fun r => bool_decide (Product.category r = Some c)) df).

(** [df.groupby('category')['price'].median()]: one entry per category that
    occurs (rows without a category form no group); the entry is missing when
    no row of the group has a price. *)
Definition category_medians (df : list Product.t) : gmap string (option Q) :=
  foldr (fun r m => match Product.category r with
                    | Some c => <[c := Pd.median (prices_of_category c df)]> m
                    | None => m
                    end) ∅ df.

(** The positions of the rows of [df[df['price'].isna()]]. *)
Definition missing_price_rows (df : list Product.t) : list nat :=
  List.filter (fun i => bool_decide ((df !! i) ≫= Product.price = None))
              (seq 0 (length df)).

(** The value the loop body assigns to a row: the median of the row's category
    when the category is in the index of [medians] and that median is not
    missing, the median of the price column of the frame as it stands
    otherwise. *)
Definition fill_value (medians : gmap string (option Q)) (df : list Product.t)
           (row : Product.t) : option Q :=
  match Product.category row ≫= (fun category => medians !! category) with
  | Some (Some m) => Some m
  | _ => Pd.median (List.map Product.price df)
  end.

(** One iteration of the fill loop, on the row at position [idx]:
    [df.at[idx, 'price'] = ...] updates the frame in place. *)
Definition fill_price_at (medians : gmap string (option Q)) (df : list Product.t)
           (idx : nat) : list Product.t :=
  match df !! idx with
  | None => df
  | Some row => <[idx := set_price (fill_value medians df row) row]> df
  end.

Definition fill_missing_prices (df : list Product.t) : list Product.t :=
  let missing_prices := Pd.count_na Product.price df in
  if (0 <? missing_prices)%nat then
    let medians := category_medians df in
    fold_left (fill_price_at medians) (missing_price_rows df) df
  else df.

Definition fill_stock (r : Product.t) : Product.t :=
  Product.mk (Product.product_id r) (Product.product_name r) (Product.category r)
             (Product.price r)
             (Some (default 0 (Product.stock_quantity r))).

Definition clean_category (r : Product.t) : Product.t :=
  Product.mk (Product.product_id r) (Product.product_name r)
             (standardize_category (Product.category r))
             (Product.price r) (Product.stock_quantity r).

(** [ETLPipeline.transform_products] *)
Definition transform_products (products_df : list Product.t) : list (Z * Product.t) :=
  let df := Pd.drop_duplicates Product.product_id products_df in
  let df := fill_missing_prices df in
  let missing_stock := Pd.count_na Product.stock_quantity df in
  let df := if (0 <? missing_stock)%nat then List.map fill_stock df else df in
  let df := List.map clean_category df in
  Pd.add_surrogate_key df.

Definition clean_sale_date (r : Sale.t) : Sale.t :=
  Sale.mk (Sale.transaction_id r) (Sale.customer_id r) (Sale.product_id r)
          (Sale.quantity r) (Sale.unit_price r)
          (standardize_date (Sale.transaction_date r)) (Sale.status r).

(** [ETLPipeline.transform_sales] *)
Definition transform_sales (sales_df : list Sale.t) : list (Z * Sale.t) :=
  let df := Pd.drop_duplicates Sale.transaction_id sales_df in
  let df := Pd.dropna Sale.customer_id df in
  let df := Pd.dropna Sale.product_id df in
  let df := List.map clean_sale_date df in
  let df := Pd.dropna Sale.transaction_date df in
  Pd.add_surrogate_key df.

(** ** Order aggregator *)

Module Order.
Record t := mk {
  order_id : Z;            (* the local counter, before persistence *)
  customer_id : Z;
  order_date : string;
  total_amount : Q;
  status : string }.
End Order.

Module OrderItem.
Record t := mk {
  order_id : Z;
  product_id : Z;
  quantity : Z;
  unit_price : option Q;
  subtotal : option Q }.
End OrderItem.

(** A row of the working frame of [transform_sales_to_orders]: the sales row
    with the columns [db_customer_id], [db_product_id] and [subtotal]. *)
Module Line.
Record t := mk {
  sale : Sale.t;
  db_customer_id : option Z;
  db_product_id : option Z;
  subtotal : option Pd.num }.
End Line.

(** [Series.map(mapping)]: the cell itself is looked up in the dict.  The
    keys of the mappings are the texts [str(id)] the load steps recorded, so
    a text cell is found when it is a key and a number never is (an [int]
    is not equal to a [str]); a missing or unknown key gives a missing
    cell. *)
Definition map_ids (mapping : gmap string Z) (key : option ident) : option Z :=
  match key with
  | Some (Text k) => mapping !! k
  | Some (Number _) => None
  | None => None
  end.

(** [sales_df['quantity'] * sales_df['unit_price']] *)
Definition line_subtotal (quantity unit_price : option Pd.num) : option Pd.num :=
  Pd.mul quantity unit_price.

Definition group_key (l : Line.t) : option (Z * string) :=
  match Line.db_customer_id l, Sale.transaction_date (Line.sale l) with
  | Some c, Some d => Some (c, d)
  | _, _ => None
  end.

Definition key_leb (a b : Z * string) : bool :=
  (a.1 <? b.1) || ((a.1 =? b.1) && String.leb a.2 b.2).

(** [df.groupby(['db_customer_id', 'transaction_date'])]: one group per
    distinct key, keys ascending, rows of a group in frame order; a row with
    a missing key belongs to no group. *)
Definition groupby (df : list Line.t) : list ((Z * string) * list Line.t) :=
  let keys := Pd.sort key_leb (Pd.unique (omap group_key df)) in
  List.map (fun k => (k, List.filter (fun l => bool_decide (group_key l = Some k)) df))
           keys.

(** [group['status'].mode()[0] if len(group['status'].mode()) > 0 else 'Completed'] *)
Definition group_status (group : list Line.t) : string :=
  match Pd.mode (List.map (fun l => Sale.status (Line.sale l)) group) with
  | s :: _ => s
  | [] => "Completed"
  end.

(** One dictionary appended to [order_items_list]: [int(item['quantity'])],
    [float(item['unit_price'])], [float(item['subtotal'])]; [int] of a
    missing cell raises [ValueError], rendered by [None], and [float] of a
    missing cell is missing. *)
Definition make_item (order_id_counter : Z) (item : Line.t) : option OrderItem.t :=
  match Line.db_product_id item, Sale.quantity (Line.sale item) with
  | Some p, Some q =>
    Some (OrderItem.mk order_id_counter p (Pd.to_int q)
                       (Pd.to_float <$> Sale.unit_price (Line.sale item))
                       (Pd.to_float <$> Line.subtotal item))
  | _, _ => None
  end.

(** The loop over the groups. *)
Fixpoint build_orders (grouped : list ((Z * string) * list Line.t))
         (order_id_counter : Z) : option (list Order.t * list OrderItem.t) :=
  match grouped with
  | [] => Some ([], [])
  | ((customer_id, order_date), group) :: rest =>
    let total_amount := Pd.to_float (Pd.sum (List.map Line.subtotal group)) in
    let status := group_status group in
    match mapM (make_item order_id_counter) group with
    | None => None
    | Some items =>
      match build_orders rest (order_id_counter + 1) with
      | None => None
      | Some (orders_list, order_items_list) =>
        Some (Order.mk order_id_counter customer_id order_date total_amount status
                :: orders_list,
              (items ++ order_items_list)%list)
      end
    end
  end.

(** The working frame: rows with both natural ids, mapped to persisted ids,
    rows whose mapping failed removed, subtotal computed. *)
Definition sales_lines (sales_df : list (Z * Sale.t))
           (customer_id_mapping product_id_mapping : gmap string Z) : list Line.t :=
  let df := List.filter (fun r => bool_decide (is_Some (Sale.customer_id r.2))
                                  && bool_decide (is_Some (Sale.product_id r.2)))
                        sales_df in
  let df := List.map (fun r => Line.mk r.2
                                 (map_ids customer_id_mapping (Sale.customer_id r.2))
                                 (map_ids product_id_mapping (Sale.product_id r.2))
                                 None) df in
  let df := List.filter (fun l => bool_decide (is_Some (Line.db_customer_id l))
                                  && bool_decide (is_Some (Line.db_product_id l))) df in
  List.map (fun l => Line.mk (Line.sale l) (Line.db_customer_id l) (Line.db_product_id l)
                             (line_subtotal (Sale.quantity (Line.sale l))
                                            (Sale.unit_price (Line.sale l)))) df.

(** [ETLPipeline.transform_sales_to_orders]; [None] stands for the
    [ValueError] of [int] on a missing quantity, which nothing catches. *)
Definition transform_sales_to_orders (sales_df : list (Z * Sale.t))
           (customer_id_mapping product_id_mapping : gmap string Z)
  : option (list Order.t * list OrderItem.t) :=
  if (length sales_df =? 0)%nat then Some ([], [])
  else build_orders (groupby (sales_lines sales_df customer_id_mapping
                                          product_id_mapping)) 1.

(** ** The relational store

    The schema is the one of [create_tables].  A connection works on a pending
    copy of the tables; [commit] publishes it and [rollback] discards it.
    AUTO_INCREMENT counters are not transactional (a rolled-back or deleted
    row does not give its id back).  [commit] and [rollback] themselves are
    taken to succeed. *)

Module Db.

Record customer_row := mk_customer {
  first_name : string;
  last_name : string;
  email : string;
  phone : option string;
  city : option string;
  registration_date : option string }.

Record product_row := mk_product {
  product_name : string;
  category : string;
  price : Q;
  stock_quantity : Z }.

Record order_row := mk_order {
  customer_id : Z;
  order_date : string;
  total_amount : Q;
  status : string }.

Record order_item_row := mk_order_item {
  order_id : Z;
  product_id : Z;
  quantity : Z;
  unit_price : Q;
  subtotal : Q }.

(** A table is the list of its rows with their primary keys, oldest first. *)
Record tables := mk_tables {
  customers : list (Z * customer_row);
  products : list (Z * product_row);
  orders : list (Z * order_row);
  order_items : list (Z * order_item_row) }.

Record conn := mk_conn {
  connected : bool;
  committed : tables;
  pending : tables;
  next_customer_id : Z;
  next_product_id : Z;
  next_order_id : Z;
  next_order_item_id : Z }.

Inductive table := Customers | Products | Orders | OrderItems.

(** The statements the pipeline executes, with the values bound to them;
    a missing value bound to a column is SQL NULL. *)
Inductive stmt :=
| InsertCustomer (v : customer_row)
| InsertProduct (v : product_row)
| InsertOrder (v : order_row)
| InsertOrderItem (order_id product_id quantity : Z) (unit_price subtotal : option Q)
| DeleteFrom (t : table).

Definition has_key {A} (k : Z) (t : list (Z * A)) : bool :=
  existsb (fun r => r.1 =? k) t.

Definition with_pending (c : conn) (t : tables) : conn :=
  mk_conn (connected c) (committed c) t (next_customer_id c) (next_product_id c)
          (next_order_id c) (next_order_item_id c).

Definition commit (c : conn) : conn :=
  mk_conn (connected c) (pending c) (pending c) (next_customer_id c)
          (next_product_id c) (next_order_id c) (next_order_item_id c).

Definition rollback (c : conn) : conn :=
  mk_conn (connected c) (committed c) (committed c) (next_customer_id c)
          (next_product_id c) (next_order_id c) (next_order_item_id c).

(** [connection.close()] *)
Definition close (c : conn) : conn :=
  mk_conn false (committed c) (committed c) (next_customer_id c)
          (next_product_id c) (next_order_id c) (next_order_item_id c).

(** A fresh session on the same server: it sees the committed tables. *)
Definition open_session (c : conn) : conn :=
  mk_conn true (committed c) (committed c) (next_customer_id c)
          (next_product_id c) (next_order_id c) (next_order_item_id c).

Section Execute.

(** [fault c s] tells whether the server refuses statement [s] in state
    [c] for a reason outside the schema (the link is down, a lock wait
    times out ...). *)
Variable fault : conn -> stmt -> bool.

(** [cursor.execute(s)]: [None] stands for [mysql.connector.Error]; on
    success the new state and [cursor.lastrowid].  An insert checks the
    constraints of its table; [DELETE FROM] empties the table ([load] deletes
    children first, so no foreign key stands in its way). *)
Definition execute (c : conn) (s : stmt) : option (conn * Z) :=
  if fault c s then None else
  let t := pending c in
  match s with
  | InsertCustomer v =>
    (* email UNIQUE *)
    if existsb (fun r => String.eqb (email r.2) (email v)) (customers t) then None
    else
      let k := next_customer_id c in
      Some (mk_conn (connected c) (committed c)
                    (mk_tables (customers t ++ [(k, v)]) (products t) (orders t)
                               (order_items t))
                    (k + 1) (next_product_id c) (next_order_id c)
                    (next_order_item_id c), k)
  | InsertProduct v =>
    let k := next_product_id c in
    Some (mk_conn (connected c) (committed c)
                  (mk_tables (customers t) (products t ++ [(k, v)]) (orders t)
                             (order_items t))
                  (next_customer_id c) (k + 1) (next_order_id c)
                  (next_order_item_id c), k)
  | InsertOrder v =>
    (* FOREIGN KEY (customer_id) REFERENCES customers *)
    if negb (has_key (customer_id v) (customers t)) then None
    else
      let k := next_order_id c in
      Some (mk_conn (connected c) (committed c)
                    (mk_tables (customers t) (products t) (orders t ++ [(k, v)])
                               (order_items t))
                    (next_customer_id c) (next_product_id c) (k + 1)
                    (next_order_item_id c), k)
  | InsertOrderItem o p q u sub =>
    (* unit_price and subtotal NOT NULL; the two foreign keys *)
    match u, sub with
    | Some u, Some sub =>
      if negb (has_key o (orders t)) || negb (has_key p (products t)) then None
      else
        let k := next_order_item_id c in
        Some (mk_conn (connected c) (committed c)
                      (mk_tables (customers t) (products t) (orders t)
                                 (order_items t ++ [(k, mk_order_item o p q u sub)]))
                      (next_customer_id c) (next_product_id c) (next_order_id c)
                      (k + 1), k)
    | _, _ => None
    end
  | DeleteFrom Customers =>
    Some (with_pending c (mk_tables [] (products t) (orders t) (order_items t)), 0)
  | DeleteFrom Products =>
    Some (with_pending c (mk_tables (customers t) [] (orders t) (order_items t)), 0)
  | DeleteFrom Orders =>
    Some (with_pending c (mk_tables (customers t) (products t) [] (order_items t)), 0)
  | DeleteFrom OrderItems =>
    Some (with_pending c (mk_tables (customers t) (products t) (orders t) []), 0)
  end.

End Execute.

End Db.

(** ** Loader *)

(** What a [try] block leaves behind: it ran to its end, or a statement
    raised [mysql.connector.Error] in the state given. *)
Inductive attempt (A : Type) :=
| Ran (c : Db.conn) (a : A)
| Raised (c : Db.conn).
Arguments Ran {A} c a.
Arguments Raised {A} c.

(** [str(x)] of a text cell: a missing cell prints as [nan]. *)
Definition py_str (x : option string) : string := default "nan" x.

Definition customer_values (row : Customer.t) : Db.customer_row :=
  Db.mk_customer (py_str (cell_text <$> Customer.first_name row))
                 (py_str (cell_text <$> Customer.last_name row))
                 (py_str (Customer.email row)) (Customer.phone row) (Customer.city row)
                 (Customer.registration_date row).

Definition product_values (row : Product.t) : Db.product_row :=
  Db.mk_product (py_str (Product.product_name row))
                (default "Unknown" (Product.category row))
                (default (0 # 1) (Product.price row))
                (default 0 (Product.stock_quantity row)).

Definition order_values (row : Order.t) : Db.order_row :=
  Db.mk_order (Order.customer_id row) (Order.order_date row) (Order.total_amount row)
              (Order.status row).

(** The state of an [ETLPipeline] object between [transform] and [load].  A
    frame that was never set is rendered by the empty frame: every reader of
    the frames treats the two alike. *)
Record pipeline := mk_pipeline {
  customers_df : list (Z * Customer.t);
  products_df : list (Z * Product.t);
  sales_df : list (Z * Sale.t) }.

Section Loader.

Variable fault : Db.conn -> Db.stmt -> bool.

(** The insert loop of a load step: every row is inserted and the id the
    store assigned is recorded under the row's key. *)
Fixpoint insert_rows {A K} `{Countable K} (values : A -> Db.stmt) (key : A -> K)
         (c : Db.conn) (rows : list A) (mapping : gmap K Z) : attempt (gmap K Z) :=
  match rows with
  | [] => Ran c mapping
  | row :: rest =>
    match Db.execute fault c (values row) with
    | None => Raised c
    | Some (c', lastrowid) =>
      insert_rows values key c' rest (<[key row := lastrowid]> mapping)
    end
  end.

Definition insert_customers (c : Db.conn) (df : list (Z * Customer.t))
  : attempt (gmap string Z) :=
  insert_rows (fun r => Db.InsertCustomer (customer_values r.2))
              (fun r => py_str (Customer.customer_id r.2)) c df ∅.

(** [ETLPipeline.load_customers] *)
Definition load_customers (c : Db.conn) (df : list (Z * Customer.t))
  : Db.conn * gmap string Z :=
  if (length df =? 0)%nat then (c, ∅)
  else if negb (Db.connected c) then (c, ∅)
  else match insert_customers c df with
       | Ran c' customer_id_mapping => (Db.commit c', customer_id_mapping)
       | Raised c' => (Db.rollback c', ∅)
       end.

Definition insert_products (c : Db.conn) (df : list (Z * Product.t))
  : attempt (gmap string Z) :=
  insert_rows (fun r => Db.InsertProduct (product_values r.2))
              (fun r => py_str (Product.product_id r.2)) c df ∅.

(** [ETLPipeline.load_products] *)
Definition load_products (c : Db.conn) (df : list (Z * Product.t))
  : Db.conn * gmap string Z :=
  if (length df =? 0)%nat then (c, ∅)
  else if negb (Db.connected c) then (c, ∅)
  else match insert_products c df with
       | Ran c' product_id_mapping => (Db.commit c', product_id_mapping)
       | Raised c' => (Db.rollback c', ∅)
       end.

Definition insert_orders (c : Db.conn) (orders_df : list Order.t)
  : attempt (gmap Z Z) :=
  insert_rows (fun r => Db.InsertOrder (order_values r)) Order.order_id c orders_df ∅.

(** [ETLPipeline.load_orders]; the result is [None] on the two early
    returns, which return no mapping. *)
Definition load_orders (c : Db.conn) (orders_df : list Order.t)
  : Db.conn * option (gmap Z Z) :=
  if (length orders_df =? 0)%nat then (c, None)
  else if negb (Db.connected c) then (c, None)
  else match insert_orders c orders_df with
       | Ran c' order_id_mapping => (Db.commit c', Some order_id_mapping)
       | Raised c' => (Db.rollback c', Some ∅)
       end.

(** The loop of [load_order_items]: the row's [order_id] is looked up in
    [order_id_mapping]; a row without an entry is skipped. *)
Fixpoint insert_order_items (c : Db.conn) (order_items_df : list OrderItem.t)
         (order_id_mapping : gmap Z Z) : attempt unit :=
  match order_items_df with
  | [] => Ran c tt
  | row :: rest =>
    let df_order_id := OrderItem.order_id row in
    match order_id_mapping !! df_order_id with
    | None => insert_order_items c rest order_id_mapping
    | Some db_order_id =>
      match Db.execute fault c
              (Db.InsertOrderItem db_order_id (OrderItem.product_id row)
                                  (OrderItem.quantity row) (OrderItem.unit_price row)
                                  (OrderItem.subtotal row)) with
      | None => Raised c
      | Some (c', _) => insert_order_items c' rest order_id_mapping
      end
    end
  end.

(** [ETLPipeline.load_order_items] *)
Definition load_order_items (c : Db.conn) (order_items_df : list OrderItem.t)
           (order_id_mapping : gmap Z Z) : Db.conn :=
  if (length order_items_df =? 0)%nat then c
  else if negb (Db.connected c) then c
  else match insert_order_items c order_items_df order_id_mapping with
       | Ran c' _ => Db.commit c'
       | Raised c' => Db.rollback c'
       end.

(** The four [DELETE FROM] statements of [load], children first. *)
Fixpoint execute_all (c : Db.conn) (l : list Db.stmt) : attempt unit :=
  match l with
  | [] => Ran c tt
  | s :: rest =>
    match Db.execute fault c s with
    | None => Raised c
    | Some (c', _) => execute_all c' rest
    end
  end.

Definition clear_existing_data (c : Db.conn) : Db.conn :=
  match execute_all c [Db.DeleteFrom Db.OrderItems; Db.DeleteFrom Db.Orders;
                       Db.DeleteFrom Db.Customers; Db.DeleteFrom Db.Products] with
  | Ran c' _ => Db.commit c'
  | Raised c' => Db.rollback c'
  end.

(** [order_items_df['order_id'].map(order_id_mapping)] followed by
    [dropna(subset=['order_id'])]. *)
Definition rewrite_order_ids (order_id_mapping : gmap Z Z)
           (order_items_df : list OrderItem.t) : list OrderItem.t :=
  let mapped := List.map (fun r => (order_id_mapping !! OrderItem.order_id r, r))
                         order_items_df in
  let kept := Pd.dropna fst mapped in
  omap (fun '(o, r) =>
          (fun db => OrderItem.mk db (OrderItem.product_id r) (OrderItem.quantity r)
                                  (OrderItem.unit_price r) (OrderItem.subtotal r))
            <$> o) kept.

(** How a call of [load] ends: it returns, or an exception that nothing
    catches leaves it. *)
Inductive run :=
| Finished (c : Db.conn)
| Aborted (c : Db.conn).

(** [ETLPipeline.load].  [reachable] is the outcome of [connect_to_mysql];
    the tables of [create_tables] exist in every state of the model;
    [verify_data_loaded] only reads. *)
Definition load (reachable : bool) (c : Db.conn) (self : pipeline) : run :=
  if negb reachable then Finished c
  else
    let c := Db.open_session c in
    let c := clear_existing_data c in
    let '(c, customer_id_mapping) := load_customers c (customers_df self) in
    let '(c, product_id_mapping) := load_products c (products_df self) in
    match transform_sales_to_orders (sales_df self) customer_id_mapping
                                    product_id_mapping with
    | None => Aborted c
    | Some (orders_df, order_items_df) =>
      let '(c, order_id_mapping) := load_orders c orders_df in
      if (0 <? length order_items_df)%nat then
        match order_id_mapping with
        | None => Aborted c          (* [Series.map(None)] raises TypeError *)
        | Some order_id_mapping =>
          let order_items_df := rewrite_order_ids order_id_mapping order_items_df in
          Finished (Db.close (load_order_items c order_items_df order_id_mapping))
        end
      else Finished (Db.close c)
    end.

(** The methods [load] calls once the tables are cleared. *)
Inductive call :=
| LoadCustomers
| LoadProducts
| TransformSalesToOrders
| LoadOrders
| LoadOrderItems
| VerifyDataLoaded
| CloseConnection.

(** The calls a run of [load] makes, in order.  [load] has no [try] around
    them: the list ends with the call an exception leaves [load] from. *)
Definition load_calls (reachable : bool) (c : Db.conn) (self : pipeline) : list call :=
  if negb reachable then []
  else
    let c := Db.open_session c in
    let c := clear_existing_data c in
    let '(c, customer_id_mapping) := load_customers c (customers_df self) in
    let '(c, product_id_mapping) := load_products c (products_df self) in
    [LoadCustomers; LoadProducts; TransformSalesToOrders]
    ++ match transform_sales_to_orders (sales_df self) customer_id_mapping
                                       product_id_mapping with
       | None => []
       | Some (orders_df, order_items_df) =>
         let '(c, order_id_mapping) := load_orders c orders_df in
         let closing c := VerifyDataLoaded
                          :: (if Db.connected c then [CloseConnection] else []) in
         LoadOrders
         :: (if (0 <? length order_items_df)%nat then
               match order_id_mapping with
               | None => []
               | Some order_id_mapping =>
                 let order_items_df := rewrite_order_ids order_id_mapping
                                                         order_items_df in
                 LoadOrderItems
                 :: closing (load_order_items c order_items_df order_id_mapping)
               end
             else closing c)
       end.

End Loader.

(** ** The specification's reading of two rules, for comparison *)

(** The status rule as the specification words it: the most frequent present
    value, and among values tied for most frequent the one met first in the
    group's line order. *)
Definition spec_first_encountered_mode (col : list (option string)) : option string :=
  let v := omap id col in
  let best := foldr Nat.max 0%nat (List.map (fun x => Pd.count_occ_str x v) v) in
  List.find (fun x => (Pd.count_occ_str x v =? best)%nat) v.

(** The halting rule as the specification words it, for the first load step:
    when the insert loop of [load_customers] raises, every later step is
    skipped, so [load] ends with the tables the rolled-back step left. *)
Definition spec_load_halts (fault : Db.conn -> Db.stmt -> bool) (c : Db.conn)
           (self : pipeline) : Prop :=
  forall c',
    insert_customers fault (clear_existing_data fault (Db.open_session c))
                     (customers_df self) = Raised c' ->
    exists c_end, load fault true c self = Finished c_end /\
                  Db.committed c_end = Db.committed (Db.rollback c').

(** ** Sample data *)

Module Sample.

(** A server on which no statement is refused for outside reasons. *)
Definition no_fault : Db.conn -> Db.stmt -> bool := fun _ _ => false.

(** A server that refuses every insert into [orders]. *)
Definition no_orders : Db.conn -> Db.stmt -> bool :=
  fun _ s => match s with Db.InsertOrder _ => true | _ => false end.

Definition empty_tables : Db.tables := Db.mk_tables [] [] [] [].

(** A store nobody has written to. *)
Definition fresh_store : Db.conn := Db.mk_conn false empty_tables empty_tables 1 1 1 1.

(** A store on which one order was inserted and deleted before: the orders
    counter stands at 2. *)
Definition used_store : Db.conn := Db.mk_conn false empty_tables empty_tables 1 1 2 1.

Definition ann : Customer.t :=
  Customer.mk (Some "C001") (Some (Text "Ann")) (Some (Text "Lee"))
              (Some "ann@example.com")
              (Some "98765 43210") (Some "Pune") (Some "15/01/2024").

(** Neither an email nor a first name. *)
Definition nameless : Customer.t :=
  Customer.mk (Some "C002") None (Some (Text "Rao")) None None None None.

(** Another customer with Ann's email. *)
Definition bob : Customer.t :=
  Customer.mk (Some "C003") (Some (Text "Bob")) (Some (Text "Roy"))
              (Some "ann@example.com")
              None None None.

Definition pen : Product.t :=
  Product.mk (Some "P001") (Some "Pen") (Some "office") (Some (10 # 1)) (Some 5).

(** A sale of [q] pens at 10.00 to Ann: the ids are text, the quantity column
    is int64 and the price column float64. *)
Definition sale (t : string) (q : Z) (date status : string) : Sale.t :=
  Sale.mk (Some t) (Some (Text "C001")) (Some (Text "P001")) (Some (Pd.Int64 q))
          (Some (Pd.Float64 (10 # 1))) (Some date) (Some status).

(** The cleansed customers frame [transform] leaves (empty if it raised). *)
Definition customers_of (raw : list Customer.t) : list (Z * Customer.t) :=
  default [] (transform_customers raw).

(** Two sales of one customer on two days: two orders of one line each. *)
Definition two_days : pipeline :=
  mk_pipeline (customers_of [ann]) (transform_products [pen])
              (transform_sales [sale "T001" 3 "2024-01-01" "Pending";
                                sale "T002" 1 "2024-01-02" "Pending"]).

(** The same sales, with two customers sharing an email. *)
Definition shared_email : pipeline :=
  mk_pipeline (customers_of [ann; bob]) (transform_products [pen])
              (transform_sales [sale "T001" 3 "2024-01-01" "Pending"]).

(** Two sales of one customer on one day, that is one group, whose two
    status values are tied. *)
Definition tied_sales : list (Z * Sale.t) :=
  transform_sales [sale "T001" 1 "2024-01-01" "Pending";
                   sale "T002" 1 "2024-01-01" "Completed"].

Definition product (i : string) (c : option string) (p : option Q) : Product.t :=
  Product.mk (Some i) (Some i) c p (Some 1).

(** Two spellings of one category, and a row to fill. *)
Definition mixed_case : list Product.t :=
  [product "P1" (Some "electronics") (Some (100 # 1));
   product "P2" (Some "Electronics") (Some (300 # 1));
   product "P3" (Some "electronics") None].


End Sample.

(** ** Proof vocabulary *)

(** Positions in strictly increasing order, as [iterrows] yields them. *)
Fixpoint increasing (l : list nat) : Prop :=
  match l with
  | [] => True
  | i :: rest => (forall j, In j rest -> (i < j)%nat) /\ increasing rest
  end.

(** Case analysis on a hypothesis [In x [a; b; ...]]. *)
Ltac enumerate H := repeat (destruct H as [<-|H]); try contradiction.

(** ** Vocabulary of the further properties *)

(** The row [load_order_items] binds for an item: the order id is the one
    the mapping gives for the item's [order_id]; there is no row when the
    mapping has no entry, or when a NOT NULL amount is missing. *)
Definition order_item_row_of (order_id_mapping : gmap Z Z) (it : OrderItem.t)
  : option Db.order_item_row :=
  match order_id_mapping !! OrderItem.order_id it,
        OrderItem.unit_price it, OrderItem.subtotal it with
  | Some db_order_id, Some u, Some sub =>
    Some (Db.mk_order_item db_order_id (OrderItem.product_id it) (OrderItem.quantity it)
                           u sub)
  | _, _, _ => None
  end.

(** The rows [n], [n+1], ... given to a list of values by a counter at [n]. *)
Definition numbered {R} (n : Z) (rows : list R) : list (Z * R) :=
  imap (fun i r => (n + Z.of_nat i, r)) rows.

(** Only the tables differ between two connection states. *)
Definition same_counters (c c' : Db.conn) : Prop :=
  Db.next_customer_id c' = Db.next_customer_id c /\
  Db.next_product_id c' = Db.next_product_id c /\
  Db.next_order_id c' = Db.next_order_id c /\
  Db.next_order_item_id c' = Db.next_order_item_id c.

(** ** Further sample data *)

Module Cases.

(** A store holding one customer, one product and the orders 2 and 3, with
    nothing pending. *)
Definition tables_with_orders : Db.tables :=
  Db.mk_tables
    [(1, Db.mk_customer "Ann" "Lee" "ann@example.com" None None None)]
    [(1, Db.mk_product "Pen" "Office" (10 # 1) 5)]
    [(2, Db.mk_order 1 "2024-01-01" (30 # 1) "Pending");
     (3, Db.mk_order 1 "2024-01-02" (10 # 1) "Pending")]
    [].

Definition store_with_orders : Db.conn :=
  Db.mk_conn true tables_with_orders tables_with_orders 2 2 4 1.

(** An item of local order 1 and an item of an order that was not loaded. *)
Definition items : list OrderItem.t :=
  [OrderItem.mk 1 1 3 (Some (10 # 1)) (Some (30 # 1));
   OrderItem.mk 7 1 1 (Some (10 # 1)) (Some (10 # 1))].

(** A store holding one customer and nothing else, the orders counter at 5. *)
Definition store_with_customer : Db.conn :=
  let t := Db.mk_tables
             [(1, Db.mk_customer "Ann" "Lee" "ann@example.com" None None None)] [] [] [] in
  Db.mk_conn true t t 2 1 5 1.

Definition orders : list Order.t :=
  [Order.mk 1 1 "2024-01-01" (30 # 1) "Pending";
   Order.mk 2 1 "2024-01-02" (10 # 1) "Pending"].

(** An order of a customer the store does not hold. *)
Definition orphan_orders : list Order.t :=
  [Order.mk 1 1 "2024-01-01" (30 # 1) "Pending";
   Order.mk 2 8 "2024-01-02" (10 # 1) "Pending"].

End Cases.

Module Faulty.

(** Ann buys a pen, the quantity of the sale is missing. *)
Definition no_quantity : pipeline :=
  mk_pipeline (Sample.customers_of [Sample.ann]) (transform_products [Sample.pen])
              (transform_sales
                 [Sale.mk (Some "T001") (Some (Text "C001")) (Some (Text "P001")) None
                          (Some (Pd.Float64 (10 # 1))) (Some "2024-01-01")
                          (Some "Pending")]).

End Faulty.

(** ** The foreign keys of the schema *)

(** The three FOREIGN KEY clauses of [create_tables], as a check on the
    tables: every order names a customer of the customers table, every order
    item an order of the orders table and a product of the products table. *)
Definition foreign_keys_hold (t : Db.tables) : bool :=
  forallb (fun r => Db.has_key (Db.customer_id r.2) (Db.customers t)) (Db.orders t)
  && forallb (fun r => Db.has_key (Db.order_id r.2) (Db.orders t)
                       && Db.has_key (Db.product_id r.2) (Db.products t))
             (Db.order_items t).

Definition is_insert (s : Db.stmt) : bool :=
  match s with
  | Db.DeleteFrom _ => false
  | _ => true
  end.

(** The connection state [load] ends in, returning or not. *)
Definition final_state (r : run) : Db.conn :=
  match r with
  | Finished c | Aborted c => c
  end.

(** What a load step keeps of the store: no transaction is left open, and
    the committed tables keep their foreign keys. *)
Definition step_keeps (c c' : Db.conn) : Prop :=
  Db.pending c = Db.committed c ->
  Db.pending c' = Db.committed c' /\
  (foreign_keys_hold (Db.committed c) = true ->
   foreign_keys_hold (Db.committed c') = true).

(** [p] lies between two prices that are present in the frame. *)
Definition price_within (df : list Product.t) (p : Q) : Prop :=
  exists a b, In (Some a) (List.map Product.price df) /\
              In (Some b) (List.map Product.price df) /\
              (a <= p)%Q /\ (p <= b)%Q.

(** A fact about one character, settled on every character. *)
Ltac by_character c :=
  destruct c as [[] [] [] [] [] [] [] []]; reflexivity.

(** What an order item says about the sale, apart from its order: product,
    quantity, unit price and subtotal; and the same four cells of a line of
    the working frame, read by [int] and [float] as the item reads them. *)
Definition item_payload (it : OrderItem.t) : option Z * option Z * option Q * option Q :=
  (Some (OrderItem.product_id it), Some (OrderItem.quantity it),
   OrderItem.unit_price it, OrderItem.subtotal it).

Definition line_payload (l : Line.t) : option Z * option Z * option Q * option Q :=
  (Line.db_product_id l, Pd.to_int <$> Sale.quantity (Line.sale l),
   Pd.to_float <$> Sale.unit_price (Line.sale l), Pd.to_float <$> Line.subtotal l).

(** ** Verification of the load *)

(** The key [verify_data_loaded] groups the sales rows by; a row with a
    missing cell in the key belongs to no group. *)
Definition natural_key (r : Sale.t) : option (ident * string) :=
  match Sale.customer_id r, Sale.transaction_date r with
  | Some c, Some d => Some (c, d)
  | _, _ => None
  end.

(** The rows [verify_data_loaded] counts: those with both natural ids. *)
Definition sales_with_ids (self : pipeline) : list (Z * Sale.t) :=
  List.filter (fun r => bool_decide (is_Some (Sale.customer_id r.2))
                        && bool_decide (is_Some (Sale.product_id r.2)))
              (sales_df self).

(** [sales_df.groupby(['customer_id', 'transaction_date']).ngroups] *)
Definition expected_orders (self : pipeline) : nat :=
  length (Pd.unique (omap (fun r => natural_key r.2) (sales_with_ids self))).

Definition expected_order_items (self : pipeline) : nat :=
  length (sales_with_ids self).

(** What [verify_data_loaded] reports. *)
Inductive verdict :=
| Verified      (* All data successfully loaded and verified! *)
| Mismatch      (* Warning: Record counts don't match. *)
| ReadError.    (* Error verifying data *)

(** [ETLPipeline.verify_data_loaded]: nothing is reported without a
    connection; [readable] tells whether the four [SELECT COUNT] statements
    go through.  The counts are those the session sees. *)
Definition verify_data_loaded (readable : bool) (c : Db.conn) (self : pipeline)
  : option verdict :=
  if negb (Db.connected c) then None
  else if negb readable then Some ReadError
  else
    let t := Db.pending c in
    let customers_count := length (Db.customers t) in
    let products_count := length (Db.products t) in
    let orders_count := length (Db.orders t) in
    let order_items_count := length (Db.order_items t) in
    let expected_customers := length (customers_df self) in
    let expected_products := length (products_df self) in
    if (customers_count =? expected_customers)%nat
       && (products_count =? expected_products)%nat
       && (orders_count =? expected_orders self)%nat
       && (order_items_count =? expected_order_items self)%nat
    then Some Verified
    else Some Mismatch.

(** The rows a table gains from a frame: consecutive ids from [n]. *)
Definition loaded {A R} (n : Z) (values : A -> R) (df : list A) : list (Z * R) :=
  numbered n (List.map values df).

(** The mapping a load step returns when its loop ran over [rows] with
    distinct keys: the keys of the rows and no other, each sent to the id of
    its row. *)
Definition maps_rows {A K} `{Countable K} (m : gmap K Z) (key : A -> K) (n : Z)
           (rows : list A) : Prop :=
  (forall i a, rows !! i = Some a -> m !! key a = Some (n + Z.of_nat i)) /\
  (forall k v, m !! k = Some v ->
               exists i a, rows !! i = Some a /\ key a = k /\ v = n + Z.of_nat i).

(** The row of an item that is stored under its own order id. *)
Definition stored_item (it : OrderItem.t) : option Db.order_item_row :=
  match OrderItem.unit_price it, OrderItem.subtotal it with
  | Some u, Some sub =>
    Some (Db.mk_order_item (OrderItem.order_id it) (OrderItem.product_id it)
                           (OrderItem.quantity it) u sub)
  | _, _ => None
  end.

(** The line of the working frame a sales row becomes. *)
Definition line_of (cm pm : gmap string Z) (r : Z * Sale.t) : Line.t :=
  Line.mk r.2 (map_ids cm (Sale.customer_id r.2)) (map_ids pm (Sale.product_id r.2))
          (line_subtotal (Sale.quantity r.2) (Sale.unit_price r.2)).

Definition customer_key (r : Z * Customer.t) : string := py_str (Customer.customer_id r.2).
Definition product_key (r : Z * Product.t) : string := py_str (Product.product_id r.2).

(** A sales row that names, by text ids, a customer and a product of the
    cleansed frames and has a date, a quantity and a unit price. *)
Definition resolvable (self : pipeline) (x : Z * Sale.t) : Prop :=
  (exists cid, Sale.customer_id x.2 = Some (Text cid) /\
               In cid (List.map customer_key (customers_df self))) /\
  (exists pid, Sale.product_id x.2 = Some (Text pid) /\
               In pid (List.map product_key (products_df self))) /\
  is_Some (Sale.transaction_date x.2) /\
  is_Some (Sale.quantity x.2) /\
  is_Some (Sale.unit_price x.2).

(** ** Exact arithmetic, for comparison with the frame's *)








(** Sales rows for the arithmetic of the aggregator: one customer, one
    product, one day. *)
Module Arith.

Definition sale (t : string) (quantity unit_price : Pd.num) : Sale.t :=
  Sale.mk (Some t) (Some (Text "C001")) (Some (Text "P001")) (Some quantity)
          (Some unit_price) (Some "2024-01-01") (Some "Pending").




End Arith.

(** Product files for the fallback of the price rule. *)
Module Prices.


(** The same, after a row that the loop fills from its category. *)
Definition filled_before : list Product.t :=
  [Sample.product "P1" (Some "A") (Some (10 # 1));
   Sample.product "P2" (Some "A") None;
   Sample.product "P3" None None;
   Sample.product "P4" (Some "B") (Some (100 # 1))].

End Prices.

(** * Theorems *)

(** ** Field normaliser: phone numbers *)

Lemma app_String (c : ascii) (p s : string) : String c p ++ s = String c (p ++ s).
Proof. reflexivity. Qed.

Lemma startswith_split (p s : string) :
  Text.startswith p s = true -> s = p ++ Text.drop (String.length p) s.
Proof.
  revert s. induction p as [|a p IH]; intros s H; [reflexivity|].
  destruct s as [|b s]; simpl in H; [discriminate|].
  destruct (ascii_dec a b) as [->|]; [|discriminate].
  simpl. rewrite app_String. f_equal. apply IH, H.
Qed.

Lemma length_drop (n : nat) (s : string) :
  String.length (Text.drop n s) = (String.length s - n)%nat.
Proof.
  revert s. induction n as [|n IH]; intros [|c s]; simpl; try rewrite IH; lia.
Qed.

Lemma drop_suffix (n : nat) (s : string) : exists pre, s = pre ++ Text.drop n s.
Proof.
  revert s. induction n as [|n IH]; intros s.
  - exists "". reflexivity.
  - destruct s as [|c s]; [exists ""; reflexivity|].
    destruct (IH s) as [pre Hpre]. exists (String c pre).
    rewrite app_String. simpl. congruence.
Qed.

(** C8.  [standardize_phone] is a total function (nothing in it can raise);
    with [d] the digits of the input, in order: ten digits give ["+91-" ++ d];
    twelve digits starting with 91 give ["+91-"] and the ten digits after the
    prefix; eleven digits starting with 0 give ["+91-"] and the ten digits
    after the 0; any other input with at least ten digits gives ["+91-"] and
    its last ten digits; an input with fewer than ten digits, an empty input
    and a missing input give the missing value. *)
Theorem standardize_phone_rules :
  standardize_phone None = None /\
  standardize_phone (Some "") = None /\
  forall raw : string, raw <> "" ->
    let d := Text.digits_only raw in
    (String.length d = 10%nat -> standardize_phone (Some raw) = Some ("+91-" ++ d)) /\
    (String.length d = 12%nat -> Text.startswith "91" d = true ->
       exists rest, d = "91" ++ rest /\ String.length rest = 10%nat /\
                    standardize_phone (Some raw) = Some ("+91-" ++ rest)) /\
    (String.length d = 11%nat -> Text.startswith "0" d = true ->
       exists rest, d = "0" ++ rest /\ String.length rest = 10%nat /\
                    standardize_phone (Some raw) = Some ("+91-" ++ rest)) /\
    ((10 <= String.length d)%nat -> String.length d <> 10%nat ->
     ~ (String.length d = 12%nat /\ Text.startswith "91" d = true) ->
     ~ (String.length d = 11%nat /\ Text.startswith "0" d = true) ->
       exists pre last, d = pre ++ last /\ String.length last = 10%nat /\
                        standardize_phone (Some raw) = Some ("+91-" ++ last)) /\
    ((String.length d < 10)%nat -> standardize_phone (Some raw) = None).
Proof.
  split; [reflexivity|]. split; [reflexivity|].
  intros raw Hne d. unfold standardize_phone. fold d.
  apply String.eqb_neq in Hne. rewrite Hne.
  repeat split.
  - intros ->. reflexivity.
  - intros Hlen Hpre. exists (Text.drop 2 d). split; [apply (startswith_split "91" d Hpre)|].
    split; [rewrite length_drop; lia|]. rewrite Hlen, Hpre. reflexivity.
  - intros Hlen Hpre. exists (Text.drop 1 d). split; [apply (startswith_split "0" d Hpre)|].
    split; [rewrite length_drop; lia|]. rewrite Hlen, Hpre. reflexivity.
  - intros Hge H10 H12 H11.
    destruct (drop_suffix (String.length d - 10) d) as [pre Hpre].
    exists pre, (Text.last_n 10 d). split; [exact Hpre|].
    split; [unfold Text.last_n; rewrite length_drop; lia|].
    rewrite (proj2 (Nat.eqb_neq _ _) H10).
    assert (E12 : (String.length d =? 12)%nat && Text.startswith "91" d = false).
    { apply not_true_is_false. intros E. apply andb_prop in E as [E1 E2].
      apply H12. split; [apply Nat.eqb_eq, E1 | exact E2]. }
    assert (E11 : (String.length d =? 11)%nat && Text.startswith "0" d = false).
    { apply not_true_is_false. intros E. apply andb_prop in E as [E1 E2].
      apply H11. split; [apply Nat.eqb_eq, E1 | exact E2]. }
    rewrite E12, E11, (proj2 (Nat.leb_le _ _) Hge). reflexivity.
  - intros Hlt.
    rewrite (proj2 (Nat.eqb_neq _ 10%nat)), (proj2 (Nat.eqb_neq _ 12%nat)),
      (proj2 (Nat.eqb_neq _ 11%nat)), (proj2 (Nat.leb_gt 10 _)) by lia.
    reflexivity.
Qed.

Lemma standardize_phone_rules_witness :
  standardize_phone (Some "98765 43210") = Some "+91-9876543210" /\
  (exists rest, standardize_phone (Some "+91 98765-43210") = Some ("+91-" ++ rest)) /\
  (exists rest, standardize_phone (Some "098765 43210") = Some ("+91-" ++ rest)) /\
  (exists last, standardize_phone (Some "0091-9876543210") = Some ("+91-" ++ last)) /\
  standardize_phone (Some "98765") = None.
Proof.
  destruct standardize_phone_rules as (_ & _ & H).
  split; [|split; [|split; [|split]]].
  - assert (Hne : "98765 43210" <> "") by discriminate.
    destruct (H "98765 43210" Hne) as (H10 & _). apply H10. reflexivity.
  - assert (Hne : "+91 98765-43210" <> "") by discriminate.
    destruct (H "+91 98765-43210" Hne) as (_ & H12 & _).
    destruct H12 as (rest & _ & _ & E); [reflexivity|reflexivity|]. exists rest. exact E.
  - assert (Hne : "098765 43210" <> "") by discriminate.
    destruct (H "098765 43210" Hne) as (_ & _ & H11 & _).
    destruct H11 as (rest & _ & _ & E); [reflexivity|reflexivity|]. exists rest. exact E.
  - assert (Hne : "0091-9876543210" <> "") by discriminate.
    destruct (H "0091-9876543210" Hne) as (_ & _ & _ & Hl & _).
    destruct Hl as (pre & last & _ & _ & E).
    + simpl. lia.
    + simpl. lia.
    + simpl. intros [E _]. lia.
    + simpl. intros [E _]. lia.
    + exists last. exact E.
  - assert (Hne : "98765" <> "") by discriminate.
    destruct (H "98765" Hne) as (_ & _ & _ & _ & Hs). apply Hs. simpl. lia.
Defined.

(** ** Field normaliser: dates *)

Section DateFacts.

Import PyDate.

Lemma digit_char_is_digit (k : nat) : (k < 10)%nat -> Text.is_digit (digit_char k) = true.
Proof. intros H. do 10 (destruct k as [|k]; [reflexivity|]). lia. Qed.

Lemma digit_char_not_space (k : nat) : (k < 10)%nat -> Text.is_space (digit_char k) = false.
Proof. intros H. do 10 (destruct k as [|k]; [reflexivity|]). lia. Qed.

Lemma digit_val_char (k : nat) : (k < 10)%nat -> digit_val (digit_char k) = k.
Proof. intros H. do 10 (destruct k as [|k]; [reflexivity|]). lia. Qed.

Lemma decimal_digits (y : nat) :
  (y < 10 * 1000)%nat ->
  (1000 * (y / 1000 mod 10) + 100 * (y / 100 mod 10) + 10 * (y / 10 mod 10)
   + y mod 10 = y)%nat.
Proof.
  intros H.
  replace (y / 1000)%nat with (y / 10 / 10 / 10)%nat
    by (rewrite !Nat.Div0.div_div; reflexivity).
  replace (y / 100)%nat with (y / 10 / 10)%nat
    by (rewrite !Nat.Div0.div_div; reflexivity).
  pose proof (Nat.div_mod_eq y 10) as E1.
  pose proof (Nat.div_mod_eq (y / 10) 10) as E2.
  pose proof (Nat.div_mod_eq (y / 10 / 10) 10) as E3.
  rewrite (Nat.mod_small (y / 10 / 10 / 10) 10) by lia.
  lia.
Qed.

Lemma max_year (y : nat) : (y <=? 9999)%nat = true -> (y < 10 * 1000)%nat.
Proof.
  intros H. apply Nat.leb_le in H.
  change 9999%nat with (9 * 1000 + 999)%nat in H. lia.
Qed.

Lemma mod10_lt (n : nat) : (n mod 10 < 10)%nat.
Proof. apply Nat.mod_upper_bound. discriminate. Qed.

(** [%Y] reads back the four digits [strftime] wrote. *)
Lemma alts_year (y : nat) (r : string) :
  (y < 10 * 1000)%nat -> alts gY (pad4 y ++ r) = [(y, r)].
Proof.
  intros H. unfold pad4. rewrite !app_String. cbn [alts].
  rewrite !digit_char_is_digit, !digit_val_char by apply mod10_lt.
  cbn [andb]. rewrite decimal_digits by assumption. reflexivity.
Qed.

(** [-%m-%d] reads back a two-digit month and a two-digit day. *)
Lemma re_match_month_day (m d : nat) :
  (1 <= m <= 12)%nat -> (1 <= d <= 31)%nat ->
  re_match [Lit "-"; Dir gm; Lit "-"; Dir gd] ("-" ++ pad2 m ++ "-" ++ pad2 d)
  = Some ([(gm, m); (gd, d)], "").
Proof.
  intros Hm Hd.
  assert (Em : In m (seq 1 12)) by (apply in_seq; lia).
  assert (Ed : In d (seq 1 31)) by (apply in_seq; lia).
  cbn [seq In] in Em, Ed.
  enumerate Em; enumerate Ed; reflexivity.
Qed.

Lemma re_match_year (y : nat) (r : string) :
  (y < 10 * 1000)%nat ->
  re_match fmt_Ymd (pad4 y ++ r)
  = match re_match [Lit "-"; Dir gm; Lit "-"; Dir gd] r with
    | Some (gs, r') => Some ((gY, y) :: gs, r')
    | None => None
    end.
Proof.
  intros H. unfold fmt_Ymd.
  change (re_match (Dir gY :: ?f) ?s)
    with (first_some (fun '(v, r) =>
                        match re_match f r with
                        | Some (gs, r') => Some ((gY, v) :: gs, r')
                        | None => None
                        end) (alts gY s)).
  rewrite alts_year by assumption. cbn [first_some].
  destruct (re_match _ r) as [[gs r']|]; reflexivity.
Qed.

Lemma valid_bounds (d : date) :
  valid d = true ->
  (year d < 10 * 1000 /\ 1 <= month d <= 12 /\ 1 <= day d <= 31)%nat.
Proof.
  unfold valid. intros H.
  repeat (apply andb_prop in H as [H ?]).
  match goal with
  | H : (_ <=? 9999)%nat = true |- _ => apply max_year in H
  end.
  repeat match goal with
         | H : (_ <=? _)%nat = true |- _ => apply Nat.leb_le in H
         end.
  assert (days_in_month (year d) (month d) <= 31)%nat.
  { unfold days_in_month.
    destruct (month d) as [|[|[|[|[|[|[|[|[|[|[|[|?]]]]]]]]]]]]; try lia.
    destruct (is_leap (year d)); lia. }
  lia.
Qed.

Lemma unpadded_four (y : nat) : (1000 <= y)%nat -> unpadded y = pad4 y.
Proof.
  intros H. unfold unpadded.
  destruct (Nat.ltb_spec y 10); [lia|]. destruct (Nat.ltb_spec y 100); [lia|].
  destruct (Nat.ltb_spec y 1000); [lia | reflexivity].
Qed.

(** The first character of a year as [strftime] writes it is a digit. *)
Lemma unpadded_head (y : nat) :
  exists k r, (k < 10)%nat /\ unpadded y = String (digit_char k) r.
Proof.
  unfold unpadded, pad2, pad4.
  destruct (Nat.ltb_spec y 10); [eauto|]. destruct (Nat.ltb_spec y 100).
  { eexists _, _. split; [apply mod10_lt | reflexivity]. }
  destruct (Nat.ltb_spec y 1000); eexists _, _; (split; [apply mod10_lt | reflexivity]).
Qed.

Lemma string_app_assoc (a b c : string) : (a ++ b) ++ c = a ++ b ++ c.
Proof. induction a as [|x a IH]; [reflexivity|]. rewrite !app_String, IH. reflexivity. Qed.

(** Parsing the output of [strftime] with [%Y-%m-%d] gives the date back,
    when the year has four digits. *)
Lemma strptime_strftime (d : date) :
  valid d = true -> (1000 <= year d)%nat -> strptime (strftime d) fmt_Ymd = Some d.
Proof.
  intros Hv H4. destruct (valid_bounds d Hv) as (Hy & Hm & Hd).
  unfold strptime, strftime. rewrite unpadded_four by exact H4.
  rewrite re_match_year by lia.
  rewrite re_match_month_day by assumption.
  cbn [found group_eqb]. destruct d as [y m dd]. cbn [year month day] in *.
  rewrite Hv. reflexivity.
Qed.

Lemma strptime_valid (s : string) (fmt : list token) (d : date) :
  strptime s fmt = Some d -> valid d = true.
Proof.
  unfold strptime. destruct (re_match fmt s) as [[gs [|? ?]]|]; try discriminate.
  destruct (valid _) eqn:E; [|discriminate]. intros [= <-]. exact E.
Qed.

Lemma rstrip_snoc (s : string) (c : ascii) :
  Text.is_space c = false -> Text.rstrip (s ++ String c "") = s ++ String c "".
Proof.
  intros Hc. induction s as [|a s IH].
  - change ("" ++ String c "") with (String c "").
    cbn [Text.rstrip]. rewrite Hc. reflexivity.
  - rewrite app_String. cbn [Text.rstrip]. rewrite IH.
    destruct s; reflexivity.
Qed.

Lemma strip_strftime (d : date) : Text.strip (strftime d) = strftime d.
Proof.
  unfold Text.strip, strftime.
  assert (E : unpadded (year d) ++ "-" ++ pad2 (month d) ++ "-" ++ pad2 (day d)
              = (unpadded (year d) ++ "-" ++ pad2 (month d) ++ "-"
                 ++ String (digit_char (day d / 10 mod 10)) "")
                ++ String (digit_char (day d mod 10)) "").
  { rewrite !string_app_assoc. reflexivity. }
  assert (L : Text.lstrip (unpadded (year d) ++ "-" ++ pad2 (month d) ++ "-"
                           ++ pad2 (day d))
              = unpadded (year d) ++ "-" ++ pad2 (month d) ++ "-" ++ pad2 (day d)).
  { destruct (unpadded_head (year d)) as (k & r & Hk & ->).
    rewrite app_String. cbn [Text.lstrip].
    rewrite digit_char_not_space by exact Hk. reflexivity. }
  rewrite L, E. apply rstrip_snoc, digit_char_not_space, mod10_lt.
Qed.

Lemma strftime_nonempty (d : date) : String.eqb (strftime d) "" = false.
Proof.
  unfold strftime. destruct (unpadded_head (year d)) as (k & r & _ & ->). reflexivity.
Qed.

Lemma try_formats_sound (s : string) (fmts : list (list token)) (y : string) :
  try_formats s fmts = Some y ->
  exists d, valid d = true /\ y = strftime d.
Proof.
  induction fmts as [|fmt fmts IH]; [discriminate|].
  cbn [try_formats]. destruct (strptime s fmt) as [d|] eqn:E; [|exact IH].
  intros [= <-]. exists d. split; [eapply strptime_valid, E | reflexivity].
Qed.

End DateFacts.

(** A date of a year from 1000 on is read back as it was written. *)
Lemma standardize_date_fixed (d : PyDate.date) :
  PyDate.valid d = true -> (1000 <= PyDate.year d)%nat ->
  standardize_date (Some (PyDate.strftime d)) = Some (PyDate.strftime d).
Proof.
  intros Hv H4. unfold standardize_date. rewrite strftime_nonempty, strip_strftime.
  unfold date_formats. cbn [try_formats].
  rewrite strptime_strftime by assumption. reflexivity.
Qed.

(** C9 (the code departs from the claim).  A date of the year 999 is written
    with a three-digit year, which is not the YYYY-MM-DD the docstring
    promises and which no format reads: applied to its own output,
    [standardize_date] returns nothing.  The same happens for the years 99
    and 9. *)
Theorem standardize_date_not_idempotent :
  standardize_date (Some "01/01/0999") = Some "999-01-01" /\
  standardize_date (Some "999-01-01") = None /\
  standardize_date (Some "31-12-0099") = Some "99-12-31" /\
  standardize_date (Some "99-12-31") = None /\
  standardize_date (Some "0009-07-04") = Some "9-07-04" /\
  standardize_date (Some "9-07-04") = None.
Proof. repeat split; vm_compute; reflexivity. Qed.

(** ** Behaviour on the sample data *)

(** C3 (the code departs from the claim).  A customer without an email and
    without a first name leaves [transform_customers] with no email: the
    synthesized text is missing as soon as one of its parts is. *)
Theorem transform_customers_leaves_null_email :
  List.map (fun r => (r.1, Customer.email r.2))
    <$> transform_customers [Sample.ann; Sample.nameless]
  = Some [(1, Some "ann@example.com"); (2, None)].
Proof. vm_compute. reflexivity. Qed.

(** C1 (the code departs from the claim).  On a store whose orders counter
    stands at 2, the two orders with local ids 1 and 2 are persisted as 2 and
    3.  [load] rewrites the items to the persisted ids, and [load_order_items]
    looks the rewritten id up in the same mapping once more: the item of
    order 1 is persisted under order 3, the item of order 2 is skipped. *)
Theorem load_rewrites_order_id_twice :
  exists orders_df order_items_df c_end,
    transform_sales_to_orders (sales_df Sample.two_days) {["C001" := 1]} {["P001" := 1]}
    = Some (orders_df, order_items_df) /\
    List.map (fun o => (Order.order_id o, Order.order_date o)) orders_df
    = [(1, "2024-01-01"); (2, "2024-01-02")] /\
    List.map (fun i => (OrderItem.order_id i, OrderItem.quantity i)) order_items_df
    = [(1, 3); (2, 1)] /\
    load Sample.no_fault true Sample.used_store Sample.two_days = Finished c_end /\
    List.map (fun r => (r.1, Db.order_date r.2)) (Db.orders (Db.committed c_end))
    = [(2, "2024-01-01"); (3, "2024-01-02")] /\
    List.map (fun r => (Db.order_id r.2, Db.quantity r.2))
             (Db.order_items (Db.committed c_end))
    = [(3, 3)].
Proof.
  eexists _, _, _. split; [vm_compute; reflexivity|].
  split; [reflexivity|]. split; [reflexivity|].
  split; [vm_compute; reflexivity|]. split; reflexivity.
Qed.

(** ** Columns without a missing cell *)

Lemma count_na_zero {A B} (col : A -> option B) (df : list A) :
  (0 <? Pd.count_na col df)%nat = false -> forall r, In r df -> is_Some (col r).
Proof.
  unfold Pd.count_na. intros H0 r Hr. apply Nat.ltb_ge in H0.
  destruct (col r) as [b|] eqn:E; [eauto|]. exfalso.
  assert (Hin : In r (List.filter (fun r => bool_decide (col r = None)) df)).
  { apply filter_In. split; [exact Hr | apply bool_decide_eq_true_2, E]. }
  destruct (List.filter _ df); [exact Hin | cbn in H0; lia].
Qed.

(** ** Customer cleansing *)

(** The email of the cleansed customer at position [i]: a present email is
    kept, a missing one becomes [default_email], which is the lower-cased
    names around a dot before "@unknown.com" when both names are present. *)
Lemma cleansed_customer_email (raw : list Customer.t) (out : list (Z * Customer.t))
      (i : nat) (id : Z) (r' : Customer.t) :
  transform_customers raw = Some out ->
  out !! i = Some (id, r') ->
  exists r,
    Pd.drop_duplicates Customer.customer_id raw !! i = Some r /\
    (forall e, Customer.email r = Some e -> Customer.email r' = Some e) /\
    (Customer.email r = None -> Customer.email r' = default_email r) /\
    (forall f l, Customer.email r = None ->
                 Customer.first_name r = Some (Text f) ->
                 Customer.last_name r = Some (Text l) ->
                 Customer.email r'
                 = Some (((Text.lower f ++ ".") ++ Text.lower l) ++ "@unknown.com")).
Proof.
  unfold transform_customers, Pd.add_surrogate_key.
  set (df := Pd.drop_duplicates Customer.customer_id raw).
  intros Ht Hout.
  assert (Hrow : exists r, df !! i = Some r /\
                           Customer.email r'
                           = match Customer.email r with
                             | Some e => Some e
                             | None => default_email r
                             end).
  { destruct (0 <? Pd.count_na Customer.email df)%nat eqn:Ec.
    - destruct (_ && _); [|discriminate]. injection Ht as <-.
      rewrite list_lookup_imap, (list_lookup_fmap clean_customer_fields) in Hout.
      rewrite (list_lookup_fmap fill_email) in Hout.
      destruct (df !! i) as [r|]; [|discriminate].
      cbn in Hout. injection Hout as <- <-. exists r. split; [reflexivity|].
      unfold fill_email. destruct (Customer.email r) eqn:Ee; cbn; [exact Ee | reflexivity].
    - injection Ht as <-.
      rewrite list_lookup_imap, (list_lookup_fmap clean_customer_fields) in Hout.
      destruct (df !! i) as [r|] eqn:Hr; [|discriminate].
      cbn in Hout. injection Hout as <- <-. exists r. split; [reflexivity|].
      destruct (count_na_zero _ _ Ec r) as [e He].
      { apply list_elem_of_In, list_elem_of_lookup. eauto. }
      cbn. rewrite He. reflexivity. }
  destruct Hrow as (r & Hr & He). exists r. split; [exact Hr|].
  split; [intros e Hre; rewrite He, Hre; reflexivity|].
  split; [intros Hre; rewrite He, Hre; reflexivity|].
  intros f l Hre Hf Hl. rewrite He, Hre. unfold default_email. rewrite Hf, Hl. reflexivity.
Qed.

(** ** Sorting and the mode of a column *)

Section SortFacts.

Context {A : Type} (leb : A -> A -> bool).
Hypothesis leb_total : forall x y, leb x y = true \/ leb y x = true.
Hypothesis leb_trans : forall x y z, leb x y = true -> leb y z = true -> leb x z = true.

Lemma In_insert_sorted (x y : A) (l : list A) :
  In y (Pd.insert_sorted leb x l) <-> y = x \/ In y l.
Proof.
  induction l as [|a l IH]; simpl.
  - intuition.
  - destruct (leb x a); simpl; [intuition | rewrite IH; intuition].
Qed.

Lemma In_sort (y : A) (l : list A) : In y (Pd.sort leb l) <-> In y l.
Proof.
  induction l as [|a l IH]; simpl; [reflexivity|].
  rewrite In_insert_sorted, IH. intuition.
Qed.

(** The head of an inserted list is below every element, when that held for
    the list. *)
Lemma insert_sorted_head_least (x : A) (l : list A) :
  (forall h t, l = h :: t -> forall y, In y l -> leb h y = true) ->
  forall h t, Pd.insert_sorted leb x l = h :: t ->
              forall y, In y (Pd.insert_sorted leb x l) -> leb h y = true.
Proof.
  intros Hl h t E y Hy. apply In_insert_sorted in Hy.
  destruct l as [|a l]; simpl in E.
  - injection E as -> <-. destruct Hy as [->|[]].
    destruct (leb_total h h); assumption.
  - specialize (Hl a l eq_refl).
    destruct (leb x a) eqn:Hxa; injection E as -> <-.
    + destruct Hy as [->|Hy]; [destruct (leb_total h h); assumption|].
      eapply leb_trans; [exact Hxa | apply Hl, Hy].
    + destruct Hy as [->|Hy]; [|apply Hl, Hy].
      destruct (leb_total x h) as [E|E]; [congruence | exact E].
Qed.

Lemma sort_head_least (l : list A) (h : A) (t : list A) :
  Pd.sort leb l = h :: t -> forall y, In y l -> leb h y = true.
Proof.
  intros E y Hy. apply In_sort in Hy. revert h t E y Hy.
  induction l as [|a l IH]; [discriminate|].
  intros h t E y Hy. simpl in *.
  eapply insert_sorted_head_least; eauto.
Qed.

End SortFacts.

Lemma string_leb_cons (a b : ascii) (s t : string) :
  String.leb (String a s) (String b t) = true <->
  (N_of_ascii a < N_of_ascii b)%N \/ (a = b /\ String.leb s t = true).
Proof.
  unfold String.leb. cbn [String.compare]. unfold Ascii.compare.
  destruct (N.compare_spec (N_of_ascii a) (N_of_ascii b)) as [E|E|E].
  - assert (a = b) by (rewrite <- (ascii_N_embedding a), <- (ascii_N_embedding b); congruence).
    subst. split; [auto | intros [H|[_ H]]; [lia | exact H]].
  - split; auto.
  - split; [discriminate | intros [H|[-> _]]; lia].
Qed.

Lemma string_leb_trans (x y z : string) :
  String.leb x y = true -> String.leb y z = true -> String.leb x z = true.
Proof.
  revert y z. induction x as [|a x IH]; intros [|b y] [|c z]; try reflexivity;
    try discriminate.
  rewrite !string_leb_cons. intros [H1|[-> H1]] [H2|[-> H2]].
  - left. lia.
  - left. exact H1.
  - left. exact H2.
  - right. split; [reflexivity | eapply IH; eassumption].
Qed.

Lemma In_unique {A} `{EqDecision A} (x : A) (l : list A) :
  In x (Pd.unique l) <-> In x l.
Proof.
  induction l as [|a l IH]; simpl; [reflexivity|].
  rewrite filter_In, IH. split.
  - intros [->|[H _]]; auto.
  - intros [->|H]; [auto|].
    destruct (decide (a = x)) as [->|Hne]; [auto|].
    right. split; [exact H|]. rewrite bool_decide_eq_false_2 by exact Hne. reflexivity.
Qed.

Lemma count_le_best (x : string) (v w : list string) :
  In x w ->
  (Pd.count_occ_str x v <= foldr Nat.max 0 (List.map (fun y => Pd.count_occ_str y v) w))%nat.
Proof.
  induction w as [|a w IH]; simpl; [contradiction|].
  intros [->|H]; [lia | specialize (IH H); lia].
Qed.

Lemma best_attained (v w : list string) :
  w <> [] ->
  exists x, In x w /\
            Pd.count_occ_str x v
            = foldr Nat.max 0%nat (List.map (fun y => Pd.count_occ_str y v) w).
Proof.
  induction w as [|a w IH]; [congruence|]. intros _.
  destruct w as [|b w].
  - exists a. simpl. split; [auto | lia].
  - destruct IH as (x & Hx & E); [discriminate|].
    cbn [List.map foldr] in *.
    destruct (Nat.max_spec (Pd.count_occ_str a v)
                (Nat.max (Pd.count_occ_str b v)
                   (foldr Nat.max 0%nat (List.map (fun y => Pd.count_occ_str y v) w))))
      as [[_ ->]|[_ ->]].
    + exists x. split; [right; exact Hx | exact E].
    + exists a. split; [left; reflexivity | reflexivity].
Qed.

Lemma count_absent (x : string) (v : list string) :
  ~ In x v -> Pd.count_occ_str x v = 0%nat.
Proof.
  unfold Pd.count_occ_str. induction v as [|a v IH]; [reflexivity|].
  intros H. simpl. destruct (String.eqb_spec x a) as [->|_].
  - exfalso. apply H. left. reflexivity.
  - apply IH. intros H'. apply H. right. exact H'.
Qed.

(** What [Pd.mode] puts first: a present value of highest count, and the
    smallest such value in string order. *)
Lemma mode_head (col : list (option string)) :
  let v := omap id col in
  match Pd.mode col with
  | [] => v = []
  | s :: _ =>
    In s v /\
    (forall t, Pd.count_occ_str t v <= Pd.count_occ_str s v)%nat /\
    (forall t, In t v -> Pd.count_occ_str t v = Pd.count_occ_str s v ->
               String.leb s t = true)
  end.
Proof.
  intros v. unfold Pd.mode. fold v.
  set (best := foldr Nat.max 0%nat (List.map (fun x => Pd.count_occ_str x v) v)).
  set (modes := List.filter (fun x => (Pd.count_occ_str x v =? best)%nat) (Pd.unique v)).
  destruct (Pd.sort String.leb modes) as [|s rest] eqn:E.
  - assert (Hv : v = [] \/ v <> []) by (destruct v; [left; reflexivity | right; discriminate]).
    destruct Hv as [Hv|Hv]; [exact Hv|]. exfalso.
    destruct (best_attained v v Hv) as (x & Hx & Hc).
    assert (Hm : In x modes).
    { apply filter_In. split; [apply In_unique, Hx|]. apply Nat.eqb_eq, Hc. }
    apply (In_sort String.leb) in Hm. rewrite E in Hm. exact Hm.
  - assert (Hs : In s modes) by (apply (In_sort String.leb); rewrite E; left; reflexivity).
    apply filter_In in Hs as [Hs Hc]. apply (proj1 (In_unique _ _)) in Hs.
    apply Nat.eqb_eq in Hc.
    split; [exact Hs|]. split.
    + intros t. rewrite Hc. destruct (in_dec string_dec t v) as [Ht|Ht].
      * apply count_le_best, Ht.
      * rewrite count_absent by exact Ht. lia.
    + intros t Ht Hct.
      apply (sort_head_least String.leb String.leb_total string_leb_trans modes s rest E).
      apply filter_In. split; [apply In_unique, Ht|].
      apply Nat.eqb_eq. congruence.
Qed.

(** ** Order aggregator *)

Lemma make_item_fields (n : Z) (l : Line.t) (it : OrderItem.t) :
  make_item n l = Some it ->
  OrderItem.order_id it = n /\
  OrderItem.subtotal it = Pd.to_float <$> Line.subtotal l /\
  OrderItem.unit_price it = Pd.to_float <$> Sale.unit_price (Line.sale l) /\
  (exists q, Sale.quantity (Line.sale l) = Some q /\
             OrderItem.quantity it = Pd.to_int q) /\
  Line.db_product_id l = Some (OrderItem.product_id it).
Proof.
  unfold make_item.
  destruct (Line.db_product_id l), (Sale.quantity (Line.sale l)) as [q|];
    try discriminate.
  intros [= <-]. cbn. repeat split. exists q. split; reflexivity.
Qed.

Lemma mapM_make_item (n : Z) (g : list Line.t) (its : list OrderItem.t) :
  mapM (make_item n) g = Some its ->
  List.map OrderItem.subtotal its
  = List.map (fun l => Pd.to_float <$> Line.subtotal l) g /\
  (forall it, In it its -> OrderItem.order_id it = n) /\
  (forall it, In it its -> exists l, In l g /\ make_item n l = Some it).
Proof.
  intros H. apply mapM_Some in H.
  induction H as [|l it g its Hl _ IH]; [cbn; intuition|].
  destruct IH as (IH1 & IH2 & IH3).
  pose proof (make_item_fields _ _ _ Hl) as (Hid & Hsub & _).
  cbn. repeat split.
  - congruence.
  - intros it' [<-|H']; auto.
  - intros it' [<-|H']; [exists l; auto|].
    destruct (IH3 it' H') as (l' & ? & ?). exists l'. auto.
Qed.

Lemma filter_all {A} (f : A -> bool) (l : list A) :
  (forall x, In x l -> f x = true) -> List.filter f l = l.
Proof.
  induction l as [|a l IH]; [reflexivity|]. intros H. simpl.
  rewrite (H a) by (left; reflexivity). f_equal. apply IH. intros x Hx. apply H. right. exact Hx.
Qed.

Lemma filter_none {A} (f : A -> bool) (l : list A) :
  (forall x, In x l -> f x = false) -> List.filter f l = [].
Proof.
  induction l as [|a l IH]; [reflexivity|]. intros H. simpl.
  rewrite (H a) by (left; reflexivity). apply IH. intros x Hx. apply H. right. exact Hx.
Qed.

(** The items the loop emits carry the counters of the groups it walks. *)
Lemma build_orders_item_ids (grouped : list ((Z * string) * list Line.t)) (n : Z)
      (orders : list Order.t) (items : list OrderItem.t) :
  build_orders grouped n = Some (orders, items) ->
  forall it, In it items -> n <= OrderItem.order_id it.
Proof.
  revert n orders items. induction grouped as [|[[c d] g] rest IH]; intros n orders items.
  - intros [= <- <-] it [].
  - cbn [build_orders].
    destruct (mapM (make_item n) g) as [its|] eqn:Eg; [|discriminate].
    destruct (build_orders rest (n + 1)) as [[orders' items']|] eqn:Er; [|discriminate].
    intros [= <- <-] it Hit. apply in_app_or in Hit as [Hit|Hit].
    + apply mapM_make_item in Eg as (_ & Hid & _). rewrite (Hid it Hit). lia.
    + specialize (IH _ _ _ Er it Hit). lia.
Qed.

(** Every order the loop emits is the order of one group: its fields are
    computed from that group, and the items carrying its counter are the
    items made from the lines of that group, in line order. *)
Lemma build_orders_order (grouped : list ((Z * string) * list Line.t)) (n : Z)
      (orders : list Order.t) (items : list OrderItem.t) (o : Order.t) :
  build_orders grouped n = Some (orders, items) ->
  In o orders ->
  exists k g,
    In (k, g) grouped /\
    o = Order.mk (Order.order_id o) k.1 k.2
                 (Pd.to_float (Pd.sum (List.map Line.subtotal g)))
                 (group_status g) /\
    mapM (make_item (Order.order_id o)) g
    = Some (List.filter (fun it => OrderItem.order_id it =? Order.order_id o) items).
Proof.
  revert n orders items. induction grouped as [|[[c d] g] rest IH]; intros n orders items.
  - intros [= <- <-] [].
  - cbn [build_orders].
    destruct (mapM (make_item n) g) as [its|] eqn:Eg; [|discriminate].
    destruct (build_orders rest (n + 1)) as [[orders' items']|] eqn:Er; [|discriminate].
    intros [= <- <-] [<-|Ho].
    + exists (c, d), g. cbn. split; [auto|]. split; [reflexivity|].
      rewrite Eg. f_equal. rewrite List.filter_app.
      pose proof (mapM_make_item _ _ _ Eg) as (_ & Hid & _).
      rewrite filter_all, filter_none, app_nil_r; [reflexivity| |].
      * intros it Hit. pose proof (build_orders_item_ids _ _ _ _ Er it Hit). lia.
      * intros it Hit. rewrite (Hid it Hit). lia.
    + destruct (IH _ _ _ Er Ho) as (k & g' & Hin & Heq & Hits).
      exists k, g'. split; [right; exact Hin|]. split; [exact Heq|].
      rewrite Hits. f_equal. rewrite List.filter_app.
      pose proof (mapM_make_item _ _ _ Eg) as (_ & Hid & _).
      rewrite (filter_none _ its); [reflexivity|].
      intros it Hit. rewrite (Hid it Hit).
      assert (n + 1 <= Order.order_id o); [|lia].
      clear -Er Ho. revert n orders' items' Er Ho.
      induction rest as [|[[c d] g] rest IH]; intros n orders' items'.
      * intros [= <- <-] [].
      * cbn [build_orders].
        destruct (mapM (make_item (n + 1)) g); [|discriminate].
        destruct (build_orders rest (n + 1 + 1)) as [[os' is']|] eqn:Er; [|discriminate].
        intros [= <- <-] [<-|Ho]; [cbn; lia|].
        specialize (IH _ _ _ Er Ho). lia.
Qed.

Lemma build_orders_item (grouped : list ((Z * string) * list Line.t)) (n : Z)
      (orders : list Order.t) (items : list OrderItem.t) (it : OrderItem.t) :
  build_orders grouped n = Some (orders, items) ->
  In it items ->
  exists k g l, In (k, g) grouped /\ In l g /\
                make_item (OrderItem.order_id it) l = Some it.
Proof.
  revert n orders items. induction grouped as [|[[c d] g] rest IH]; intros n orders items.
  - intros [= <- <-] [].
  - cbn [build_orders].
    destruct (mapM (make_item n) g) as [its|] eqn:Eg; [|discriminate].
    destruct (build_orders rest (n + 1)) as [[orders' items']|] eqn:Er; [|discriminate].
    intros [= <- <-] Hit. apply in_app_or in Hit as [Hit|Hit].
    + apply mapM_make_item in Eg as (_ & Hid & Hl).
      destruct (Hl it Hit) as (l & Hlg & Hmk).
      exists (c, d), g, l. rewrite (Hid it Hit). split; [left; reflexivity | auto].
    + destruct (IH _ _ _ Er Hit) as (k & g' & l & ? & ? & ?).
      exists k, g', l. split; [right; assumption | auto].
Qed.

Lemma groupby_group (df : list Line.t) (k : Z * string) (g : list Line.t) :
  In (k, g) (groupby df) ->
  g = List.filter (fun l => bool_decide (group_key l = Some k)) df /\ g <> [].
Proof.
  unfold groupby. intros H. apply in_map_iff in H as (k' & [= -> <-] & Hk).
  split; [reflexivity|].
  apply (In_sort key_leb), In_unique, list_elem_of_In, list_elem_of_omap in Hk.
  destruct Hk as (l & Hl & Hkey). apply list_elem_of_In in Hl.
  intros E.
  assert (Hin : In l (List.filter (fun l => bool_decide (group_key l = Some k)) df)).
  { apply filter_In. split; [exact Hl|]. apply bool_decide_eq_true_2, Hkey. }
  rewrite E in Hin. exact Hin.
Qed.


(** C2, counterexample.  Two lines of one group carry "Pending" then
    "Completed": the order gets "Completed", while the value met first among
    the most frequent ones is "Pending". *)
Lemma order_status_tie_not_first_encountered :
  exists total items,
    transform_sales_to_orders Sample.tied_sales {["C001" := 1]} {["P001" := 1]}
    = Some ([Order.mk 1 1 "2024-01-01" total "Completed"], items) /\
    spec_first_encountered_mode (List.map (fun r => Sale.status r.2) Sample.tied_sales)
    = Some "Pending" /\
    Some "Completed"
    <> spec_first_encountered_mode
         (List.map (fun r => Sale.status r.2) Sample.tied_sales).
Proof.
  eexists _, _. split; [vm_compute; reflexivity|].
  split; [reflexivity | discriminate].
Qed.

(** C2, as amended.  Every order is the order of one group of the working
    frame: the lines whose persisted customer id and date are the order's
    own, and that group is not empty.  Among the statuses present in that
    group, the order's status is one of highest count, and no value of the
    same count precedes it in string order; when no line of the group has a
    status, the order's status is "Completed". *)
Theorem order_status_is_smallest_mode
        (sales : list (Z * Sale.t)) (cm pm : gmap string Z)
        (orders : list Order.t) (items : list OrderItem.t) (o : Order.t) :
  transform_sales_to_orders sales cm pm = Some (orders, items) ->
  In o orders ->
  let group :=
    List.filter (fun l => bool_decide (group_key l
                                       = Some (Order.customer_id o, Order.order_date o)))
                (sales_lines sales cm pm) in
  let v := omap id (List.map (fun l => Sale.status (Line.sale l)) group) in
  In ((Order.customer_id o, Order.order_date o), group)
     (groupby (sales_lines sales cm pm)) /\
  group <> [] /\
  (v = [] -> Order.status o = "Completed") /\
  (v <> [] ->
   In (Order.status o) v /\
   (forall t, Pd.count_occ_str t v <= Pd.count_occ_str (Order.status o) v)%nat /\
   (forall t, In t v -> Pd.count_occ_str t v = Pd.count_occ_str (Order.status o) v ->
              String.leb (Order.status o) t = true)).
Proof.
  unfold transform_sales_to_orders. intros H Ho.
  destruct (length sales =? 0)%nat; [injection H as <- <-; destruct Ho|].
  destruct (build_orders_order _ _ _ _ _ H Ho) as (k & g & Hin & Heq & _).
  assert (Ek : (Order.customer_id o, Order.order_date o) = k)
    by (rewrite Heq; destruct k; reflexivity).
  cbv zeta. rewrite Ek.
  destruct (groupby_group _ _ _ Hin) as [<- Hne].
  split; [exact Hin|]. split; [exact Hne|].
  rewrite Heq. cbn [Order.status]. unfold group_status.
  pose proof (mode_head (List.map (fun l => Sale.status (Line.sale l)) g)) as Hm.
  cbv zeta in Hm.
  destruct (Pd.mode _) as [|s rest].
  - split; [reflexivity | intros Hne'; contradiction].
  - split; [intros Hv; destruct Hm as (Hs & _); rewrite Hv in Hs; destruct Hs|].
    intros _. exact Hm.
Qed.

Lemma order_status_is_smallest_mode_witness :
  let group :=
    List.filter (fun l => bool_decide (group_key l = Some (1, "2024-01-01")))
                (sales_lines Sample.tied_sales {["C001" := 1]} {["P001" := 1]}) in
  let v := omap id (List.map (fun l => Sale.status (Line.sale l)) group) in
  v = ["Pending"; "Completed"] /\
  In ((1, "2024-01-01"), group)
     (groupby (sales_lines Sample.tied_sales {["C001" := 1]} {["P001" := 1]})) /\
  In "Completed" v /\
  (forall t, Pd.count_occ_str t v <= Pd.count_occ_str "Completed" v)%nat /\
  (forall t, In t v -> Pd.count_occ_str t v = Pd.count_occ_str "Completed" v ->
             String.leb "Completed" t = true).
Proof.
  pose (total := Pd.to_float (Pd.sum [Pd.mul (Some (Pd.Int64 1)) (Some (Pd.Float64 (10 # 1)));
                                      Pd.mul (Some (Pd.Int64 1)) (Some (Pd.Float64 (10 # 1)))])).
  pose (o := Order.mk 1 1 "2024-01-01" total "Completed").
  pose (its := [OrderItem.mk 1 1 1 (Some (10 # 1)) (Some (Pd.to_float (Pd.mul_cells (Pd.Int64 1) (Pd.Float64 (10 # 1)))));
                OrderItem.mk 1 1 1 (Some (10 # 1)) (Some (Pd.to_float (Pd.mul_cells (Pd.Int64 1) (Pd.Float64 (10 # 1)))))]).
  assert (Ht : transform_sales_to_orders Sample.tied_sales {["C001" := 1]} {["P001" := 1]}
               = Some ([o], its)) by (vm_compute; reflexivity).
  pose proof (order_status_is_smallest_mode _ _ _ _ _ o Ht (or_introl eq_refl))
    as (Hin & _ & _ & Hv).
  cbv zeta. split; [vm_compute; reflexivity|].
  split; [exact Hin|]. apply Hv. vm_compute. discriminate.
Defined.

Lemma sales_lines_origin (sales : list (Z * Sale.t)) (cm pm : gmap string Z) (l : Line.t) :
  In l (sales_lines sales cm pm) ->
  is_Some (Line.db_product_id l) /\ exists r, In r sales /\ Line.sale l = r.2.
Proof.
  unfold sales_lines. intros H0.
  apply in_map_iff in H0 as (l1 & <- & H1). cbn.
  apply filter_In in H1 as [H1 Hf]. apply andb_prop in Hf as [_ Hp].
  apply bool_decide_eq_true in Hp. split; [exact Hp|].
  apply in_map_iff in H1 as (r & <- & Hr). apply filter_In in Hr as [Hr _].
  exists r. auto.
Qed.

(** The loop over the groups runs to its end when every line can be turned
    into an item. *)
Lemma build_orders_total (grouped : list ((Z * string) * list Line.t)) (n : Z) :
  (forall k g l m, In (k, g) grouped -> In l g -> is_Some (make_item m l)) ->
  is_Some (build_orders grouped n).
Proof.
  revert n. induction grouped as [|[[c d] g] rest IH]; intros n Hall; [eexists; reflexivity|].
  cbn [build_orders].
  assert (Hg : is_Some (mapM (make_item n) g)).
  { apply mapM_is_Some, Forall_forall. intros l Hl.
    apply (Hall (c, d) g l n); [left; reflexivity | apply list_elem_of_In, Hl]. }
  destruct Hg as [its ->].
  destruct (IH (n + 1)) as [[os its'] ->]; [|eexists; reflexivity].
  intros k g' l m Hin Hl. apply (Hall k g' l m); [right; exact Hin | exact Hl].
Qed.

(** *** The frame's arithmetic against exact arithmetic *)










(** ** Loader *)

Lemma execute_keeps_session (fault : Db.conn -> Db.stmt -> bool) (c c' : Db.conn)
      (s : Db.stmt) (k : Z) :
  Db.execute fault c s = Some (c', k) ->
  Db.connected c' = Db.connected c /\ Db.committed c' = Db.committed c.
Proof.
  unfold Db.execute. destruct (fault c s); [discriminate|].
  destruct s as [v|v|v|o p q [u|] [sub|]|[]]; try discriminate;
    repeat match goal with
           | |- context [if ?b then _ else _] => destruct b; try discriminate
           end;
    intros [= <- <-]; split; reflexivity.
Qed.

(** The insert loop of a load step, for any table: [tbl] and [ctr] select
    the table and its counter, [row] gives the values bound to the insert. *)
Section InsertLoop.

Context {A K R : Type} `{Countable K}.
Variable fault : Db.conn -> Db.stmt -> bool.
Variable values : A -> Db.stmt.
Variable key : A -> K.
Variable row : A -> R.
Variable tbl : Db.tables -> list (Z * R).
Variable ctr : Db.conn -> Z.

Hypothesis execute_appends : forall c a c' k,
  Db.execute fault c (values a) = Some (c', k) ->
  k = ctr c /\ ctr c' = ctr c + 1 /\
  tbl (Db.pending c') = (tbl (Db.pending c) ++ [(k, row a)])%list.

Lemma insert_rows_raised (c c' : Db.conn) (rows : list A) (m0 : gmap K Z) :
  insert_rows fault values key c rows m0 = Raised c' ->
  Db.connected c' = Db.connected c /\ Db.committed c' = Db.committed c.
Proof.
  revert c m0. induction rows as [|a rows IH]; intros c m0; [discriminate|].
  cbn [insert_rows]. destruct (Db.execute fault c (values a)) as [[c1 k]|] eqn:E.
  - intros Hr. destruct (IH _ _ Hr) as [-> ->].
    exact (execute_keeps_session _ _ _ _ _ E).
  - intros [= <-]. split; reflexivity.
Qed.

Lemma insert_rows_ran (c c' : Db.conn) (rows : list A) (m0 m : gmap K Z) :
  insert_rows fault values key c rows m0 = Ran c' m ->
  Db.connected c' = Db.connected c /\ Db.committed c' = Db.committed c /\
  tbl (Db.pending c')
  = (tbl (Db.pending c) ++ imap (fun i a => (ctr c + Z.of_nat i, row a)) rows)%list /\
  (forall k, ~ In k (List.map key rows) -> m !! k = m0 !! k) /\
  (List.NoDup (List.map key rows) ->
   forall i a, rows !! i = Some a -> m !! key a = Some (ctr c + Z.of_nat i)).
Proof.
  revert c m0. induction rows as [|a rows IH]; intros c m0.
  - intros [= <- <-]. cbn. rewrite app_nil_r. repeat split; auto.
    intros _ i a Hi. destruct i; discriminate.
  - cbn [insert_rows]. destruct (Db.execute fault c (values a)) as [[c1 k]|] eqn:E;
      [|discriminate].
    intros Hr. destruct (IH _ _ Hr) as (Hc & Hm & Ht & Hout & Hin).
    pose proof (execute_keeps_session _ _ _ _ _ E) as [Hc1 Hm1].
    apply execute_appends in E as (-> & Hctr & Htbl).
    split; [congruence|]. split; [congruence|]. split; [|split].
    + rewrite Ht, Htbl, Hctr, <- app_assoc. f_equal. cbn [imap app].
      rewrite Z.add_0_r. f_equal. apply imap_ext. intros i x _. cbn. f_equal. lia.
    + intros k Hk. cbn in Hk. rewrite Hout by tauto.
      apply lookup_insert_ne. tauto.
    + intros Hnd i x Hi. cbn in Hnd. apply NoDup_cons_iff in Hnd as [Hna Hnd].
      destruct i as [|i]; cbn in Hi.
      * injection Hi as <-. rewrite Hout by exact Hna.
        rewrite lookup_insert_eq, Z.add_0_r. reflexivity.
      * rewrite (Hin Hnd i x Hi), Hctr. f_equal. lia.
Qed.

End InsertLoop.

Lemma execute_insert_customer (fault : Db.conn -> Db.stmt -> bool) (c c' : Db.conn)
      (r : Z * Customer.t) (k : Z) :
  Db.execute fault c (Db.InsertCustomer (customer_values r.2)) = Some (c', k) ->
  k = Db.next_customer_id c /\ Db.next_customer_id c' = Db.next_customer_id c + 1 /\
  Db.customers (Db.pending c')
  = (Db.customers (Db.pending c) ++ [(k, customer_values r.2)])%list.
Proof.
  unfold Db.execute. destruct (fault c _); [discriminate|].
  destruct (existsb _ _); [discriminate|]. intros [= <- <-]. auto.
Qed.

Lemma execute_insert_product (fault : Db.conn -> Db.stmt -> bool) (c c' : Db.conn)
      (r : Z * Product.t) (k : Z) :
  Db.execute fault c (Db.InsertProduct (product_values r.2)) = Some (c', k) ->
  k = Db.next_product_id c /\ Db.next_product_id c' = Db.next_product_id c + 1 /\
  Db.products (Db.pending c')
  = (Db.products (Db.pending c) ++ [(k, product_values r.2)])%list.
Proof.
  unfold Db.execute. destruct (fault c _); [discriminate|].
  intros [= <- <-]. auto.
Qed.

(** The loop raises, at the latest, at a row whose insert the store refuses
    in every state. *)
Lemma insert_rows_raises {A K} `{Countable K} (fault : Db.conn -> Db.stmt -> bool)
      (values : A -> Db.stmt) (key : A -> K) (rows : list A) (r : A) :
  In r rows -> (forall c0, Db.execute fault c0 (values r) = None) ->
  forall c m0, exists c', insert_rows fault values key c rows m0 = Raised c'.
Proof.
  intros Hin Hno. induction rows as [|a rows IH]; [destruct Hin|]. intros c m0.
  cbn [insert_rows]. destruct (Db.execute fault c (values a)) as [[c1 k]|] eqn:E; [|eauto].
  destruct Hin as [->|Hin]; [rewrite Hno in E; discriminate|]. apply IH, Hin.
Qed.

(** The customers' loop runs to its end when none of its inserts is refused
    for outside reasons and no email repeats, among the rows and against the
    table. *)
Lemma insert_customers_completes (fault : Db.conn -> Db.stmt -> bool)
      (rows : list (Z * Customer.t)) :
  forall (c : Db.conn) (m0 : gmap string Z),
    (forall c0 r, In r rows ->
                  fault c0 (Db.InsertCustomer (customer_values r.2)) = false) ->
    List.NoDup (List.map (fun r => Db.email r.2) (Db.customers (Db.pending c))
                ++ List.map (fun r => py_str (Customer.email r.2)) rows)%list ->
    exists c1 m,
      insert_rows fault (fun r => Db.InsertCustomer (customer_values r.2))
                  (fun r => py_str (Customer.customer_id r.2)) c rows m0 = Ran c1 m.
Proof.
  induction rows as [|r rows IH]; intros c m0 Hok Hnd; [eexists _, _; reflexivity|].
  cbn [insert_rows]. unfold Db.execute. rewrite (Hok c r) by (left; reflexivity).
  assert (Hfree : existsb (fun x => String.eqb (Db.email x.2)
                                      (Db.email (customer_values r.2)))
                          (Db.customers (Db.pending c)) = false).
  { apply not_true_is_false. intros H0. apply existsb_exists in H0 as (x & Hx & E).
    apply String.eqb_eq in E. cbn [List.map] in Hnd.
    apply NoDup_remove_2 in Hnd. apply Hnd, in_or_app. left.
    apply in_map_iff. exists x. split; [exact E | exact Hx]. }
  rewrite Hfree. apply IH.
  - intros c0 r' Hr'. apply Hok. right. exact Hr'.
  - cbn [Db.pending Db.customers]. rewrite map_app. cbn [List.map snd].
    rewrite <- app_assoc. exact Hnd.
Qed.

(** The customers' loop raises when an email of its rows is already in the
    table or repeats among the rows: the table's UNIQUE key refuses the
    insert. *)
Lemma insert_customers_duplicate (fault : Db.conn -> Db.stmt -> bool)
      (rows : list (Z * Customer.t)) :
  forall (c : Db.conn) (m0 : gmap string Z),
    (exists r, In r rows /\
               In (py_str (Customer.email r.2))
                  (List.map (fun r => Db.email r.2) (Db.customers (Db.pending c)))) \/
    ~ List.NoDup (List.map (fun r => py_str (Customer.email r.2)) rows) ->
    exists c',
      insert_rows fault (fun r => Db.InsertCustomer (customer_values r.2))
                  (fun r => py_str (Customer.customer_id r.2)) c rows m0 = Raised c'.
Proof.
  induction rows as [|a rows IH]; intros c m0 Hd.
  - destruct Hd as [(r & [] & _)|Hd]. exfalso. apply Hd. constructor.
  - cbn [insert_rows].
    destruct (Db.execute fault c (Db.InsertCustomer (customer_values a.2)))
      as [[c1 k]|] eqn:E; [|eauto].
    pose proof E as E'. unfold Db.execute in E'.
    destruct (fault c _); [discriminate|].
    destruct (existsb _ _) eqn:Ex; [discriminate|].
    apply (execute_insert_customer fault c c1 a k) in E as (_ & _ & Ht).
    assert (Hfree : ~ In (py_str (Customer.email a.2))
                         (List.map (fun r => Db.email r.2) (Db.customers (Db.pending c)))).
    { intros Hin. apply in_map_iff in Hin as (x & Hx & Hxin).
      apply not_true_iff_false in Ex. apply Ex. apply existsb_exists.
      exists x. split; [exact Hxin|]. apply String.eqb_eq. exact Hx. }
    apply IH. rewrite Ht, map_app. cbn [List.map snd Db.email customer_values].
    destruct Hd as [(r & [<-|Hr] & Hin)|Hd].
    + contradiction.
    + left. exists r. split; [exact Hr|]. apply in_or_app. left. exact Hin.
    + destruct (in_dec string_dec (py_str (Customer.email a.2))
                       (List.map (fun r => py_str (Customer.email r.2)) rows)) as [Hin|Hout].
      * left. apply in_map_iff in Hin as (r & Hr & Hin).
        exists r. split; [exact Hin|]. apply in_or_app. right. left. symmetry. exact Hr.
      * right. intros Hnd. apply Hd. cbn [List.map]. constructor; assumption.
Qed.

(** The products' loop runs to its end when none of its inserts is refused
    for outside reasons. *)
Lemma insert_products_completes (fault : Db.conn -> Db.stmt -> bool)
      (rows : list (Z * Product.t)) :
  forall (c : Db.conn) (m0 : gmap string Z),
    (forall c0 r, In r rows ->
                  fault c0 (Db.InsertProduct (product_values r.2)) = false) ->
    exists c1 m,
      insert_rows fault (fun r => Db.InsertProduct (product_values r.2))
                  (fun r => py_str (Product.product_id r.2)) c rows m0 = Ran c1 m.
Proof.
  induction rows as [|r rows IH]; intros c m0 Hok; [eexists _, _; reflexivity|].
  cbn [insert_rows]. unfold Db.execute. rewrite (Hok c r) by (left; reflexivity).
  apply IH. intros c0 r' Hr'. apply Hok. right. exact Hr'.
Qed.

Lemma execute_refused (fault : Db.conn -> Db.stmt -> bool) (s : Db.stmt) :
  (forall c0, fault c0 s = true) -> forall c0, Db.execute fault c0 s = None.
Proof. intros Hf c0. unfold Db.execute. rewrite Hf. reflexivity. Qed.

(** C6.  For [load_customers] and [load_products].  Without rows to load or
    without a connection the step touches nothing and returns the empty
    mapping.  Otherwise the loop of the step either raises or runs to its
    end.  If an insert raises, the step returns the empty mapping and leaves
    the tables as they were committed before the step, with nothing pending.
    Otherwise the step commits, the table holds the old rows followed by one
    row per loaded entity under consecutive ids from the counter, and (the
    natural ids being distinct) the mapping sends each entity's natural id to
    the id of its row.  An insert does raise when the store refuses the
    statement of some row in every state and, for customers, when an email of
    the rows is already in the table or repeats among the rows; no insert
    raises when the store refuses none of the step's statements and, for
    customers, no email repeats among the rows and the table. *)
Theorem load_step_rolls_back_or_maps
        (fault : Db.conn -> Db.stmt -> bool) (c : Db.conn) :
  (forall (dc : list (Z * Customer.t)) (dp : list (Z * Product.t)),
      (dc = [] \/ Db.connected c = false -> load_customers fault c dc = (c, ∅)) /\
      (dp = [] \/ Db.connected c = false -> load_products fault c dp = (c, ∅))) /\
  (forall df : list (Z * Customer.t),
      df <> [] -> Db.connected c = true ->
      (forall c1, insert_customers fault c df = Raised c1 ->
         exists c', load_customers fault c df = (c', ∅) /\
                    Db.committed c' = Db.committed c /\ Db.pending c' = Db.committed c) /\
      (forall c1 m1, insert_customers fault c df = Ran c1 m1 ->
         exists c' m, load_customers fault c df = (c', m) /\
           Db.pending c' = Db.committed c' /\
           Db.customers (Db.committed c')
           = (Db.customers (Db.pending c)
              ++ imap (fun i r => (Db.next_customer_id c + Z.of_nat i,
                                   customer_values r.2)) df)%list /\
           (List.NoDup (List.map (fun r => py_str (Customer.customer_id r.2)) df) ->
            forall i r, df !! i = Some r ->
              m !! py_str (Customer.customer_id r.2)
              = Some (Db.next_customer_id c + Z.of_nat i))) /\
      ((exists r, In r df /\
                  forall c0, fault c0 (Db.InsertCustomer (customer_values r.2)) = true) \/
       (exists r, In r df /\
                  In (py_str (Customer.email r.2))
                     (List.map (fun r => Db.email r.2) (Db.customers (Db.pending c)))) \/
       ~ List.NoDup (List.map (fun r => py_str (Customer.email r.2)) df) ->
       exists c1, insert_customers fault c df = Raised c1) /\
      ((forall c0 r, In r df ->
                     fault c0 (Db.InsertCustomer (customer_values r.2)) = false) ->
       List.NoDup (List.map (fun r => Db.email r.2) (Db.customers (Db.pending c))
                   ++ List.map (fun r => py_str (Customer.email r.2)) df)%list ->
       exists c1 m1, insert_customers fault c df = Ran c1 m1)) /\
  (forall df : list (Z * Product.t),
      df <> [] -> Db.connected c = true ->
      (forall c1, insert_products fault c df = Raised c1 ->
         exists c', load_products fault c df = (c', ∅) /\
                    Db.committed c' = Db.committed c /\ Db.pending c' = Db.committed c) /\
      (forall c1 m1, insert_products fault c df = Ran c1 m1 ->
         exists c' m, load_products fault c df = (c', m) /\
           Db.pending c' = Db.committed c' /\
           Db.products (Db.committed c')
           = (Db.products (Db.pending c)
              ++ imap (fun i r => (Db.next_product_id c + Z.of_nat i,
                                   product_values r.2)) df)%list /\
           (List.NoDup (List.map (fun r => py_str (Product.product_id r.2)) df) ->
            forall i r, df !! i = Some r ->
              m !! py_str (Product.product_id r.2)
              = Some (Db.next_product_id c + Z.of_nat i))) /\
      ((exists r, In r df /\
                  forall c0, fault c0 (Db.InsertProduct (product_values r.2)) = true) ->
       exists c1, insert_products fault c df = Raised c1) /\
      ((forall c0 r, In r df ->
                     fault c0 (Db.InsertProduct (product_values r.2)) = false) ->
       exists c1 m1, insert_products fault c df = Ran c1 m1)).
Proof.
  split; [|split; intros df Hdf Hconn].
  - intros dc dp. unfold load_customers, load_products.
    split; (intros [-> | ->]; [reflexivity|]); cbn [negb];
      match goal with |- context [(?n =? 0)%nat] => destruct (n =? 0)%nat end;
      reflexivity.
  - assert (El : (length df =? 0)%nat = false) by (destruct df; [congruence | reflexivity]).
    unfold load_customers. rewrite El, Hconn. cbn [negb]. split; [|split; [|split]].
    + intros c1 E. rewrite E. exists (Db.rollback c1). split; [reflexivity|].
      apply insert_rows_raised in E as [_ E]. cbn. auto.
    + intros c1 m1 E. rewrite E. exists (Db.commit c1), m1. split; [reflexivity|].
      split; [reflexivity|].
      eapply insert_rows_ran in E as (_ & _ & Ht & _ & Hin);
        [|intros; eapply execute_insert_customer; eassumption].
      split; [exact Ht|exact Hin].
    + intros [(r & Hr & Hf)|Hd].
      * apply (insert_rows_raises fault _ _ df r Hr). apply execute_refused, Hf.
      * apply insert_customers_duplicate, Hd.
    + intros Hok Hnd. apply insert_customers_completes; assumption.
  - assert (El : (length df =? 0)%nat = false) by (destruct df; [congruence | reflexivity]).
    unfold load_products. rewrite El, Hconn. cbn [negb]. split; [|split; [|split]].
    + intros c1 E. rewrite E. exists (Db.rollback c1). split; [reflexivity|].
      apply insert_rows_raised in E as [_ E]. cbn. auto.
    + intros c1 m1 E. rewrite E. exists (Db.commit c1), m1. split; [reflexivity|].
      split; [reflexivity|].
      eapply insert_rows_ran in E as (_ & _ & Ht & _ & Hin);
        [|intros; eapply execute_insert_product; eassumption].
      split; [exact Ht|exact Hin].
    + intros (r & Hr & Hf).
      apply (insert_rows_raises fault _ _ df r Hr). apply execute_refused, Hf.
    + intros Hok. apply insert_products_completes, Hok.
Qed.

Lemma load_step_rolls_back_or_maps_witness :
  (exists c', load_customers Sample.no_fault (Db.open_session Sample.fresh_store)
                             (customers_df Sample.shared_email) = (c', ∅) /\
              Db.committed c' = Sample.empty_tables /\
              Db.pending c' = Sample.empty_tables) /\
  (exists c' m, load_customers Sample.no_fault (Db.open_session Sample.fresh_store)
                               (customers_df Sample.two_days) = (c', m) /\
                List.map fst (Db.customers (Db.committed c')) = [1] /\
                m !! "C001" = Some 1) /\
  (exists c' m, load_products Sample.no_fault (Db.open_session Sample.fresh_store)
                              (products_df Sample.two_days) = (c', m) /\
                List.map fst (Db.products (Db.committed c')) = [1] /\
                m !! "P001" = Some 1).
Proof.
  destruct (load_step_rolls_back_or_maps Sample.no_fault
              (Db.open_session Sample.fresh_store)) as (_ & HC & HP).
  split; [|split].
  - destruct (HC (customers_df Sample.shared_email)) as (Hfail & _ & Hraise & _);
      [discriminate | reflexivity |].
    destruct Hraise as [c1 E]; [|exact (Hfail c1 E)].
    right. right. vm_compute. intros Hnd.
    apply NoDup_cons_iff in Hnd as [Hnd _]. apply Hnd. left. reflexivity.
  - destruct (HC (customers_df Sample.two_days)) as (_ & Hok & _ & Hrun);
      [discriminate | reflexivity |].
    destruct Hrun as (c1 & m1 & E).
    { intros c0 r _. reflexivity. }
    { vm_compute. repeat constructor. intros []. }
    destruct (Hok c1 m1 E) as (c' & m & El & _ & Ht & Hm).
    exists c', m. split; [exact El|]. split; [rewrite Ht; reflexivity|].
    refine (Hm _ 0%nat _ eq_refl).
    vm_compute. repeat constructor. intros [].
  - destruct (HP (products_df Sample.two_days)) as (_ & Hok & _ & Hrun);
      [discriminate | reflexivity |].
    destruct Hrun as (c1 & m1 & E).
    { intros c0 r _. reflexivity. }
    destruct (Hok c1 m1 E) as (c' & m & El & _ & Ht & Hm).
    exists c', m. split; [exact El|]. split; [rewrite Ht; reflexivity|].
    refine (Hm _ 0%nat _ eq_refl).
    vm_compute. repeat constructor. intros [].
Defined.

Lemma execute_all_keeps_session (fault : Db.conn -> Db.stmt -> bool)
      (l : list Db.stmt) (c : Db.conn) :
  match execute_all fault c l with
  | Ran c' _ | Raised c' => Db.connected c' = Db.connected c
  end.
Proof.
  revert c. induction l as [|s l IH]; intros c; [reflexivity|].
  cbn [execute_all]. destruct (Db.execute fault c s) as [[c1 k]|] eqn:E; [|reflexivity].
  apply execute_keeps_session in E as [<- _]. apply IH.
Qed.

Lemma clear_existing_data_connected (fault : Db.conn -> Db.stmt -> bool) (c : Db.conn) :
  Db.connected (clear_existing_data fault c) = Db.connected c.
Proof.
  unfold clear_existing_data.
  pose proof (execute_all_keeps_session fault
                [Db.DeleteFrom Db.OrderItems; Db.DeleteFrom Db.Orders;
                 Db.DeleteFrom Db.Customers; Db.DeleteFrom Db.Products] c) as H.
  destruct (execute_all _ _ _); exact H.
Qed.

Lemma load_customers_connected (fault : Db.conn -> Db.stmt -> bool) (c : Db.conn)
      (df : list (Z * Customer.t)) :
  Db.connected (load_customers fault c df).1 = Db.connected c.
Proof.
  unfold load_customers. destruct (length df =? 0)%nat; [reflexivity|].
  destruct (negb (Db.connected c)); [reflexivity|].
  destruct (insert_customers fault c df) as [c' m|c'] eqn:E; cbn.
  - unfold insert_customers in E.
    eapply insert_rows_ran in E as (-> & _);
      [reflexivity | intros; eapply execute_insert_customer; eassumption].
  - apply insert_rows_raised in E as [-> _]. reflexivity.
Qed.

Lemma load_products_connected (fault : Db.conn -> Db.stmt -> bool) (c : Db.conn)
      (df : list (Z * Product.t)) :
  Db.connected (load_products fault c df).1 = Db.connected c.
Proof.
  unfold load_products. destruct (length df =? 0)%nat; [reflexivity|].
  destruct (negb (Db.connected c)); [reflexivity|].
  destruct (insert_products fault c df) as [c' m|c'] eqn:E; cbn.
  - unfold insert_products in E.
    eapply insert_rows_ran in E as (-> & _);
      [reflexivity | intros; eapply execute_insert_product; eassumption].
  - apply insert_rows_raised in E as [-> _]. reflexivity.
Qed.

Lemma raised_nonempty {A K} `{Countable K} (fault : Db.conn -> Db.stmt -> bool)
      (values : A -> Db.stmt) (key : A -> K) (c c' : Db.conn) (rows : list A)
      (m0 : gmap K Z) :
  insert_rows fault values key c rows m0 = Raised c' -> (length rows =? 0)%nat = false.
Proof. destruct rows; [discriminate | reflexivity]. Qed.

(** With an empty customer or product mapping no sales line survives, and
    the aggregator returns no order and no item. *)
Lemma transform_sales_to_orders_no_mapping (sales : list (Z * Sale.t))
      (cm pm : gmap string Z) :
  cm = ∅ \/ pm = ∅ -> transform_sales_to_orders sales cm pm = Some ([], []).
Proof.
  intros Hm. unfold transform_sales_to_orders.
  destruct (length sales =? 0)%nat; [reflexivity|].
  assert (E : sales_lines sales cm pm = []); [|rewrite E; reflexivity].
  unfold sales_lines.
  match goal with
  | |- List.map _ (List.filter ?f ?l) = [] => rewrite (filter_none f l); [reflexivity|]
  end.
  intros l Hl. apply in_map_iff in Hl as (r & <- & _). cbn.
  assert (Hnone : forall k, map_ids ∅ k = None)
    by (intros [[k|k]|]; [apply lookup_empty | reflexivity | reflexivity]).
  destruct Hm as [-> | ->]; rewrite Hnone.
  - reflexivity.
  - apply andb_false_r.
Qed.

Lemma rewrite_order_ids_no_mapping (items : list OrderItem.t) :
  rewrite_order_ids ∅ items = [].
Proof.
  unfold rewrite_order_ids, Pd.dropna.
  rewrite filter_none; [reflexivity|].
  intros [o r] H. apply in_map_iff in H as (r' & [= <- <-] & _).
  rewrite lookup_empty. reflexivity.
Qed.

(** C5, counterexample.  Two customers share an email: the second insert of
    [load_customers] raises and the step is rolled back, yet [load] goes on
    and [load_products] persists the product. *)
Lemma load_does_not_halt :
  ~ spec_load_halts Sample.no_fault Sample.fresh_store Sample.shared_email.
Proof.
  unfold spec_load_halts. intros H.
  edestruct H as (c_end & Hload & Hsame); [vm_compute; reflexivity|].
  vm_compute in Hload. injection Hload as <-. discriminate Hsame.
Qed.

(** An aggregator that produces an order produces an item. *)
Lemma transform_sales_to_orders_items (sales : list (Z * Sale.t)) (cm pm : gmap string Z)
      (orders : list Order.t) (items : list OrderItem.t) :
  transform_sales_to_orders sales cm pm = Some (orders, items) ->
  orders <> [] -> (0 <? length items)%nat = true.
Proof.
  unfold transform_sales_to_orders. intros H Hne.
  destruct (length sales =? 0)%nat; [injection H as <- <-; contradiction|].
  destruct orders as [|o os]; [contradiction|].
  destruct (build_orders_order _ _ _ _ o H (or_introl eq_refl)) as (k & g & Hg & _ & Hits).
  apply groupby_group in Hg as [_ Hg].
  apply mapM_Some, Forall2_length in Hits.
  destruct items as [|it items]; [|reflexivity].
  destruct g; [contradiction | discriminate].
Qed.

Lemma load_orders_nothing (fault : Db.conn -> Db.stmt -> bool) (c : Db.conn) :
  load_orders fault c [] = (c, None).
Proof. reflexivity. Qed.

(** C5, as amended.  A failed load step does not stop the load phase: the
    step is rolled back, what was committed before it stays, and [load] goes
    on to call the methods after it, up to the verification and the closing
    of the connection.  After a failed [load_customers] or [load_products]
    the aggregator, given the empty mapping, returns no order and no item:
    [load_orders] is called and returns at once, [load_order_items] is not
    called; [load] ends with what [load_products] left (it is run on the
    rolled-back state) or with the rolled-back state.  After a failed
    [load_orders], [load_order_items] is called, on a frame the empty mapping
    has emptied, and [load] ends with the rolled-back state. *)
Theorem failed_step_does_not_halt_load
        (fault : Db.conn -> Db.stmt -> bool) (c : Db.conn) (self : pipeline) :
  let c1 := clear_existing_data fault (Db.open_session c) in
  (forall c', insert_customers fault c1 (customers_df self) = Raised c' ->
     load_customers fault c1 (customers_df self) = (Db.rollback c', ∅) /\
     (forall pm, transform_sales_to_orders (sales_df self) ∅ pm = Some ([], [])) /\
     load_calls fault true c self
     = [LoadCustomers; LoadProducts; TransformSalesToOrders; LoadOrders;
        VerifyDataLoaded; CloseConnection] /\
     load fault true c self
     = Finished (Db.close (load_products fault (Db.rollback c') (products_df self)).1) /\
     Db.committed (Db.rollback c') = Db.committed c1) /\
  (forall c2 cm c',
     load_customers fault c1 (customers_df self) = (c2, cm) ->
     insert_products fault c2 (products_df self) = Raised c' ->
     load_products fault c2 (products_df self) = (Db.rollback c', ∅) /\
     transform_sales_to_orders (sales_df self) cm ∅ = Some ([], []) /\
     load_calls fault true c self
     = [LoadCustomers; LoadProducts; TransformSalesToOrders; LoadOrders;
        VerifyDataLoaded; CloseConnection] /\
     load fault true c self = Finished (Db.close (Db.rollback c')) /\
     Db.committed (Db.rollback c') = Db.committed c2) /\
  (forall c2 cm c3 pm orders items c',
     load_customers fault c1 (customers_df self) = (c2, cm) ->
     load_products fault c2 (products_df self) = (c3, pm) ->
     transform_sales_to_orders (sales_df self) cm pm = Some (orders, items) ->
     insert_orders fault c3 orders = Raised c' ->
     load_orders fault c3 orders = (Db.rollback c', Some ∅) /\
     items <> [] /\ rewrite_order_ids ∅ items = [] /\
     load_calls fault true c self
     = [LoadCustomers; LoadProducts; TransformSalesToOrders; LoadOrders;
        LoadOrderItems; VerifyDataLoaded; CloseConnection] /\
     load fault true c self = Finished (Db.close (Db.rollback c')) /\
     Db.committed (Db.rollback c') = Db.committed c3).
Proof.
  intros c1.
  assert (Hconn : Db.connected c1 = true) by apply clear_existing_data_connected.
  split; [|split].
  - intros c' E.
    assert (El : load_customers fault c1 (customers_df self) = (Db.rollback c', ∅)).
    { unfold load_customers. rewrite (raised_nonempty _ _ _ _ _ _ _ E), Hconn, E.
      reflexivity. }
    assert (Ht : forall pm, transform_sales_to_orders (sales_df self) ∅ pm = Some ([], []))
      by (intros pm; apply transform_sales_to_orders_no_mapping; left; reflexivity).
    split; [exact El|]. split; [exact Ht|].
    pose proof (load_products_connected fault (Db.rollback c') (products_df self)) as Hc3.
    pose proof (insert_rows_raised _ _ _ _ _ _ _ E) as [Hc' Hm'].
    unfold load, load_calls. cbn [negb]. fold c1. rewrite El.
    destruct (load_products fault (Db.rollback c') (products_df self)) as [c3 pm] eqn:Ep.
    rewrite Ht, load_orders_nothing. cbn [length Nat.ltb Nat.leb fst] in Hc3 |- *.
    cbn [Db.rollback Db.connected] in Hc3. rewrite Hc3, Hc', Hconn.
    split; [reflexivity|]. split; [reflexivity|]. exact Hm'.
  - intros c2 cm c' Ec E.
    assert (Hconn2 : Db.connected c2 = true).
    { pose proof (load_customers_connected fault c1 (customers_df self)) as Hc.
      rewrite Ec in Hc. cbn in Hc. congruence. }
    assert (El : load_products fault c2 (products_df self) = (Db.rollback c', ∅)).
    { unfold load_products. rewrite (raised_nonempty _ _ _ _ _ _ _ E), Hconn2, E.
      reflexivity. }
    assert (Ht : transform_sales_to_orders (sales_df self) cm ∅ = Some ([], []))
      by (apply transform_sales_to_orders_no_mapping; right; reflexivity).
    split; [exact El|]. split; [exact Ht|].
    pose proof (insert_rows_raised _ _ _ _ _ _ _ E) as [Hc' Hm'].
    unfold load, load_calls. cbn [negb]. fold c1. rewrite Ec, El, Ht, load_orders_nothing.
    cbn [length Nat.ltb Nat.leb Db.rollback Db.connected]. rewrite Hc', Hconn2.
    split; [reflexivity|]. split; [reflexivity|]. exact Hm'.
  - intros c2 cm c3 pm orders items c' Ec Ep Et E.
    assert (Hconn3 : Db.connected c3 = true).
    { pose proof (load_customers_connected fault c1 (customers_df self)) as Hc.
      pose proof (load_products_connected fault c2 (products_df self)) as Hp.
      rewrite Ec in Hc. rewrite Ep in Hp. cbn in Hc, Hp. congruence. }
    assert (El : load_orders fault c3 orders = (Db.rollback c', Some ∅)).
    { unfold load_orders. rewrite (raised_nonempty _ _ _ _ _ _ _ E), Hconn3, E.
      reflexivity. }
    assert (Hitems : (0 <? length items)%nat = true).
    { apply (transform_sales_to_orders_items _ _ _ _ _ Et).
      intros ->. discriminate E. }
    split; [exact El|].
    split; [intros ->; discriminate Hitems|].
    split; [apply rewrite_order_ids_no_mapping|].
    pose proof (insert_rows_raised _ _ _ _ _ _ _ E) as [Hc' Hm'].
    unfold load, load_calls. cbn [negb]. fold c1. rewrite Ec, Ep, Et, El, Hitems.
    rewrite rewrite_order_ids_no_mapping.
    cbn [load_order_items length Nat.eqb Db.rollback Db.connected]. rewrite Hc', Hconn3.
    split; [reflexivity|]. split; [reflexivity|]. exact Hm'.
Qed.

Lemma failed_step_does_not_halt_load_witness :
  (load_calls Sample.no_fault true Sample.fresh_store Sample.shared_email
   = [LoadCustomers; LoadProducts; TransformSalesToOrders; LoadOrders;
      VerifyDataLoaded; CloseConnection] /\
   exists c_end,
     load Sample.no_fault true Sample.fresh_store Sample.shared_email = Finished c_end /\
     Db.customers (Db.committed c_end) = [] /\
     List.map fst (Db.products (Db.committed c_end)) = [1] /\
     Db.orders (Db.committed c_end) = []) /\
  (load_calls Sample.no_orders true Sample.fresh_store Sample.two_days
   = [LoadCustomers; LoadProducts; TransformSalesToOrders; LoadOrders;
      LoadOrderItems; VerifyDataLoaded; CloseConnection] /\
   exists c_end,
     load Sample.no_orders true Sample.fresh_store Sample.two_days = Finished c_end /\
     List.map fst (Db.customers (Db.committed c_end)) = [1] /\
     List.map fst (Db.products (Db.committed c_end)) = [1] /\
     Db.orders (Db.committed c_end) = [] /\
     Db.order_items (Db.committed c_end) = []).
Proof.
  split.
  - destruct (failed_step_does_not_halt_load Sample.no_fault Sample.fresh_store
                Sample.shared_email) as (H1 & _).
    edestruct H1 as (_ & _ & Hcalls & Hload & _); [vm_compute; reflexivity|].
    split; [exact Hcalls|].
    eexists. split; [exact Hload|]. vm_compute. auto.
  - destruct (failed_step_does_not_halt_load Sample.no_orders Sample.fresh_store
                Sample.two_days) as (_ & _ & H3).
    edestruct H3 as (_ & _ & _ & Hcalls & Hload & _);
      [vm_compute; reflexivity | vm_compute; reflexivity | vm_compute; reflexivity
       | vm_compute; reflexivity |].
    split; [exact Hcalls|].
    eexists. split; [exact Hload|]. vm_compute. auto.
Defined.

(** ** Product cleansing *)

Lemma lookup_map {A B} (f : A -> B) (l : list A) (i : nat) :
  List.map f l !! i = f <$> l !! i.
Proof. exact (list_lookup_fmap f l i). Qed.

Lemma length_sort {A} (leb : A -> A -> bool) (l : list A) :
  length (Pd.sort leb l) = length l.
Proof.
  induction l as [|a l IH]; [reflexivity|]. cbn [Pd.sort foldr length].
  fold (Pd.sort leb l). rewrite <- IH. generalize (Pd.sort leb l) as s.
  induction s as [|b s IHs]; [reflexivity|].
  cbn [Pd.insert_sorted]. destruct (leb a b); cbn [length]; congruence.
Qed.


Lemma medians_fold_lookup (F : string -> option Q) (l : list Product.t) (c : string) :
  foldr (fun r m => match Product.category r with
                    | Some c => <[c := F c]> m
                    | None => m
                    end) (∅ : gmap string (option Q)) l !! c
  = if decide (Some c ∈ List.map Product.category l) then Some (F c) else None.
Proof.
  induction l as [|r l IH]; cbn [foldr List.map].
  - rewrite lookup_empty. destruct (decide _) as [H0|_]; [inversion H0 | reflexivity].
  - destruct (Product.category r) as [c'|] eqn:Ec.
    + destruct (decide (c' = c)) as [->|Hne].
      * rewrite lookup_insert_eq. rewrite decide_True by (left). reflexivity.
      * rewrite lookup_insert_ne by exact Hne. rewrite IH.
        destruct (decide (Some c ∈ List.map Product.category l)) as [H0|H0].
        -- rewrite decide_True by (right; exact H0). reflexivity.
        -- rewrite decide_False; [reflexivity|].
           intros H'. apply elem_of_cons in H' as [[= ->]|H']; [congruence | auto].
    + rewrite IH.
      destruct (decide (Some c ∈ List.map Product.category l)) as [H0|H0].
      * rewrite decide_True by (right; exact H0). reflexivity.
      * rewrite decide_False; [reflexivity|].
        intros H'. apply elem_of_cons in H' as [[=]|H']; auto.
Qed.

Lemma category_medians_lookup (df : list Product.t) (c : string) :
  category_medians df !! c
  = if decide (Some c ∈ List.map Product.category df)
    then Some (Pd.median (prices_of_category c df)) else None.
Proof.
  exact (medians_fold_lookup (fun c => Pd.median (prices_of_category c df)) df c).
Qed.

(** The value chosen for a row of the frame, spelled out. *)
Lemma fill_value_cases (df tbl : list Product.t) (row : Product.t) :
  In row df ->
  fill_value (category_medians df) tbl row
  = match Product.category row with
    | Some c =>
      match Pd.median (prices_of_category c df) with
      | Some m => Some m
      | None => Pd.median (List.map Product.price tbl)
      end
    | None => Pd.median (List.map Product.price tbl)
    end.
Proof.
  intros Hin. unfold fill_value. destruct (Product.category row) as [c|] eqn:Ec;
    [|reflexivity].
  cbn [mbind option_bind]. rewrite category_medians_lookup.
  rewrite decide_True; [reflexivity|].
  apply list_elem_of_In, in_map_iff. exists row. auto.
Qed.

Lemma increasing_filter_seq (f : nat -> bool) (a n : nat) :
  increasing (List.filter f (seq a n)).
Proof.
  revert a. induction n as [|n IH]; intros a; [exact I|].
  cbn [seq List.filter]. destruct (f a); [|apply IH].
  split; [|apply IH]. intros j Hj. apply filter_In in Hj as [Hj _].
  apply in_seq in Hj. lia.
Qed.

Lemma take_agree {A} (l1 l2 : list A) (n : nat) :
  (forall k, (k < n)%nat -> l1 !! k = l2 !! k) -> take n l1 = take n l2.
Proof.
  intros H0. apply list_eq. intros k. destruct (decide (k < n)%nat) as [Hk|Hk].
  - rewrite !lookup_take_lt by exact Hk. apply H0, Hk.
  - rewrite !lookup_take_ge by lia. reflexivity.
Qed.

Section FillLoop.

Variable medians : gmap string (option Q).

Lemma fill_price_at_length (cur : list Product.t) (i : nat) :
  length (fill_price_at medians cur i) = length cur.
Proof. unfold fill_price_at. destruct (cur !! i); [apply length_insert | reflexivity]. Qed.

Lemma fill_price_at_other (cur : list Product.t) (i j : nat) :
  i <> j -> fill_price_at medians cur i !! j = cur !! j.
Proof.
  intros Hne. unfold fill_price_at.
  destruct (cur !! i); [apply list_lookup_insert_ne, Hne | reflexivity].
Qed.

Lemma fill_price_at_same (cur : list Product.t) (i : nat) (row : Product.t) :
  cur !! i = Some row ->
  fill_price_at medians cur i !! i
  = Some (set_price (fill_value medians cur row) row).
Proof.
  intros Hi. unfold fill_price_at. rewrite Hi.
  apply list_lookup_insert_eq. apply lookup_lt_is_Some. eauto.
Qed.

Lemma fill_price_at_drop (cur : list Product.t) (i n : nat) :
  (i < n)%nat -> drop n (fill_price_at medians cur i) = drop n cur.
Proof.
  intros Hlt. unfold fill_price_at.
  destruct (cur !! i); [apply drop_insert_lt, Hlt | reflexivity].
Qed.

(** The fill loop over increasing positions: rows outside the positions are
    untouched; a row at one of the positions gets the value chosen on the
    frame as it stands when its turn comes, that is with the rows before it
    in their final state and the rows from it on still as they were. *)
Lemma fill_loop (idxs : list nat) :
  increasing idxs ->
  forall cur : list Product.t,
    let final := fold_left (fill_price_at medians) idxs cur in
    length final = length cur /\
    (forall j, ~ In j idxs -> final !! j = cur !! j) /\
    (forall j row, In j idxs -> cur !! j = Some row ->
       final !! j
       = Some (set_price (fill_value medians (take j final ++ drop j cur) row) row)).
Proof.
  induction idxs as [|i rest IH]; intros Hinc cur; cbn [fold_left].
  - split; [reflexivity|]. split; [reflexivity|]. intros j row [].
  - destruct Hinc as [Hlt Hinc].
    destruct (IH Hinc (fill_price_at medians cur i)) as (La & Lb & Lc).
    set (final := fold_left (fill_price_at medians) rest (fill_price_at medians cur i)) in *.
    assert (Hi : ~ In i rest) by (intros Hi; specialize (Hlt i Hi); lia).
    split; [rewrite La; apply fill_price_at_length|]. split.
    + intros j Hj. cbn in Hj. rewrite Lb by tauto.
      apply fill_price_at_other. intros ->. tauto.
    + intros j row [<-|Hj] Hrow.
      * rewrite (Lb i Hi), (fill_price_at_same _ _ _ Hrow).
        assert (E : take i final = take i cur).
        { apply take_agree. intros k Hk.
          rewrite Lb by (intros Hkr; specialize (Hlt k Hkr); lia).
          apply fill_price_at_other. lia. }
        rewrite E, take_drop. reflexivity.
      * specialize (Hlt j Hj).
        rewrite (Lc j row Hj) by (rewrite fill_price_at_other by lia; exact Hrow).
        rewrite fill_price_at_drop by exact Hlt. reflexivity.
Qed.

End FillLoop.

Lemma In_missing_price_rows (df : list Product.t) (j : nat) :
  In j (missing_price_rows df) <->
  exists r, df !! j = Some r /\ Product.price r = None.
Proof.
  unfold missing_price_rows. rewrite filter_In, in_seq, bool_decide_eq_true. split.
  - intros [[_ Hj] Hp]. destruct (lookup_lt_is_Some_2 df j) as [r Hr]; [lia|].
    exists r. rewrite Hr in Hp. auto.
  - intros (r & Hr & Hp). split.
    + split; [lia|]. apply (lookup_lt_is_Some_1 df j). eauto.
    + rewrite Hr. exact Hp.
Qed.

(** [fill_missing_prices] is the fill loop in both branches of its guard. *)
Lemma fill_missing_prices_loop (df : list Product.t) :
  fill_missing_prices df
  = fold_left (fill_price_at (category_medians df)) (missing_price_rows df) df.
Proof.
  unfold fill_missing_prices.
  destruct (0 <? Pd.count_na Product.price df)%nat eqn:E; [reflexivity|].
  assert (Hnil : missing_price_rows df = []); [|rewrite Hnil; reflexivity].
  destruct (missing_price_rows df) as [|j rest] eqn:Ej; [reflexivity|]. exfalso.
  assert (Hj : In j (missing_price_rows df)) by (rewrite Ej; left; reflexivity).
  apply In_missing_price_rows in Hj as (r & Hr & Hp).
  destruct (count_na_zero _ _ E r) as [p Hsome]; [|congruence].
  apply list_elem_of_In, list_elem_of_lookup. eauto.
Qed.

(** What [fill_missing_prices] does to the row at position [i]. *)
Lemma fill_missing_prices_row (df : list Product.t) (i : nat) (r : Product.t) :
  df !! i = Some r ->
  let filled := fill_missing_prices df in
  length filled = length df /\
  exists p, filled !! i = Some (set_price p r) /\
    (forall q, Product.price r = Some q -> p = Some q) /\
    (Product.price r = None ->
     p = fill_value (category_medians df) (take i filled ++ drop i df) r).
Proof.
  intros Hr. cbv zeta. rewrite fill_missing_prices_loop.
  destruct (fill_loop (category_medians df) (missing_price_rows df)
              (increasing_filter_seq _ _ _) df) as (La & Lb & Lc).
  split; [exact La|].
  destruct (Product.price r) as [q|] eqn:Ep.
  - exists (Some q). rewrite Lb.
    + split; [|split; [congruence | discriminate]].
      rewrite Hr. destruct r. cbn in Ep. subst. reflexivity.
    + intros Hj. apply In_missing_price_rows in Hj as (r' & Hr' & Hp'). congruence.
  - eexists. split; [|split; [discriminate | reflexivity]].
    apply Lc; [|exact Hr]. apply In_missing_price_rows. eauto.
Qed.

Lemma length_fill_missing_prices (df : list Product.t) :
  length (fill_missing_prices df) = length df.
Proof.
  rewrite fill_missing_prices_loop.
  apply (fill_loop (category_medians df) (missing_price_rows df)
                   (increasing_filter_seq _ _ _) df).
Qed.

(** The cleansed product at position [i] is the deduplicated row at [i] with
    its surrogate key, its category standardized, its stock defaulted to 0
    and its price taken from [fill_missing_prices]. *)
Lemma transform_products_row (raw : list Product.t) (i : nat) (id : Z) (r' : Product.t) :
  transform_products raw !! i = Some (id, r') ->
  exists r p,
    Pd.drop_duplicates Product.product_id raw !! i = Some r /\
    fill_missing_prices (Pd.drop_duplicates Product.product_id raw) !! i
    = Some (set_price p r) /\
    id = Z.of_nat i + 1 /\
    r' = Product.mk (Product.product_id r) (Product.product_name r)
                    (standardize_category (Product.category r)) p
                    (Some (default 0 (Product.stock_quantity r))).
Proof.
  unfold transform_products, Pd.add_surrogate_key.
  set (df := Pd.drop_duplicates Product.product_id raw).
  set (filled := fill_missing_prices df).
  rewrite list_lookup_imap, lookup_map.
  intros Hout.
  destruct (df !! i) as [r|] eqn:Hr.
  - destruct (fill_missing_prices_row df i r Hr) as (_ & p & Hf & _).
    fold filled in Hf. exists r, p. split; [reflexivity|]. split; [exact Hf|].
    destruct (0 <? Pd.count_na Product.stock_quantity filled)%nat eqn:Ec.
    + rewrite lookup_map, Hf in Hout. cbn in Hout. injection Hout as <- <-.
      split; reflexivity.
    + rewrite Hf in Hout. cbn in Hout. injection Hout as <- <-.
      split; [reflexivity|].
      destruct (count_na_zero _ _ Ec (set_price p r)) as [s Hs].
      { apply list_elem_of_In, list_elem_of_lookup. eauto. }
      cbn in Hs. unfold clean_category, set_price. cbn. rewrite Hs. reflexivity.
  - exfalso. apply lookup_ge_None in Hr.
    assert (Hnone : filled !! i = None).
    { apply lookup_ge_None. unfold filled. rewrite length_fill_missing_prices. exact Hr. }
    destruct (0 <? Pd.count_na Product.stock_quantity filled)%nat;
      [rewrite lookup_map in Hout|]; rewrite Hnone in Hout; discriminate.
Qed.


(** The cleansed product at position [i], field by field. *)
Lemma cleansed_product_fill (raw : list Product.t) (i : nat) (id : Z) (r' : Product.t) :
  let df := Pd.drop_duplicates Product.product_id raw in
  transform_products raw !! i = Some (id, r') ->
  exists r,
    df !! i = Some r /\
    Product.category r' = standardize_category (Product.category r) /\
    Product.stock_quantity r' = Some (default 0 (Product.stock_quantity r)) /\
    (forall q, Product.price r = Some q -> Product.price r' = Some q) /\
    (Product.price r = None ->
     Product.price r'
     = match Product.category r with
       | Some c =>
         match Pd.median (prices_of_category c df) with
         | Some m => Some m
         | None => Pd.median (List.map Product.price
                                (take i (fill_missing_prices df) ++ drop i df))
         end
       | None => Pd.median (List.map Product.price
                              (take i (fill_missing_prices df) ++ drop i df))
       end).
Proof.
  intros df Hout.
  destruct (transform_products_row raw i id r' Hout) as (r & p & Hr & Hf & _ & ->).
  fold df in Hr, Hf.
  destruct (fill_missing_prices_row df i r Hr) as (_ & p' & Hf' & Hsome & Hnone).
  rewrite Hf in Hf'. injection Hf' as <-.
  assert (Hin : In r df) by (apply list_elem_of_In, list_elem_of_lookup; eauto).
  exists r. cbn [Product.price Product.stock_quantity Product.category].
  split; [exact Hr|]. split; [reflexivity|]. split; [reflexivity|].
  split; [exact Hsome|].
  intros Hp. rewrite (Hnone Hp). apply fill_value_cases, Hin.
Qed.



(** After a row the loop has filled, the fallback is no longer the median of
    the prices of the file: of the two priced rows at 10 and 100, whose median
    is 55, the row without a category gets 10. *)
Lemma fallback_sees_filled_prices :
  List.map (fun r => Product.price r.2) (transform_products Prices.filled_before)
  = [Some (10 # 1); Some (10 # 1); Some (10 # 1); Some (100 # 1)] /\
  Pd.median (List.map Product.price
               (Pd.drop_duplicates Product.product_id Prices.filled_before))
  = Some (110 # 2).
Proof. split; vm_compute; reflexivity. Qed.



(** C10.  The median that fills a missing price is taken over the records
    whose raw category is exactly the record's own: the labels are
    standardized only afterwards.  On the sample, "electronics" and
    "Electronics" standardize to one label, yet the "electronics" row is
    filled with 100, the median of the "electronics" prices alone. *)
Theorem category_median_uses_raw_labels :
  (forall (raw : list Product.t) (i : nat) (id : Z) (r' : Product.t),
      let df := Pd.drop_duplicates Product.product_id raw in
      transform_products raw !! i = Some (id, r') ->
      exists r,
        df !! i = Some r /\
        Product.category r' = standardize_category (Product.category r) /\
        forall c m,
          Product.price r = None -> Product.category r = Some c ->
          Pd.median (List.map Product.price
                       (List.filter (fun x => bool_decide (Product.category x = Some c)) df))
          = Some m ->
          Product.price r' = Some m) /\
  standardize_category (Some "electronics") = standardize_category (Some "Electronics") /\
  standardize_category (Some " ELECTRONICS ") = standardize_category (Some "Electronics") /\
  List.map (fun r => (Product.category r.2, Product.price r.2))
           (transform_products Sample.mixed_case)
  = [(Some "Electronics", Some (100 # 1)); (Some "Electronics", Some (300 # 1));
     (Some "Electronics", Some (100 # 1))].
Proof.
  split; [|split; [reflexivity | split; [reflexivity | vm_compute; reflexivity]]].
  intros raw i id r' df Hout.
  destruct (cleansed_product_fill raw i id r' Hout) as (r & Hr & Hcat & _ & _ & Hfill).
  exists r. split; [exact Hr|]. split; [exact Hcat|].
  intros c m Hp Hc Hm. rewrite (Hfill Hp), Hc.
  unfold prices_of_category. fold df. rewrite Hm. reflexivity.
Qed.

Lemma category_median_uses_raw_labels_witness :
  exists r,
    Pd.drop_duplicates Product.product_id Sample.mixed_case !! 2%nat = Some r /\
    Product.category r = Some "electronics" /\
    standardize_category (Product.category r) = Some "Electronics".
Proof.
  destruct category_median_uses_raw_labels as (H & _).
  destruct (H Sample.mixed_case 2%nat 3
              (Product.mk (Some "P3") (Some "P3") (Some "Electronics") (Some (100 # 1))
                          (Some 1)))
    as (r & Hr & Hcat & Hfill).
  - vm_compute. reflexivity.
  - exists r. split; [exact Hr|].
    split; [vm_compute in Hr; injection Hr as <-; reflexivity|].
    symmetry. exact Hcat.
Defined.

(** * Further properties of the code *)

(** ** Phone numbers: the shape of the result *)

Lemma length_digits_only (s : string) :
  (String.length (Text.digits_only s) <= String.length s)%nat.
Proof.
  induction s as [|c s IH]; [reflexivity|]. cbn [Text.digits_only].
  destruct (Text.is_digit c); cbn [String.length]; lia.
Qed.

Lemma digits_only_cons (c : ascii) (s : string) :
  Text.digits_only (String c s) = String c s ->
  Text.is_digit c = true /\ Text.digits_only s = s.
Proof.
  cbn [Text.digits_only]. destruct (Text.is_digit c).
  - intros [= E]. auto.
  - intros E. pose proof (length_digits_only s) as Hle.
    rewrite E in Hle. cbn [String.length] in Hle. lia.
Qed.

Lemma digits_only_idempotent (s : string) :
  Text.digits_only (Text.digits_only s) = Text.digits_only s.
Proof.
  induction s as [|c s IH]; [reflexivity|]. cbn [Text.digits_only].
  destruct (Text.is_digit c) eqn:E; [|exact IH].
  cbn [Text.digits_only]. rewrite E, IH. reflexivity.
Qed.

Lemma digits_only_drop (n : nat) (d : string) :
  Text.digits_only d = d -> Text.digits_only (Text.drop n d) = Text.drop n d.
Proof.
  revert d. induction n as [|n IH]; intros d Hd; [exact Hd|].
  destruct d as [|c d]; [reflexivity|].
  apply digits_only_cons in Hd as [_ Hd]. cbn [Text.drop]. apply IH, Hd.
Qed.

(** Every result of [standardize_phone] is "+91-" followed by ten digits. *)
Lemma standardize_phone_shape (x : option string) (y : string) :
  standardize_phone x = Some y ->
  exists d, y = "+91-" ++ d /\ String.length d = 10%nat /\ Text.digits_only d = d.
Proof.
  destruct x as [raw|]; [|discriminate]. unfold standardize_phone.
  destruct (String.eqb raw ""); [discriminate|].
  set (d := Text.digits_only raw).
  assert (Hd : Text.digits_only d = d) by apply digits_only_idempotent.
  destruct (Nat.eqb_spec (String.length d) 10) as [E10|_].
  { intros [= <-]. exists d. auto. }
  destruct (Nat.eqb_spec (String.length d) 12) as [E12|_]; cbn [andb].
  - destruct (Text.startswith "91" d).
    + intros [= <-]. exists (Text.drop 2 d).
      split; [reflexivity|]. split; [rewrite length_drop; lia | apply digits_only_drop, Hd].
    + destruct (Nat.eqb_spec (String.length d) 11); [lia|]. cbn [andb].
      destruct (Nat.leb_spec 10 (String.length d)); [|discriminate].
      intros [= <-]. exists (Text.last_n 10 d). unfold Text.last_n.
      split; [reflexivity|]. split; [rewrite length_drop; lia | apply digits_only_drop, Hd].
  - destruct ((String.length d =? 11)%nat && Text.startswith "0" d) eqn:E11.
    + apply andb_prop in E11 as [E11 _]. apply Nat.eqb_eq in E11.
      intros [= <-]. exists (Text.drop 1 d).
      split; [reflexivity|]. split; [rewrite length_drop; lia | apply digits_only_drop, Hd].
    + destruct (Nat.leb_spec 10 (String.length d)); [|discriminate].
      intros [= <-]. exists (Text.last_n 10 d). unfold Text.last_n.
      split; [reflexivity|]. split; [rewrite length_drop; lia | apply digits_only_drop, Hd].
Qed.

(** X1.  Whenever [standardize_phone] returns a number, the number is "+91-"
    followed by exactly ten digits: fourteen characters in all. *)
Theorem standardize_phone_result_format (x : option string) (y : string) :
  standardize_phone x = Some y ->
  String.length y = 14%nat /\
  exists d, y = "+91-" ++ d /\ String.length d = 10%nat /\ Text.digits_only d = d.
Proof.
  intros H0. destruct (standardize_phone_shape x y H0) as (d & -> & Hl & Hd).
  split; [|exists d; auto].
  rewrite !app_String. cbn [String.length].
  change ("" ++ d) with d. rewrite Hl. reflexivity.
Qed.

Lemma standardize_phone_result_format_witness :
  String.length "+91-9876543210" = 14%nat /\
  exists d, "+91-9876543210" = "+91-" ++ d /\ String.length d = 10%nat /\
            Text.digits_only d = d.
Proof.
  apply (standardize_phone_result_format (Some "(0) 98765-43210")). reflexivity.
Defined.

(** X2.  [standardize_phone] is idempotent on its own output: a number it
    returned is returned unchanged when it is given back (the "91" of the
    prefix is recognised and dropped). *)
Theorem standardize_phone_idempotent (x : option string) (y : string) :
  standardize_phone x = Some y -> standardize_phone (Some y) = Some y.
Proof.
  intros H0. destruct (standardize_phone_shape x y H0) as (d & -> & Hl & Hd).
  unfold standardize_phone.
  assert (E : Text.digits_only ("+91-" ++ d) = String "9" (String "1" d)).
  { rewrite !app_String. change ("" ++ d) with d. cbn. rewrite Hd. reflexivity. }
  rewrite E. cbn [String.length]. rewrite Hl.
  assert (Hp : Text.startswith "91" (String "9" (String "1" d)) = true)
    by (destruct d; reflexivity).
  rewrite Hp. reflexivity.
Qed.

Lemma standardize_phone_idempotent_witness :
  standardize_phone (Some "+91-9876543210") = Some "+91-9876543210".
Proof.
  apply (standardize_phone_idempotent (Some "098765 43210")). reflexivity.
Defined.

(** ** Dates: the shape of the result *)

Lemma length_pad2 (n : nat) : String.length (PyDate.pad2 n) = 2%nat.
Proof. reflexivity. Qed.

Lemma length_app (a b : string) :
  String.length (a ++ b) = (String.length a + String.length b)%nat.
Proof. induction a as [|x a IH]; [reflexivity|]. rewrite app_String. cbn. rewrite IH. reflexivity. Qed.

(** The year takes as many characters as it has digits. *)
Lemma length_strftime (d : PyDate.date) :
  String.length (PyDate.strftime d)
  = (6 + if (PyDate.year d <? 10)%nat then 1
         else if (PyDate.year d <? 100)%nat then 2
         else if (PyDate.year d <? 1000)%nat then 3 else 4)%nat.
Proof.
  unfold PyDate.strftime. rewrite !length_app, !length_pad2. unfold PyDate.unpadded.
  destruct (PyDate.year d <? 10)%nat; [reflexivity|].
  destruct (PyDate.year d <? 100)%nat; [reflexivity|].
  destruct (PyDate.year d <? 1000)%nat; reflexivity.
Qed.

(** X3.  Whenever [standardize_date] returns a date, it is the text
    year-month-day of a date that exists in the calendar (month 1 to 12, day
    within the month, leap years observed, year 1 to 9999): the day and the
    month are never out of range, whatever the format that matched.  Month
    and day are on two digits; the year is not padded, so the text has the
    ten characters of YYYY-MM-DD exactly when the year is 1000 or later, and
    between seven and nine for an earlier year. *)
Theorem standardize_date_result_is_calendar_date (x : option string) (y : string) :
  standardize_date x = Some y ->
  exists d, y = PyDate.strftime d /\
            (1 <= PyDate.month d <= 12)%nat /\
            (1 <= PyDate.day d <= PyDate.days_in_month (PyDate.year d) (PyDate.month d))%nat /\
            (1 <= PyDate.year d)%nat /\ (PyDate.year d < 10 * 1000)%nat /\
            (String.length y = 10%nat <-> (1000 <= PyDate.year d)%nat) /\
            (7 <= String.length y <= 10)%nat.
Proof.
  intros H0. destruct x as [s|]; [|discriminate]. unfold standardize_date in H0.
  destruct (String.eqb s ""); [discriminate|].
  apply try_formats_sound in H0 as (d & Hv & ->).
  exists d. split; [reflexivity|].
  pose proof (valid_bounds d Hv) as (Hy & _ & _).
  unfold PyDate.valid in Hv. repeat (apply andb_prop in Hv as [Hv ?]).
  repeat match goal with
         | H : (_ <=? _)%nat = true |- _ => apply Nat.leb_le in H
         end.
  rewrite length_strftime.
  destruct (Nat.ltb_spec (PyDate.year d) 10); [lia|].
  destruct (Nat.ltb_spec (PyDate.year d) 100); [lia|].
  destruct (Nat.ltb_spec (PyDate.year d) 1000); lia.
Qed.

Lemma standardize_date_result_is_calendar_date_witness :
  exists d, "999-02-28" = PyDate.strftime d /\
            (1 <= PyDate.month d <= 12)%nat /\
            (1 <= PyDate.day d <= PyDate.days_in_month (PyDate.year d) (PyDate.month d))%nat /\
            (1 <= PyDate.year d)%nat /\ (PyDate.year d < 10 * 1000)%nat /\
            (String.length "999-02-28" = 10%nat <-> (1000 <= PyDate.year d)%nat) /\
            (7 <= String.length "999-02-28" <= 10)%nat.
Proof.
  apply (standardize_date_result_is_calendar_date (Some "28/02/0999")). reflexivity.
Defined.

(** X23.  [standardize_date] is idempotent on every date it returns in ten
    characters, that is, on every date of the year 1000 or later: given its
    own output, it returns it unchanged. *)
Theorem standardize_date_idempotent_on_ten_characters (x : option string) (y : string) :
  standardize_date x = Some y ->
  String.length y = 10%nat ->
  standardize_date (Some y) = Some y.
Proof.
  intros H0 Hlen. destruct x as [s|]; [|discriminate]. unfold standardize_date in H0.
  destruct (String.eqb s ""); [discriminate|].
  apply try_formats_sound in H0 as (d & Hv & ->).
  apply standardize_date_fixed; [exact Hv|].
  rewrite length_strftime in Hlen.
  destruct (Nat.ltb_spec (PyDate.year d) 10); [lia|].
  destruct (Nat.ltb_spec (PyDate.year d) 100); [lia|].
  destruct (Nat.ltb_spec (PyDate.year d) 1000); lia.
Qed.

Lemma standardize_date_idempotent_on_ten_characters_witness :
  standardize_date (Some "2024-01-15") = Some "2024-01-15".
Proof.
  apply (standardize_date_idempotent_on_ten_characters (Some "15/01/2024"));
    reflexivity.
Defined.

(** ** Dates: which format reads an ambiguous text *)

Section DatePrecedence.

Import PyDate.

Lemma re_match_dir (g : group) (fmt : list token) (s r r' : string) (v : nat)
      (l : list (nat * string)) (gs : list (group * nat)) :
  alts g s = (v, r) :: l -> re_match fmt r = Some (gs, r') ->
  re_match (Dir g :: fmt) s = Some ((g, v) :: gs, r').
Proof. intros Ha Hr. cbn [re_match]. rewrite Ha. cbn [first_some]. rewrite Hr. reflexivity. Qed.

Lemma re_match_lit (c : ascii) (fmt : list token) (r : string) :
  re_match (Lit c :: fmt) (String c "" ++ r) = re_match fmt r.
Proof.
  change (String c "" ++ r) with (String c r). cbn [re_match].
  rewrite Ascii.eqb_refl. reflexivity.
Qed.

Lemma alts_month_pad2 (m : nat) (r : string) :
  (1 <= m <= 12)%nat -> exists l, alts gm (pad2 m ++ r) = (m, r) :: l.
Proof.
  intros Hm. assert (Em : In m (seq 1 12)) by (apply in_seq; lia).
  cbn [seq In] in Em. enumerate Em; eexists; reflexivity.
Qed.

Lemma alts_day_pad2 (d : nat) (r : string) :
  (1 <= d <= 31)%nat -> exists l, alts gd (pad2 d ++ r) = (d, r) :: l.
Proof.
  intros Hd. assert (Ed : In d (seq 1 31)) by (apply in_seq; lia).
  cbn [seq In] in Ed. enumerate Ed; eexists; reflexivity.
Qed.

Lemma re_match_year_end (y : nat) :
  (y < 10 * 1000)%nat -> re_match [Dir gY] (pad4 y) = Some ([(gY, y)], "").
Proof.
  intros Hy. change (pad4 y) with (pad4 y ++ "").
  eapply re_match_dir; [apply alts_year, Hy | reflexivity].
Qed.

(** A text whose third character is not a digit is not a [%Y-%m-%d] date. *)
Lemma strptime_Ymd_third (c1 c2 sep : ascii) (r : string) :
  Text.is_digit sep = false ->
  strptime (String c1 (String c2 (String sep r))) fmt_Ymd = None.
Proof.
  intros Hsep. unfold strptime, fmt_Ymd. cbn [re_match alts].
  destruct r as [|c4 r]; [reflexivity|].
  rewrite Hsep, andb_false_r. reflexivity.
Qed.

(** The separator after the first field decides between the dash and the
    slash formats. *)
Lemma wrong_separator (a : nat) (r : string) (fmt : list token) :
  (1 <= a <= 31)%nat ->
  re_match (Dir gd :: Lit "/" :: fmt) (pad2 a ++ "-" ++ r) = None /\
  re_match (Dir gm :: Lit "-" :: fmt) (pad2 a ++ "/" ++ r) = None /\
  re_match (Dir gd :: Lit "-" :: fmt) (pad2 a ++ "/" ++ r) = None.
Proof.
  intros Ha. assert (Ea : In a (seq 1 31)) by (apply in_seq; lia).
  cbn [seq In] in Ea. enumerate Ea; repeat split; reflexivity.
Qed.

(** A first field above 12 is not a month. *)
Lemma not_a_month (a : nat) (r : string) (fmt : list token) :
  (13 <= a <= 31)%nat ->
  re_match (Dir gm :: Lit "-" :: fmt) (pad2 a ++ "-" ++ r) = None /\
  re_match (Dir gm :: Lit "/" :: fmt) (pad2 a ++ "/" ++ r) = None.
Proof.
  intros Ha. assert (Ea : In a (seq 13 19)) by (apply in_seq; lia).
  cbn [seq In] in Ea. enumerate Ea; split; reflexivity.
Qed.

End DatePrecedence.

Section DateReading.

Import PyDate.

Lemma re_match_three (g1 g2 : group) (sep : ascii) (v1 v2 y : nat) :
  (forall r, exists l, alts g1 (pad2 v1 ++ r) = (v1, r) :: l) ->
  (forall r, exists l, alts g2 (pad2 v2 ++ r) = (v2, r) :: l) ->
  (y < 10 * 1000)%nat ->
  re_match [Dir g1; Lit sep; Dir g2; Lit sep; Dir gY]
           (pad2 v1 ++ String sep "" ++ pad2 v2 ++ String sep "" ++ pad4 y)
  = Some ([(g1, v1); (g2, v2); (gY, y)], "").
Proof.
  intros H1 H2 Hy.
  destruct (H1 (String sep "" ++ pad2 v2 ++ String sep "" ++ pad4 y)) as [l1 E1].
  destruct (H2 (String sep "" ++ pad4 y)) as [l2 E2].
  eapply re_match_dir; [exact E1|]. rewrite re_match_lit.
  eapply re_match_dir; [exact E2|]. rewrite re_match_lit.
  apply re_match_year_end, Hy.
Qed.

(** Two-digit day or month, separator, two digits, separator, four-digit
    year: such a text is left alone by [strip] and is not empty. *)
Lemma strip_three_fields (a b y : nat) (sep : ascii) :
  Text.strip (pad2 a ++ String sep "" ++ pad2 b ++ String sep "" ++ pad4 y)
  = pad2 a ++ String sep "" ++ pad2 b ++ String sep "" ++ pad4 y.
Proof.
  unfold Text.strip.
  assert (L : Text.lstrip (pad2 a ++ String sep "" ++ pad2 b ++ String sep "" ++ pad4 y)
              = pad2 a ++ String sep "" ++ pad2 b ++ String sep "" ++ pad4 y).
  { unfold pad2 at 1. rewrite app_String. cbn [Text.lstrip].
    rewrite digit_char_not_space by apply mod10_lt. reflexivity. }
  rewrite L.
  change (pad2 a ++ String sep "" ++ pad2 b ++ String sep "" ++ pad4 y)
    with ((pad2 a ++ String sep "" ++ pad2 b ++ String sep ""
           ++ String (digit_char (y / 1000 mod 10))
                (String (digit_char (y / 100 mod 10))
                   (String (digit_char (y / 10 mod 10)) "")))
          ++ String (digit_char (y mod 10)) "").
  apply rstrip_snoc, digit_char_not_space, mod10_lt.
Qed.

Lemma standardize_date_three_fields (a b y : nat) (sep : ascii) :
  standardize_date (Some (pad2 a ++ String sep "" ++ pad2 b ++ String sep "" ++ pad4 y))
  = try_formats (pad2 a ++ String sep "" ++ pad2 b ++ String sep "" ++ pad4 y)
                date_formats.
Proof. unfold standardize_date. rewrite strip_three_fields. reflexivity. Qed.

Lemma not_Ymd (a b y : nat) (sep : ascii) :
  Text.is_digit sep = false ->
  strptime (pad2 a ++ String sep "" ++ pad2 b ++ String sep "" ++ pad4 y) fmt_Ymd = None.
Proof. intros Hsep. exact (strptime_Ymd_third _ _ sep _ Hsep). Qed.

(** A slash text whose second field is above 12 is not day/month/year. *)
Lemma not_day_month_slash (m d : nat) (r : string) :
  (1 <= m <= 12)%nat -> (13 <= d <= 31)%nat ->
  re_match fmt_dmY_slash (pad2 m ++ "/" ++ pad2 d ++ "/" ++ r) = None.
Proof.
  intros Hm Hd.
  assert (Em : In m (seq 1 12)) by (apply in_seq; lia).
  assert (Ed : In d (seq 13 19)) by (apply in_seq; lia).
  cbn [seq In] in Em, Ed. enumerate Em; enumerate Ed; reflexivity.
Qed.

Lemma valid_fields (y m d : nat) :
  valid (mkdate y m d) = true ->
  (y < 10 * 1000 /\ 1 <= m <= 12 /\ 1 <= d <= 31)%nat.
Proof. intros Hv. exact (valid_bounds _ Hv). Qed.

End DateReading.

(** X4.  With dashes, month comes first: MM-DD-YYYY is read as month, day,
    year whenever that is a date of the calendar, so a text such as
    03-04-2023, which both dash formats fit, is the 4th of March; a text
    DD-MM-YYYY is read day first only when its first field is above 12. *)
Theorem dash_date_reads_month_first (y m d : nat) :
  PyDate.valid (PyDate.mkdate y m d) = true ->
  standardize_date
    (Some (PyDate.pad2 m ++ "-" ++ PyDate.pad2 d ++ "-" ++ PyDate.pad4 y))
  = Some (PyDate.strftime (PyDate.mkdate y m d)) /\
  ((12 < d)%nat ->
   standardize_date
     (Some (PyDate.pad2 d ++ "-" ++ PyDate.pad2 m ++ "-" ++ PyDate.pad4 y))
   = Some (PyDate.strftime (PyDate.mkdate y m d))).
Proof.
  intros Hv. destruct (valid_fields y m d Hv) as (Hy & Hm & Hd). split.
  - rewrite standardize_date_three_fields. unfold date_formats. cbn [try_formats].
    rewrite not_Ymd by reflexivity.
    unfold PyDate.strptime at 1. unfold PyDate.fmt_dmY_slash.
    rewrite (proj1 (wrong_separator m _ _ ltac:(lia))).
    unfold PyDate.strptime, PyDate.fmt_mdY.
    rewrite (re_match_three PyDate.gm PyDate.gd "-" m d y)
      by (first [intros r; apply alts_month_pad2, Hm
                |intros r; apply alts_day_pad2, Hd | exact Hy]).
    cbn [PyDate.found PyDate.group_eqb]. rewrite Hv. reflexivity.
  - intros H12. rewrite standardize_date_three_fields. unfold date_formats.
    cbn [try_formats]. rewrite not_Ymd by reflexivity.
    unfold PyDate.strptime at 1. unfold PyDate.fmt_dmY_slash.
    rewrite (proj1 (wrong_separator d _ _ ltac:(lia))).
    unfold PyDate.strptime at 1. unfold PyDate.fmt_mdY.
    rewrite (proj1 (not_a_month d _ _ ltac:(lia))).
    unfold PyDate.strptime, PyDate.fmt_dmY.
    rewrite (re_match_three PyDate.gd PyDate.gm "-" d m y)
      by (first [intros r; apply alts_month_pad2, Hm
                |intros r; apply alts_day_pad2, Hd | exact Hy]).
    cbn [PyDate.found PyDate.group_eqb]. rewrite Hv. reflexivity.
Qed.

Lemma dash_date_reads_month_first_witness :
  standardize_date (Some "03-04-2023") = Some "2023-03-04" /\
  standardize_date (Some "15-04-2023") = Some "2023-04-15".
Proof.
  split.
  - exact (proj1 (dash_date_reads_month_first 2023 3 4 eq_refl)).
  - exact (proj2 (dash_date_reads_month_first 2023 4 15 eq_refl) ltac:(lia)).
Defined.

(** X5.  With slashes, day comes first: DD/MM/YYYY is read as day, month,
    year whenever that is a date of the calendar, so 03/04/2023 is the 3rd of
    April (the opposite of the dash reading); a text MM/DD/YYYY is read month
    first only when its second field is above 12. *)
Theorem slash_date_reads_day_first (y m d : nat) :
  PyDate.valid (PyDate.mkdate y m d) = true ->
  standardize_date
    (Some (PyDate.pad2 d ++ "/" ++ PyDate.pad2 m ++ "/" ++ PyDate.pad4 y))
  = Some (PyDate.strftime (PyDate.mkdate y m d)) /\
  ((12 < d)%nat ->
   standardize_date
     (Some (PyDate.pad2 m ++ "/" ++ PyDate.pad2 d ++ "/" ++ PyDate.pad4 y))
   = Some (PyDate.strftime (PyDate.mkdate y m d))).
Proof.
  intros Hv. destruct (valid_fields y m d Hv) as (Hy & Hm & Hd). split.
  - rewrite standardize_date_three_fields. unfold date_formats. cbn [try_formats].
    rewrite not_Ymd by reflexivity.
    unfold PyDate.strptime, PyDate.fmt_dmY_slash.
    rewrite (re_match_three PyDate.gd PyDate.gm "/" d m y)
      by (first [intros r; apply alts_month_pad2, Hm
                |intros r; apply alts_day_pad2, Hd | exact Hy]).
    cbn [PyDate.found PyDate.group_eqb]. rewrite Hv. reflexivity.
  - intros H12. rewrite standardize_date_three_fields. unfold date_formats.
    cbn [try_formats]. rewrite not_Ymd by reflexivity.
    unfold PyDate.strptime at 1.
    rewrite (not_day_month_slash m d _ Hm ltac:(lia)).
    unfold PyDate.strptime at 1. unfold PyDate.fmt_mdY.
    rewrite (proj1 (proj2 (wrong_separator m _ _ ltac:(lia)))).
    unfold PyDate.strptime at 1. unfold PyDate.fmt_dmY.
    rewrite (proj2 (proj2 (wrong_separator m _ _ ltac:(lia)))).
    unfold PyDate.strptime, PyDate.fmt_mdY_slash.
    rewrite (re_match_three PyDate.gm PyDate.gd "/" m d y)
      by (first [intros r; apply alts_month_pad2, Hm
                |intros r; apply alts_day_pad2, Hd | exact Hy]).
    cbn [PyDate.found PyDate.group_eqb]. rewrite Hv. reflexivity.
Qed.

Lemma slash_date_reads_day_first_witness :
  standardize_date (Some "03/04/2023") = Some "2023-04-03" /\
  standardize_date (Some "02/22/2024") = Some "2024-02-22".
Proof.
  split.
  - exact (proj1 (slash_date_reads_day_first 2023 4 3 eq_refl)).
  - exact (proj2 (slash_date_reads_day_first 2024 2 22 eq_refl) ltac:(lia)).
Defined.

(** ** Deduplication and surrogate keys *)

Section DropDuplicates.

Context {A K : Type} `{EqDecision K}.
Variable key : A -> K.

Lemma drop_duplicates_from_In (seen : list K) (l : list A) (r : A) :
  In r (Pd.drop_duplicates_from key seen l) <->
  exists pre post, l = (pre ++ r :: post)%list /\
                   (key r ∉ seen) /\ (key r ∉ List.map key pre).
Proof.
  revert seen. induction l as [|a l IH]; intros seen; cbn [Pd.drop_duplicates_from].
  - split; [intros [] | intros (pre & post & E & _)]. destruct pre; discriminate.
  - destruct (decide (key a ∈ seen)) as [Hs|Hs].
    + rewrite IH. split.
      * intros (pre & post & -> & H1 & H2). exists (a :: pre), post.
        split; [reflexivity|]. split; [exact H1|].
        cbn [List.map]. apply not_elem_of_cons. split; [|exact H2].
        intros E. apply H1. rewrite E. exact Hs.
      * intros (pre & post & E & H1 & H2). destruct pre as [|a' pre]; cbn in E.
        -- injection E as <- <-. contradiction.
        -- injection E as <- ->. exists pre, post. split; [reflexivity|].
           split; [exact H1|]. cbn [List.map] in H2.
           apply not_elem_of_cons in H2 as [_ H2]. exact H2.
    + cbn [In]. rewrite IH. split.
      * intros [->|(pre & post & -> & H1 & H2)].
        -- exists [], l. split; [reflexivity|]. split; [exact Hs|]. apply not_elem_of_nil.
        -- apply not_elem_of_cons in H1 as [H1 H1'].
           exists (a :: pre), post. split; [reflexivity|]. split; [exact H1'|].
           cbn [List.map]. apply not_elem_of_cons. auto.
      * intros (pre & post & E & H1 & H2). destruct pre as [|a' pre]; cbn in E.
        -- injection E as <- <-. left. reflexivity.
        -- injection E as <- ->. right. exists pre, post. split; [reflexivity|].
           cbn [List.map] in H2. apply not_elem_of_cons in H2 as [H2 H2'].
           split; [apply not_elem_of_cons; auto | exact H2'].
Qed.

Lemma drop_duplicates_from_NoDup (seen : list K) (l : list A) :
  List.NoDup (List.map key (Pd.drop_duplicates_from key seen l)).
Proof.
  revert seen. induction l as [|a l IH]; intros seen; cbn [Pd.drop_duplicates_from].
  - constructor.
  - destruct (decide (key a ∈ seen)); [apply IH|].
    cbn. constructor; [|apply IH].
    intros H'. apply in_map_iff in H' as (r & Hk & Hr).
    apply drop_duplicates_from_In in Hr as (_ & _ & _ & Hs & _).
    apply Hs. rewrite Hk. left.
Qed.

Lemma drop_duplicates_from_keys (seen : list K) (l : list A) (r : A) :
  In r l -> key r ∉ seen ->
  exists r', In r' (Pd.drop_duplicates_from key seen l) /\ key r' = key r.
Proof.
  revert seen. induction l as [|a l IH]; intros seen; [intros []|].
  cbn [Pd.drop_duplicates_from]. intros Hr Hs.
  destruct (decide (key a ∈ seen)) as [Ha|Ha].
  - destruct Hr as [->|Hr]; [contradiction | apply IH; assumption].
  - destruct (decide (key r = key a)) as [E|E].
    + exists a. split; [left; reflexivity | congruence].
    + destruct Hr as [->|Hr]; [congruence|].
      destruct (IH (key a :: seen) Hr) as (r' & Hr' & Hk').
      { apply not_elem_of_cons. auto. }
      exists r'. split; [right; exact Hr' | exact Hk'].
Qed.

(** A row is kept exactly when no earlier row has its key. *)
Lemma drop_duplicates_In (l : list A) (r : A) :
  In r (Pd.drop_duplicates key l) <->
  exists pre post, l = (pre ++ r :: post)%list /\ key r ∉ List.map key pre.
Proof.
  unfold Pd.drop_duplicates. rewrite drop_duplicates_from_In. split.
  - intros (pre & post & E & _ & H2). eauto.
  - intros (pre & post & E & H2). exists pre, post. split; [exact E|].
    split; [apply not_elem_of_nil | exact H2].
Qed.

Lemma drop_duplicates_NoDup (l : list A) :
  List.NoDup (List.map key (Pd.drop_duplicates key l)).
Proof. apply drop_duplicates_from_NoDup. Qed.

(** No key is lost: every row has a kept row with its key. *)
Lemma drop_duplicates_keys (l : list A) (r : A) :
  In r l -> exists r', In r' (Pd.drop_duplicates key l) /\ key r' = key r.
Proof. intros Hr. apply drop_duplicates_from_keys; [exact Hr | apply not_elem_of_nil]. Qed.

End DropDuplicates.

Lemma map_fst_add_surrogate_key {A} (l : list A) :
  List.map fst (Pd.add_surrogate_key l)
  = List.map (fun i => Z.of_nat i + 1) (seq 0 (length l)).
Proof.
  apply list_eq. intros i. unfold Pd.add_surrogate_key.
  rewrite !lookup_map, list_lookup_imap.
  destruct (l !! i) as [r|] eqn:Hi.
  - rewrite lookup_seq_lt by (apply lookup_lt_Some in Hi; exact Hi). reflexivity.
  - rewrite lookup_seq_ge by (apply lookup_ge_None in Hi; exact Hi). reflexivity.
Qed.

Lemma map_snd_add_surrogate_key {A} (l : list A) :
  List.map snd (Pd.add_surrogate_key l) = l.
Proof.
  apply list_eq. intros i. unfold Pd.add_surrogate_key.
  rewrite lookup_map, list_lookup_imap. destruct (l !! i); reflexivity.
Qed.

Lemma length_add_surrogate_key {A} (l : list A) :
  length (Pd.add_surrogate_key l) = length l.
Proof. unfold Pd.add_surrogate_key. apply length_imap. Qed.





Lemma NoDup_map_filter {A B} (f : A -> B) (p : A -> bool) (l : list A) :
  List.NoDup (List.map f l) -> List.NoDup (List.map f (List.filter p l)).
Proof.
  induction l as [|a l IH]; [intros; constructor|].
  cbn. intros Hnd. apply NoDup_cons_iff in Hnd as [Ha Hnd].
  destruct (p a); [|apply IH, Hnd]. cbn. constructor; [|apply IH, Hnd].
  intros H0. apply Ha. apply in_map_iff in H0 as (x & Hx & Hin).
  apply filter_In in Hin as [Hin _]. rewrite <- Hx. apply in_map, Hin.
Qed.

Lemma In_dropna {A B} (col : A -> option B) (df : list A) (r : A) :
  In r (Pd.dropna col df) <-> In r df /\ is_Some (col r).
Proof. unfold Pd.dropna. rewrite filter_In, bool_decide_eq_true. reflexivity. Qed.

Lemma standardize_date_sound (x : option string) (y : string) :
  standardize_date x = Some y ->
  exists d, PyDate.valid d = true /\ y = PyDate.strftime d.
Proof.
  destruct x as [s|]; [|discriminate]. unfold standardize_date.
  destruct (String.eqb s ""); [discriminate|]. apply try_formats_sound.
Qed.

(** The rows of the cleansed sales frame. *)
Lemma transform_sales_rows (raw : list Sale.t) (y : Sale.t) :
  In y (List.map snd (transform_sales raw)) <->
  is_Some (Sale.transaction_date y) /\
  exists r, In r (Pd.drop_duplicates Sale.transaction_id raw) /\
            is_Some (Sale.customer_id r) /\ is_Some (Sale.product_id r) /\
            y = clean_sale_date r.
Proof.
  unfold transform_sales. rewrite map_snd_add_surrogate_key, In_dropna, in_map_iff.
  split.
  - intros [(r & <- & Hr) Hd]. split; [exact Hd|].
    apply In_dropna in Hr as [Hr Hp]. apply In_dropna in Hr as [Hr Hc]. eauto.
  - intros [Hd (r & Hr & Hc & Hp & ->)]. split; [|exact Hd].
    exists r. split; [reflexivity|]. apply In_dropna. split; [|exact Hp].
    apply In_dropna. auto.
Qed.

(** X7.  Sales cleansing: surrogate keys are 1, 2, ..., N in row order and
    transaction ids are distinct; every surviving line has a customer id, a
    product id and a transaction date that is a calendar date written
    YYYY-MM-DD, and is a raw row with nothing but its date rewritten; and a
    raw row survives when it is the first with its transaction id, has both
    ids and a date that some format reads (a later duplicate of a dropped
    row does not take its place). *)
Theorem transform_sales_survivors (raw : list Sale.t) :
  let out := transform_sales raw in
  List.map fst out = List.map (fun i => Z.of_nat i + 1) (seq 0 (length out)) /\
  List.NoDup (List.map (fun x => Sale.transaction_id x.2) out) /\
  (forall x, In x out ->
     is_Some (Sale.customer_id x.2) /\ is_Some (Sale.product_id x.2) /\
     (exists d, PyDate.valid d = true /\
                Sale.transaction_date x.2 = Some (PyDate.strftime d)) /\
     exists pre r post,
       raw = (pre ++ r :: post)%list /\
       (Sale.transaction_id r ∉ List.map Sale.transaction_id pre) /\
       x.2 = clean_sale_date r) /\
  (forall pre r post,
      raw = (pre ++ r :: post)%list ->
      Sale.transaction_id r ∉ List.map Sale.transaction_id pre ->
      is_Some (Sale.customer_id r) -> is_Some (Sale.product_id r) ->
      is_Some (standardize_date (Sale.transaction_date r)) ->
      exists x, In x out /\ x.2 = clean_sale_date r).
Proof.
  intros out. split; [|split; [|split]].
  - unfold out at 1 2. unfold transform_sales.
    rewrite map_fst_add_surrogate_key, length_add_surrogate_key. reflexivity.
  - rewrite <- (List.map_map snd Sale.transaction_id). unfold out, transform_sales.
    rewrite map_snd_add_surrogate_key. unfold Pd.dropna at 1.
    apply NoDup_map_filter. rewrite List.map_map. cbn [clean_sale_date Sale.transaction_id].
    unfold Pd.dropna. do 2 apply NoDup_map_filter. apply drop_duplicates_NoDup.
  - intros x Hx. apply (in_map snd) in Hx.
    apply transform_sales_rows in Hx as [[dt Hd] (r & Hr & Hc & Hp & Hxr)].
    rewrite Hxr in *. cbn [clean_sale_date Sale.customer_id Sale.product_id
                            Sale.transaction_date] in *.
    split; [exact Hc|]. split; [exact Hp|]. split.
    + destruct (standardize_date_sound _ _ Hd) as (d & Hv & ->). eauto.
    + apply drop_duplicates_In in Hr as (pre & post & E & Hfirst). eauto 6.
  - intros pre r post E Hfirst Hc Hp Hd.
    assert (Hy : In (clean_sale_date r) (List.map snd out)).
    { apply transform_sales_rows. split; [exact Hd|]. exists r.
      split; [apply drop_duplicates_In; eauto | auto]. }
    apply in_map_iff in Hy as (x & Hx & Hin). eauto.
Qed.

Lemma transform_sales_survivors_witness :
  exists x, In x (transform_sales
                    [Sample.sale "T001" 3 "01/02/2024" "Pending";
                     Sample.sale "T001" 1 "2024-01-02" "Pending"]) /\
            x.2 = clean_sale_date (Sample.sale "T001" 3 "01/02/2024" "Pending").
Proof.
  destruct (transform_sales_survivors
              [Sample.sale "T001" 3 "01/02/2024" "Pending";
               Sample.sale "T001" 1 "2024-01-02" "Pending"]) as (_ & _ & _ & H0).
  apply (H0 [] (Sample.sale "T001" 3 "01/02/2024" "Pending")
            [Sample.sale "T001" 1 "2024-01-02" "Pending"] eq_refl).
  - apply not_elem_of_nil.
  - eexists; reflexivity.
  - eexists; reflexivity.
  - eexists; reflexivity.
Defined.

(** ** Loader: clearing the tables *)

(** X8.  The purge at the head of [load] is all or nothing and leaves no
    transaction open: afterwards the committed tables are either all empty
    or exactly the committed tables from before (when one of the four deletes
    raised and the purge was rolled back); they are all empty when no delete
    is refused.  The AUTO_INCREMENT counters are the same in both cases, so a
    rerun does not start its ids at 1 again. *)
Theorem clear_existing_data_all_or_nothing
        (fault : Db.conn -> Db.stmt -> bool) (c : Db.conn) :
  let c' := clear_existing_data fault c in
  Db.pending c' = Db.committed c' /\
  same_counters c c' /\
  (Db.committed c' = Db.mk_tables [] [] [] [] \/ Db.committed c' = Db.committed c) /\
  ((forall c0 t, fault c0 (Db.DeleteFrom t) = false) ->
   Db.committed c' = Db.mk_tables [] [] [] []).
Proof.
  cbv zeta. unfold clear_existing_data, execute_all, Db.execute.
  destruct (fault c (Db.DeleteFrom Db.OrderItems)) eqn:E1.
  { repeat split; auto. intros Hf. rewrite Hf in E1. discriminate. }
  match goal with |- context [fault ?c1 (Db.DeleteFrom Db.Orders)] =>
    destruct (fault c1 (Db.DeleteFrom Db.Orders)) eqn:E2 end.
  { repeat split; auto. intros Hf. rewrite Hf in E2. discriminate. }
  match goal with |- context [fault ?c1 (Db.DeleteFrom Db.Customers)] =>
    destruct (fault c1 (Db.DeleteFrom Db.Customers)) eqn:E3 end.
  { repeat split; auto. intros Hf. rewrite Hf in E3. discriminate. }
  match goal with |- context [fault ?c1 (Db.DeleteFrom Db.Products)] =>
    destruct (fault c1 (Db.DeleteFrom Db.Products)) eqn:E4 end.
  { repeat split; auto. intros Hf. rewrite Hf in E4. discriminate. }
  repeat split; auto.
Qed.

Lemma clear_existing_data_all_or_nothing_witness :
  Db.committed (clear_existing_data Sample.no_fault Sample.used_store)
  = Db.mk_tables [] [] [] [] /\
  Db.next_order_id (clear_existing_data Sample.no_fault Sample.used_store) = 2.
Proof.
  destruct (clear_existing_data_all_or_nothing Sample.no_fault Sample.used_store)
    as (_ & (_ & _ & Hn & _) & _ & Hall).
  split; [apply Hall; reflexivity | exact Hn].
Defined.

(** ** Loader: order items *)

Lemma execute_insert_order_item (fault : Db.conn -> Db.stmt -> bool) (c c' : Db.conn)
      (o p q k : Z) (u sub : option Q) :
  Db.execute fault c (Db.InsertOrderItem o p q u sub) = Some (c', k) ->
  exists u' sub',
    u = Some u' /\ sub = Some sub' /\
    Db.next_order_item_id c' = Db.next_order_item_id c + 1 /\
    Db.order_items (Db.pending c')
    = (Db.order_items (Db.pending c)
       ++ [(Db.next_order_item_id c, Db.mk_order_item o p q u' sub')])%list.
Proof.
  unfold Db.execute. destruct (fault c _); [discriminate|].
  destruct u as [u'|], sub as [sub'|]; try discriminate.
  destruct (_ || _); [discriminate|]. intros [= <- <-]. eauto 6.
Qed.

Lemma numbered_cons {R} (n : Z) (r : R) (rows : list R) :
  numbered n (r :: rows) = (n, r) :: numbered (n + 1) rows.
Proof.
  unfold numbered. cbn [imap]. rewrite Z.add_0_r. f_equal.
  apply imap_ext. intros i x _. cbn. f_equal. lia.
Qed.

Lemma insert_order_items_raised (fault : Db.conn -> Db.stmt -> bool)
      (items : list OrderItem.t) (m : gmap Z Z) (c c' : Db.conn) :
  insert_order_items fault c items m = Raised c' ->
  Db.connected c' = Db.connected c /\ Db.committed c' = Db.committed c.
Proof.
  revert c. induction items as [|it items IH]; intros c; [discriminate|].
  cbn [insert_order_items]. destruct (m !! OrderItem.order_id it); [|apply IH].
  destruct (Db.execute fault c _) as [[c1 k]|] eqn:E.
  - intros Hr. destruct (IH _ Hr) as [-> ->].
    exact (execute_keeps_session _ _ _ _ _ E).
  - intros [= <-]. auto.
Qed.

Lemma insert_order_items_ran (fault : Db.conn -> Db.stmt -> bool)
      (items : list OrderItem.t) (m : gmap Z Z) (c c' : Db.conn) :
  insert_order_items fault c items m = Ran c' tt ->
  Db.committed c' = Db.committed c /\
  Db.order_items (Db.pending c')
  = (Db.order_items (Db.pending c)
     ++ numbered (Db.next_order_item_id c) (omap (order_item_row_of m) items))%list /\
  (forall it, In it items ->
              m !! OrderItem.order_id it = None \/ is_Some (order_item_row_of m it)).
Proof.
  revert c. induction items as [|it items IH]; intros c.
  - intros [= <-]. cbn. rewrite app_nil_r. repeat split. intros it [].
  - cbn [insert_order_items].
    destruct (m !! OrderItem.order_id it) as [db|] eqn:Em.
    + destruct (Db.execute fault c _) as [[c1 k]|] eqn:E; [|discriminate].
      intros Hr. destruct (IH _ Hr) as (Hc & Ht & Hall).
      pose proof (execute_keeps_session _ _ _ _ _ E) as [_ Hc1].
      apply execute_insert_order_item in E as (u & sub & Hu & Hs & Hn & Hrow).
      assert (Erow : order_item_row_of m it
                     = Some (Db.mk_order_item db (OrderItem.product_id it)
                                              (OrderItem.quantity it) u sub))
        by (unfold order_item_row_of; rewrite Em, Hu, Hs; reflexivity).
      split; [congruence|]. split.
      * cbn [omap list_omap]. rewrite Erow.
        rewrite Ht, Hrow, Hn, numbered_cons, <- app_assoc. reflexivity.
      * intros it' [<-|Hin]; [|apply Hall, Hin]. right. rewrite Erow. eauto.
    + intros Hr. destruct (IH _ Hr) as (Hc & Ht & Hall).
      assert (Erow : order_item_row_of m it = None)
        by (unfold order_item_row_of; rewrite Em; reflexivity).
      split; [exact Hc|]. split.
      * cbn [omap list_omap]. rewrite Erow. exact Ht.
      * intros it' [<-|Hin]; [left; exact Em | apply Hall, Hin].
Qed.

Lemma insert_order_items_filter (fault : Db.conn -> Db.stmt -> bool)
      (items : list OrderItem.t) (m : gmap Z Z) (c : Db.conn) :
  insert_order_items fault c items m
  = insert_order_items fault c
      (List.filter (fun it => bool_decide (is_Some (m !! OrderItem.order_id it))) items) m.
Proof.
  revert c. induction items as [|it items IH]; intros c; [reflexivity|].
  cbn [insert_order_items List.filter].
  destruct (m !! OrderItem.order_id it) as [db|] eqn:Em.
  - rewrite bool_decide_eq_true_2 by eauto. cbn [insert_order_items]. rewrite Em.
    destruct (Db.execute fault c _) as [[c1 k]|]; [apply IH | reflexivity].
  - rewrite bool_decide_eq_false_2 by (intros [? ?]; discriminate). apply IH.
Qed.

(** X9.  In [load_order_items] an item whose order id has no entry in the
    mapping is skipped without any effect: the step does what it would do on
    the frame without those items.  When no insert raises, the step commits,
    and the table holds the old rows followed by one row per item that has an
    entry, in frame order, under consecutive ids, each with the order id the
    mapping gives; when an insert raises, nothing of the step is kept. *)
Theorem load_order_items_skips_unresolved
        (fault : Db.conn -> Db.stmt -> bool) (c : Db.conn)
        (items : list OrderItem.t) (m : gmap Z Z) :
  insert_order_items fault c items m
  = insert_order_items fault c
      (List.filter (fun it => bool_decide (is_Some (m !! OrderItem.order_id it))) items) m /\
  (items <> [] -> Db.connected c = true ->
   (forall c1, insert_order_items fault c items m = Ran c1 tt ->
      let c' := load_order_items fault c items m in
      Db.pending c' = Db.committed c' /\
      Db.order_items (Db.committed c')
      = (Db.order_items (Db.pending c)
         ++ numbered (Db.next_order_item_id c) (omap (order_item_row_of m) items))%list /\
      (forall it, In it items ->
         m !! OrderItem.order_id it = None \/ is_Some (order_item_row_of m it))) /\
   (forall c1, insert_order_items fault c items m = Raised c1 ->
      let c' := load_order_items fault c items m in
      Db.pending c' = Db.committed c /\ Db.committed c' = Db.committed c)).
Proof.
  split; [apply insert_order_items_filter|].
  intros Hne Hconn.
  assert (El : (length items =? 0)%nat = false) by (destruct items; [congruence | reflexivity]).
  unfold load_order_items. rewrite El, Hconn. cbn [negb]. split.
  - intros c1 E. rewrite E. cbv zeta.
    apply insert_order_items_ran in E as (_ & Ht & Hall).
    split; [reflexivity|]. split; [exact Ht | exact Hall].
  - intros c1 E. rewrite E. cbv zeta.
    apply insert_order_items_raised in E as [_ E]. cbn. auto.
Qed.

Lemma load_order_items_skips_unresolved_witness :
  Db.order_items
    (Db.committed (load_order_items Sample.no_fault Cases.store_with_orders Cases.items
                                    {[1 := 2; 2 := 3]}))
  = [(1, Db.mk_order_item 2 1 3 (10 # 1) (30 # 1))].
Proof.
  destruct (load_order_items_skips_unresolved Sample.no_fault Cases.store_with_orders
              Cases.items {[1 := 2; 2 := 3]}) as (_ & H0).
  destruct H0 as [Hran _]; [discriminate | reflexivity |].
  edestruct Hran as (_ & Ht & _); [vm_compute; reflexivity|].
  exact Ht.
Defined.

(** ** Loader: orders *)

Lemma execute_insert_order (fault : Db.conn -> Db.stmt -> bool) (c c' : Db.conn)
      (o : Order.t) (k : Z) :
  Db.execute fault c (Db.InsertOrder (order_values o)) = Some (c', k) ->
  k = Db.next_order_id c /\ Db.next_order_id c' = Db.next_order_id c + 1 /\
  Db.orders (Db.pending c') = (Db.orders (Db.pending c) ++ [(k, order_values o)])%list.
Proof.
  unfold Db.execute. destruct (fault c _); [discriminate|].
  destruct (negb _); [discriminate|]. intros [= <- <-]. auto.
Qed.

(** Every order the loop inserted belongs to a customer of the store. *)
Lemma insert_orders_customers (fault : Db.conn -> Db.stmt -> bool)
      (orders : list Order.t) (c c' : Db.conn) (m0 m : gmap Z Z) :
  insert_rows fault (fun r => Db.InsertOrder (order_values r)) Order.order_id
              c orders m0 = Ran c' m ->
  Db.customers (Db.pending c') = Db.customers (Db.pending c) /\
  forall o, In o orders ->
            Db.has_key (Order.customer_id o) (Db.customers (Db.pending c)) = true.
Proof.
  revert c m0. induction orders as [|o orders IH]; intros c m0.
  - intros [= <- <-]. split; [reflexivity | intros o []].
  - cbn [insert_rows]. destruct (Db.execute fault c _) as [[c1 k]|] eqn:E; [|discriminate].
    intros Hr. destruct (IH _ _ Hr) as (Hc & Hall).
    unfold Db.execute in E. destruct (fault c _); [discriminate|].
    cbn [order_values Db.customer_id] in E.
    destruct (Db.has_key (Order.customer_id o) _) eqn:Hk; [|discriminate].
    cbn [negb] in E. injection E as <- <-. cbn in Hc, Hall.
    split; [exact Hc|]. intros o' [<-|Hin]; [exact Hk | apply Hall, Hin].
Qed.

(** X10.  [load_orders]: without orders, or without a connection, it returns
    no mapping at all and touches nothing.  Otherwise, if an insert raises
    (an order of an unknown customer violates the foreign key) the step
    returns the empty mapping and leaves the committed tables as they were;
    if none raises it commits, the orders table holds the old rows followed
    by the new orders under consecutive ids, every new order belongs to a
    customer of the store, and the mapping sends each local order id to the id
    of its row. *)
Theorem load_orders_rolls_back_or_maps
        (fault : Db.conn -> Db.stmt -> bool) (c : Db.conn) (orders : list Order.t) :
  (orders = [] \/ Db.connected c = false -> load_orders fault c orders = (c, None)) /\
  (orders <> [] -> Db.connected c = true ->
   (forall c1, insert_orders fault c orders = Raised c1 ->
      exists c', load_orders fault c orders = (c', Some ∅) /\
                 Db.committed c' = Db.committed c /\ Db.pending c' = Db.committed c) /\
   (forall c1 m, insert_orders fault c orders = Ran c1 m ->
      exists c', load_orders fault c orders = (c', Some m) /\
        Db.pending c' = Db.committed c' /\
        Db.orders (Db.committed c')
        = (Db.orders (Db.pending c)
           ++ numbered (Db.next_order_id c) (List.map order_values orders))%list /\
        (forall o, In o orders ->
           Db.has_key (Order.customer_id o) (Db.customers (Db.committed c')) = true) /\
        (List.NoDup (List.map Order.order_id orders) ->
         forall i o, orders !! i = Some o ->
           m !! Order.order_id o = Some (Db.next_order_id c + Z.of_nat i)))).
Proof.
  split.
  - unfold load_orders. intros [-> | ->]; [reflexivity|]. cbn [negb].
    destruct (length orders =? 0)%nat; reflexivity.
  - intros Hne Hconn.
    assert (El : (length orders =? 0)%nat = false)
      by (destruct orders; [congruence | reflexivity]).
    unfold load_orders. rewrite El, Hconn. cbn [negb]. split.
    + intros c1 E. rewrite E. exists (Db.rollback c1). split; [reflexivity|].
      apply insert_rows_raised in E as [_ E]. cbn. auto.
    + intros c1 m E. rewrite E. exists (Db.commit c1). split; [reflexivity|].
      split; [reflexivity|].
      pose proof (insert_orders_customers _ _ _ _ _ _ E) as (Hcust & Hfk).
      eapply (insert_rows_ran fault _ Order.order_id order_values Db.orders
                              Db.next_order_id) in E as (_ & _ & Ht & _ & Hin);
        [|intros; eapply execute_insert_order; eassumption].
      cbn [Db.commit Db.committed]. split; [|split; [|exact Hin]].
      * rewrite Ht. f_equal. unfold numbered. rewrite imap_fmap. reflexivity.
      * intros o Ho. rewrite Hcust. apply Hfk, Ho.
Qed.

Lemma load_orders_rolls_back_or_maps_witness :
  (exists c', load_orders Sample.no_fault Cases.store_with_customer Cases.orders
              = (c', Some {[1 := 5; 2 := 6]})) /\
  (exists c', load_orders Sample.no_fault Cases.store_with_customer Cases.orphan_orders
              = (c', Some ∅) /\
              Db.orders (Db.committed c') = []).
Proof.
  split.
  - destruct (load_orders_rolls_back_or_maps Sample.no_fault Cases.store_with_customer
                Cases.orders) as (_ & H0).
    destruct H0 as [_ Hran]; [discriminate | reflexivity |].
    edestruct Hran as (c' & E & _); [vm_compute; reflexivity|].
    exists c'. exact E.
  - destruct (load_orders_rolls_back_or_maps Sample.no_fault Cases.store_with_customer
                Cases.orphan_orders) as (_ & H0).
    destruct H0 as [Hraised _]; [discriminate | reflexivity |].
    edestruct Hraised as (c' & E & Hc & _); [vm_compute; reflexivity|].
    exists c'. split; [exact E|]. rewrite Hc. reflexivity.
Defined.

(** ** How local order ids meet the store's ids *)

(** The orders the aggregator emits carry the counter values in order. *)
Lemma build_orders_order_ids (grouped : list ((Z * string) * list Line.t)) (n : Z)
      (orders : list Order.t) (items : list OrderItem.t) :
  build_orders grouped n = Some (orders, items) ->
  forall i o, orders !! i = Some o -> Order.order_id o = n + Z.of_nat i.
Proof.
  revert n orders items. induction grouped as [|[[c d] g] rest IH]; intros n orders items.
  - intros [= <- <-] i o Hi. destruct i; discriminate.
  - cbn [build_orders].
    destruct (mapM (make_item n) g) as [its|]; [|discriminate].
    destruct (build_orders rest (n + 1)) as [[orders' items']|] eqn:Er; [|discriminate].
    intros [= <- <-] [|i] o Hi; cbn in Hi.
    + injection Hi as <-. cbn. lia.
    + rewrite (IH _ _ _ Er i o Hi). lia.
Qed.

(** Every item carries the id of one of the orders emitted with it. *)
Lemma build_orders_item_order (grouped : list ((Z * string) * list Line.t)) (n : Z)
      (orders : list Order.t) (items : list OrderItem.t) (it : OrderItem.t) :
  build_orders grouped n = Some (orders, items) -> In it items ->
  exists o, In o orders /\ Order.order_id o = OrderItem.order_id it.
Proof.
  revert n orders items. induction grouped as [|[[c d] g] rest IH]; intros n orders items.
  - intros [= <- <-] [].
  - cbn [build_orders].
    destruct (mapM (make_item n) g) as [its|] eqn:Eg; [|discriminate].
    destruct (build_orders rest (n + 1)) as [[orders' items']|] eqn:Er; [|discriminate].
    intros [= <- <-] Hit. apply in_app_or in Hit as [Hit|Hit].
    + apply mapM_make_item in Eg as (_ & Hid & _).
      eexists. split; [left; reflexivity|]. cbn. symmetry. apply Hid, Hit.
    + destruct (IH _ _ _ Er Hit) as (o & Ho & Hk). exists o. split; [right; exact Ho | exact Hk].
Qed.

Lemma NoDup_order_ids (orders : list Order.t) (n : Z) :
  (forall i o, orders !! i = Some o -> Order.order_id o = n + Z.of_nat i) ->
  List.NoDup (List.map Order.order_id orders).
Proof.
  intros Hid. apply NoDup_ListNoDup, NoDup_alt. intros i j k Hi Hj.
  rewrite lookup_map in Hi, Hj.
  destruct (orders !! i) as [oi|] eqn:Ei; [|discriminate].
  destruct (orders !! j) as [oj|] eqn:Ej; [|discriminate].
  cbn in Hi, Hj. injection Hi as Hi. injection Hj as Hj.
  pose proof (Hid i oi Ei). pose proof (Hid j oj Ej). lia.
Qed.

Lemma rewrite_order_ids_identity (m : gmap Z Z) (items : list OrderItem.t) :
  (forall it, In it items -> m !! OrderItem.order_id it = Some (OrderItem.order_id it)) ->
  rewrite_order_ids m items = items.
Proof.
  unfold rewrite_order_ids, Pd.dropna.
  induction items as [|it items IH]; [reflexivity|]. intros Hid.
  cbn [List.map List.filter]. rewrite (Hid it) by (left; reflexivity).
  cbn [fst]. rewrite bool_decide_eq_true_2 by eauto.
  cbn [omap list_omap fmap option_fmap option_map].
  f_equal; [destruct it; reflexivity|].
  apply IH. intros it' Hin. apply Hid. right. exact Hin.
Qed.

(** X11.  When [load_orders] succeeds on the orders of the aggregator, the
    mapping it returns is a shift: its keys are the local ids 1..N, and local
    id k goes to k + (counter - 1), where counter is the orders AUTO_INCREMENT
    value the step found.  Every item's local id is a key.  So on a store
    whose counter stands at 1 the mapping is the identity and rewriting the
    items through it changes nothing; and when there are items, rewriting
    them changes nothing only if the counter stands at 1. *)
Theorem order_id_mapping_is_a_shift
        (fault : Db.conn -> Db.stmt -> bool) (c c1 : Db.conn)
        (sales : list (Z * Sale.t)) (cm pm : gmap string Z)
        (orders : list Order.t) (items : list OrderItem.t) (m : gmap Z Z) :
  transform_sales_to_orders sales cm pm = Some (orders, items) ->
  insert_orders fault c orders = Ran c1 m ->
  (forall k, is_Some (m !! k) <-> 1 <= k <= Z.of_nat (length orders)) /\
  (forall k, 1 <= k <= Z.of_nat (length orders) ->
             m !! k = Some (k + (Db.next_order_id c - 1))) /\
  (forall it, In it items ->
              m !! OrderItem.order_id it
              = Some (OrderItem.order_id it + (Db.next_order_id c - 1))) /\
  (Db.next_order_id c = 1 -> rewrite_order_ids m items = items) /\
  (items <> [] -> rewrite_order_ids m items = items -> Db.next_order_id c = 1).
Proof.
  intros Ht Hi.
  assert (Hb : build_orders (groupby (sales_lines sales cm pm)) 1 = Some (orders, items)
               \/ (orders = [] /\ items = [])).
  { unfold transform_sales_to_orders in Ht. destruct (length sales =? 0)%nat.
    - injection Ht as <- <-. auto.
    - auto. }
  assert (Hid : forall i o, orders !! i = Some o -> Order.order_id o = 1 + Z.of_nat i).
  { destruct Hb as [Hb|[-> _]]; [exact (build_orders_order_ids _ _ _ _ Hb)|].
    intros i o Hio. destruct i; discriminate. }
  assert (Hitems : forall it, In it items ->
                              exists o, In o orders /\ Order.order_id o = OrderItem.order_id it).
  { destruct Hb as [Hb|[_ ->]]; [|intros it []].
    intros it Hit. exact (build_orders_item_order _ _ _ _ _ Hb Hit). }
  eapply (insert_rows_ran fault _ Order.order_id order_values Db.orders
                          Db.next_order_id) in Hi as (_ & _ & _ & Hout & Hin);
    [|intros; eapply execute_insert_order; eassumption].
  specialize (Hin (NoDup_order_ids _ _ Hid)).
  assert (Hkey : forall k, 1 <= k <= Z.of_nat (length orders) ->
                           m !! k = Some (k + (Db.next_order_id c - 1))).
  { intros k Hk.
    destruct (lookup_lt_is_Some_2 orders (Z.to_nat (k - 1))) as [o Ho]; [lia|].
    pose proof (Hid _ _ Ho) as Hko. rewrite Z2Nat.id in Hko by lia.
    replace k with (Order.order_id o) by lia.
    rewrite (Hin _ _ Ho). f_equal. lia. }
  assert (Hrange : forall o, In o orders -> 1 <= Order.order_id o <= Z.of_nat (length orders)).
  { intros o Ho. apply list_elem_of_In, list_elem_of_lookup in Ho as [i Ho].
    rewrite (Hid _ _ Ho). apply lookup_lt_Some in Ho. lia. }
  assert (Hitem : forall it, In it items ->
                             m !! OrderItem.order_id it
                             = Some (OrderItem.order_id it + (Db.next_order_id c - 1))).
  { intros it Hit. destruct (Hitems it Hit) as (o & Ho & <-). apply Hkey, Hrange, Ho. }
  split; [|split; [exact Hkey | split; [exact Hitem | split]]].
  - intros k. split.
    + intros Hs. destruct (in_dec Z.eq_dec k (List.map Order.order_id orders)) as [Hk|Hk].
      * apply in_map_iff in Hk as (o & <- & Ho). apply Hrange, Ho.
      * rewrite (Hout k Hk), lookup_empty in Hs. destruct Hs as [? Hs]. discriminate.
    + intros Hk. rewrite (Hkey k Hk). eauto.
  - intros Hone. apply rewrite_order_ids_identity. intros it Hit.
    rewrite (Hitem it Hit), Hone. f_equal. lia.
  - intros Hne Heq. destruct items as [|it rest]; [contradiction|].
    pose proof (Hitem it (or_introl eq_refl)) as Hm.
    unfold rewrite_order_ids, Pd.dropna in Heq.
    cbn [List.map List.filter fst] in Heq. rewrite Hm in Heq.
    rewrite bool_decide_eq_true_2 in Heq by eauto.
    cbn [omap list_omap fmap option_fmap option_map] in Heq.
    injection Heq as Heq _. apply (f_equal OrderItem.order_id) in Heq.
    cbn [OrderItem.order_id] in Heq. lia.
Qed.

Lemma order_id_mapping_is_a_shift_witness :
  ({[1 := 5; 2 := 6]} : gmap Z Z) !! 2 = Some (2 + (5 - 1)) /\
  rewrite_order_ids {[1 := 5; 2 := 6]}
                    [OrderItem.mk 1 1 3 (Some (10 # 1)) (Some (30 # 1));
                     OrderItem.mk 2 1 1 (Some (10 # 1)) (Some (10 # 1))]
  <> [OrderItem.mk 1 1 3 (Some (10 # 1)) (Some (30 # 1));
      OrderItem.mk 2 1 1 (Some (10 # 1)) (Some (10 # 1))].
Proof.
  pose (items := [OrderItem.mk 1 1 3 (Some (10 # 1)) (Some (30 # 1));
                  OrderItem.mk 2 1 1 (Some (10 # 1)) (Some (10 # 1))]).
  assert (Ht : transform_sales_to_orders (sales_df Sample.two_days)
                 {["C001" := 1]} {["P001" := 1]} = Some (Cases.orders, items))
    by (vm_compute; reflexivity).
  eassert (Hi : insert_orders Sample.no_fault Cases.store_with_customer Cases.orders
                = Ran _ {[1 := 5; 2 := 6]}) by (vm_compute; reflexivity).
  destruct (order_id_mapping_is_a_shift _ _ _ _ _ _ _ _ _ Ht Hi)
    as (_ & Hkey & _ & _ & Hconv).
  split; [apply (Hkey 2); cbn; lia|].
  intros Heq. apply Hconv in Heq; [discriminate Heq | discriminate].
Defined.

(** ** How [load] ends *)

Lemma transform_sales_to_orders_total (sales : list (Z * Sale.t)) (cm pm : gmap string Z) :
  (forall r, In r sales -> is_Some (Sale.quantity r.2)) ->
  is_Some (transform_sales_to_orders sales cm pm).
Proof.
  intros Hq. unfold transform_sales_to_orders.
  destruct (length sales =? 0)%nat; [eexists; reflexivity|].
  apply build_orders_total. intros k g l m Hg Hl.
  apply groupby_group in Hg as [-> _]. apply filter_In in Hl as [Hl _].
  apply sales_lines_origin in Hl as ([p Hp] & r & Hr & Hsale).
  destruct (Hq r Hr) as [q Hqr]. unfold make_item.
  rewrite Hp, Hsale, Hqr. eexists. reflexivity.
Qed.

(** Items come with orders: the aggregator never returns items without
    orders. *)
Lemma items_need_orders (sales : list (Z * Sale.t)) (cm pm : gmap string Z)
      (items : list OrderItem.t) :
  transform_sales_to_orders sales cm pm = Some ([], items) -> items = [].
Proof.
  unfold transform_sales_to_orders. destruct (length sales =? 0)%nat; [congruence|].
  destruct (groupby _) as [|[[c d] g] rest]; cbn [build_orders]; [congruence|].
  destruct (mapM _ g); [|discriminate].
  destruct (build_orders rest _) as [[os its]|]; discriminate.
Qed.

Lemma load_steps_connected (fault : Db.conn -> Db.stmt -> bool) (c : Db.conn)
      (self : pipeline) :
  let c1 := clear_existing_data fault (Db.open_session c) in
  let c2 := (load_customers fault c1 (customers_df self)).1 in
  Db.connected (load_products fault c2 (products_df self)).1 = true.
Proof.
  cbv zeta.
  rewrite (load_products_connected fault), (load_customers_connected fault),
    clear_existing_data_connected.
  reflexivity.
Qed.

(** X12.  [load] always returns when every cleansed sales line has a
    quantity: whatever the store does (refused statements, constraint
    violations), no exception leaves [load], and the connection is closed at
    the end when the server was reachable. *)
Theorem load_returns (fault : Db.conn -> Db.stmt -> bool) (reachable : bool)
        (c : Db.conn) (self : pipeline) :
  (forall x, In x (sales_df self) -> is_Some (Sale.quantity x.2)) ->
  exists c', load fault reachable c self = Finished c' /\
             (reachable = true -> Db.connected c' = false).
Proof.
  intros Hq. unfold load. destruct reachable; cbn [negb];
    [|exists c; split; [reflexivity | discriminate]].
  pose proof (load_steps_connected fault c self) as Hconn. cbv zeta in Hconn.
  destruct (load_customers fault _ (customers_df self)) as [c2 cm]. cbn [fst] in Hconn.
  destruct (load_products fault c2 (products_df self)) as [c3 pm]. cbn [fst] in Hconn.
  destruct (transform_sales_to_orders_total (sales_df self) cm pm Hq)
    as [[orders items] Ht].
  rewrite Ht. unfold load_orders.
  destruct orders as [|o orders]; cbn [length Nat.eqb].
  - apply items_need_orders in Ht as ->. cbn. eexists. split; reflexivity.
  - rewrite Hconn. cbn [negb].
    destruct (insert_orders fault c3 (o :: orders)) as [c4 m|c4];
      destruct (0 <? length items)%nat; eexists; split; reflexivity.
Qed.

Lemma load_returns_witness :
  exists c', load Sample.no_fault true Sample.used_store Sample.two_days = Finished c' /\
             (true = true -> Db.connected c' = false).
Proof.
  apply load_returns. intros x Hx. vm_compute in Hx.
  destruct Hx as [<-|[<-|[]]]; eexists; reflexivity.
Defined.

Lemma build_orders_raises (grouped : list ((Z * string) * list Line.t)) (n : Z)
      (k : Z * string) (g : list Line.t) (l : Line.t) :
  In (k, g) grouped -> In l g -> Sale.quantity (Line.sale l) = None ->
  build_orders grouped n = None.
Proof.
  revert n. induction grouped as [|[[c d] g'] rest IH]; intros n; [intros []|].
  intros Hin Hl Hq. cbn [build_orders].
  destruct (mapM (make_item n) g') as [its|] eqn:Eg; [|reflexivity].
  destruct Hin as [[= <- <-]|Hin].
  - exfalso. apply mapM_Some in Eg. apply list_elem_of_In in Hl.
    apply list_elem_of_lookup in Hl as [i Hi].
    destruct (Forall2_lookup_l _ _ _ _ _ Eg Hi) as (it & _ & Hit).
    unfold make_item in Hit. rewrite Hq in Hit.
    destruct (Line.db_product_id l); discriminate.
  - rewrite (IH (n + 1) Hin Hl Hq). reflexivity.
Qed.

Lemma sales_lines_In (sales : list (Z * Sale.t)) (cm pm : gmap string Z) (x : Z * Sale.t) :
  In x sales ->
  is_Some (map_ids cm (Sale.customer_id x.2)) ->
  is_Some (map_ids pm (Sale.product_id x.2)) ->
  In (Line.mk x.2 (map_ids cm (Sale.customer_id x.2)) (map_ids pm (Sale.product_id x.2))
              (line_subtotal (Sale.quantity x.2) (Sale.unit_price x.2)))
     (sales_lines sales cm pm).
Proof.
  intros Hx Hc Hp. unfold sales_lines.
  apply in_map_iff.
  exists (Line.mk x.2 (map_ids cm (Sale.customer_id x.2))
                  (map_ids pm (Sale.product_id x.2)) None).
  split; [reflexivity|]. apply filter_In. split.
  - apply in_map_iff. exists x. split; [reflexivity|]. apply filter_In.
    split; [exact Hx|].
    destruct (Sale.customer_id x.2); [|destruct Hc; discriminate].
    destruct (Sale.product_id x.2); [|destruct Hp; discriminate].
    reflexivity.
  - cbn. rewrite !bool_decide_eq_true_2 by assumption. reflexivity.
Qed.

Lemma groupby_In (df : list Line.t) (l : Line.t) (k : Z * string) :
  In l df -> group_key l = Some k ->
  In (k, List.filter (fun l => bool_decide (group_key l = Some k)) df) (groupby df) /\
  In l (List.filter (fun l => bool_decide (group_key l = Some k)) df).
Proof.
  intros Hl Hk. split.
  - unfold groupby. apply in_map_iff. exists k. split; [reflexivity|].
    apply (In_sort key_leb), In_unique, list_elem_of_In, list_elem_of_omap.
    exists l. split; [apply list_elem_of_In, Hl | exact Hk].
  - apply filter_In. split; [exact Hl|]. apply bool_decide_eq_true_2, Hk.
Qed.

(** X13.  A sales line that survives the mappings and has a date but no
    quantity makes the aggregator raise in the middle of [load]: [load] is
    left by the exception after the customers' and products' steps have
    committed, no order step runs, and the connection is not closed. *)
Theorem load_aborts_on_missing_quantity (fault : Db.conn -> Db.stmt -> bool)
        (c c2 c3 : Db.conn) (cm pm : gmap string Z) (self : pipeline)
        (x : Z * Sale.t) :
  load_customers fault (clear_existing_data fault (Db.open_session c))
                 (customers_df self) = (c2, cm) ->
  load_products fault c2 (products_df self) = (c3, pm) ->
  In x (sales_df self) ->
  is_Some (map_ids cm (Sale.customer_id x.2)) ->
  is_Some (map_ids pm (Sale.product_id x.2)) ->
  is_Some (Sale.transaction_date x.2) ->
  Sale.quantity x.2 = None ->
  transform_sales_to_orders (sales_df self) cm pm = None /\
  load fault true c self = Aborted c3 /\
  Db.connected c3 = true.
Proof.
  intros H1 H2 Hx Hc Hp Hd Hq.
  assert (Ht : transform_sales_to_orders (sales_df self) cm pm = None).
  { unfold transform_sales_to_orders.
    destruct (sales_df self) as [|r rs] eqn:Es; [destruct Hx|]. cbn [length Nat.eqb].
    pose proof (sales_lines_In (r :: rs) cm pm x Hx Hc Hp) as Hl.
    destruct Hc as [cid Hc], Hd as [d Hd].
    destruct (groupby_In _ _ (cid, d) Hl) as [Hg Hlg].
    { unfold group_key. cbn. rewrite Hc, Hd. reflexivity. }
    exact (build_orders_raises _ 1 _ _ _ Hg Hlg Hq). }
  split; [exact Ht|].
  pose proof (load_steps_connected fault c self) as Hconn. cbv zeta in Hconn.
  rewrite H1 in Hconn. cbn [fst] in Hconn. rewrite H2 in Hconn. cbn [fst] in Hconn.
  split; [|exact Hconn].
  unfold load. cbn [negb]. rewrite H1, H2, Ht. reflexivity.
Qed.

Lemma load_aborts_on_missing_quantity_witness :
  exists c3, load Sample.no_fault true Sample.fresh_store Faulty.no_quantity = Aborted c3 /\
             length (Db.customers (Db.committed c3)) = 1%nat /\
             length (Db.orders (Db.committed c3)) = 0%nat.
Proof.
  pose (r1 := load_customers Sample.no_fault
                (clear_existing_data Sample.no_fault (Db.open_session Sample.fresh_store))
                (customers_df Faulty.no_quantity)).
  pose (r2 := load_products Sample.no_fault r1.1 (products_df Faulty.no_quantity)).
  assert (H1 : load_customers Sample.no_fault
                 (clear_existing_data Sample.no_fault (Db.open_session Sample.fresh_store))
                 (customers_df Faulty.no_quantity) = (r1.1, r1.2))
    by (vm_compute; reflexivity).
  assert (H2 : load_products Sample.no_fault r1.1 (products_df Faulty.no_quantity)
               = (r2.1, r2.2)) by (vm_compute; reflexivity).
  eassert (Hx : In _ (sales_df Faulty.no_quantity)) by (vm_compute; left; reflexivity).
  destruct (load_aborts_on_missing_quantity _ _ _ _ _ _ _ _ H1 H2 Hx) as (_ & Hl & _);
    try (vm_compute; eexists; reflexivity); try reflexivity.
  eexists. split; [exact Hl|]. split; reflexivity.
Defined.

(** ** Loader: transactions and foreign keys *)

Lemma has_key_app {A} (k : Z) (t u : list (Z * A)) :
  Db.has_key k (t ++ u) = Db.has_key k t || Db.has_key k u.
Proof. apply existsb_app. Qed.

Lemma foreign_keys_hold_iff (t : Db.tables) :
  foreign_keys_hold t = true <->
  (forall r, In r (Db.orders t) ->
             Db.has_key (Db.customer_id r.2) (Db.customers t) = true) /\
  (forall r, In r (Db.order_items t) ->
             Db.has_key (Db.order_id r.2) (Db.orders t) = true /\
             Db.has_key (Db.product_id r.2) (Db.products t) = true).
Proof.
  unfold foreign_keys_hold. rewrite andb_true_iff, !forallb_forall.
  split; intros [Ho Hi]; (split; [exact Ho|]); intros r Hr.
  - apply andb_true_iff, Hi, Hr.
  - apply andb_true_iff, Hi, Hr.
Qed.

(** An insert that the store accepts keeps the foreign keys of the pending
    tables: the parents only grow, and a child is checked on its way in. *)
Lemma execute_insert_keeps_foreign_keys (fault : Db.conn -> Db.stmt -> bool)
      (c c' : Db.conn) (s : Db.stmt) (k : Z) :
  is_insert s = true ->
  Db.execute fault c s = Some (c', k) ->
  foreign_keys_hold (Db.pending c) = true ->
  foreign_keys_hold (Db.pending c') = true.
Proof.
  intros Hs E Hfk. apply foreign_keys_hold_iff in Hfk as [Ho Hi].
  apply foreign_keys_hold_iff.
  unfold Db.execute in E. destruct (fault c s); [discriminate|].
  destruct s as [v|v|v|o p q [u|] [sub|]|t]; try discriminate.
  - destruct (existsb _ _); [discriminate|]. injection E as <- <-.
    cbn [Db.pending Db.customers Db.products Db.orders Db.order_items].
    split; [|exact Hi]. intros r Hr. rewrite has_key_app, (Ho r Hr). reflexivity.
  - injection E as <- <-.
    cbn [Db.pending Db.customers Db.products Db.orders Db.order_items].
    split; [exact Ho|]. intros r Hr.
    destruct (Hi r Hr) as [H1 H2]. rewrite has_key_app, H1, H2. split; reflexivity.
  - destruct (Db.has_key _ _) eqn:Ek; [|discriminate]. cbn [negb] in E.
    injection E as <- <-.
    cbn [Db.pending Db.customers Db.products Db.orders Db.order_items]. split.
    + intros r Hr. apply in_app_or in Hr as [Hr|[<-|[]]]; [exact (Ho r Hr) | exact Ek].
    + intros r Hr. destruct (Hi r Hr) as [H1 H2].
      rewrite has_key_app, H1, H2. split; reflexivity.
  - destruct (Db.has_key o _) eqn:Eo; [|discriminate].
    destruct (Db.has_key p _) eqn:Ep; [|discriminate]. cbn [negb orb] in E.
    injection E as <- <-.
    cbn [Db.pending Db.customers Db.products Db.orders Db.order_items].
    split; [exact Ho|]. intros r Hr.
    apply in_app_or in Hr as [Hr|[<-|[]]]; [exact (Hi r Hr)|].
    cbn [snd Db.order_id Db.product_id]. auto.
Qed.

Lemma insert_rows_keeps_foreign_keys {A K} `{Countable K}
      (fault : Db.conn -> Db.stmt -> bool) (values : A -> Db.stmt) (key : A -> K)
      (c c' : Db.conn) (rows : list A) (m0 m : gmap K Z) :
  (forall a, is_insert (values a) = true) ->
  insert_rows fault values key c rows m0 = Ran c' m ->
  foreign_keys_hold (Db.pending c) = true ->
  foreign_keys_hold (Db.pending c') = true.
Proof.
  intros Hv. revert c m0. induction rows as [|a rows IH]; intros c m0.
  - intros [= <- <-]. auto.
  - cbn [insert_rows]. destruct (Db.execute fault c (values a)) as [[c1 k]|] eqn:E;
      [|discriminate].
    intros Hr Hfk. apply (IH _ _ Hr).
    exact (execute_insert_keeps_foreign_keys _ _ _ _ _ (Hv a) E Hfk).
Qed.

Lemma insert_order_items_keeps (fault : Db.conn -> Db.stmt -> bool) (c : Db.conn)
      (items : list OrderItem.t) (m : gmap Z Z) :
  match insert_order_items fault c items m with
  | Ran c' _ =>
    Db.committed c' = Db.committed c /\
    (foreign_keys_hold (Db.pending c) = true -> foreign_keys_hold (Db.pending c') = true)
  | Raised c' => Db.committed c' = Db.committed c
  end.
Proof.
  revert c. induction items as [|it items IH]; intros c; [cbn; auto|].
  cbn [insert_order_items]. destruct (m !! OrderItem.order_id it) as [o|]; [|apply IH].
  destruct (Db.execute fault c _) as [[c1 k]|] eqn:E; [|reflexivity].
  pose proof (execute_keeps_session _ _ _ _ _ E) as [_ Hm].
  specialize (IH c1). destruct (insert_order_items fault c1 items m) as [c' []|c'].
  - destruct IH as [Hc Hfk]. split; [congruence|]. intros H0. apply Hfk.
    exact (execute_insert_keeps_foreign_keys _ _ _ (Db.InsertOrderItem _ _ _ _ _) _
             eq_refl E H0).
  - congruence.
Qed.

Lemma load_step_keeps {A K} `{Countable K} (fault : Db.conn -> Db.stmt -> bool)
      (values : A -> Db.stmt) (key : A -> K) (c : Db.conn) (rows : list A) :
  (forall a, is_insert (values a) = true) ->
  step_keeps c match insert_rows fault values key c rows ∅ with
               | Ran c' _ => Db.commit c'
               | Raised c' => Db.rollback c'
               end.
Proof.
  intros Hv Hq. destruct (insert_rows fault values key c rows ∅) as [c' m|c'] eqn:E.
  - split; [reflexivity|]. cbn. rewrite <- Hq.
    exact (insert_rows_keeps_foreign_keys _ _ _ _ _ _ _ _ Hv E).
  - split; [reflexivity|]. cbn.
    assert (Hm : Db.committed c' = Db.committed c); [|rewrite Hm; auto].
    clear Hq. revert c E. generalize (∅ : gmap K Z).
    induction rows as [|a rows IH]; intros m0 c; [discriminate|].
    cbn [insert_rows]. destruct (Db.execute fault c (values a)) as [[c1 k]|] eqn:E1.
    + intros Hr. rewrite (IH _ _ Hr). exact (proj2 (execute_keeps_session _ _ _ _ _ E1)).
    + intros [= <-]. reflexivity.
Qed.

Lemma step_keeps_refl (c : Db.conn) : step_keeps c c.
Proof. intros Hq. auto. Qed.

Lemma step_keeps_trans (c1 c2 c3 : Db.conn) :
  step_keeps c1 c2 -> step_keeps c2 c3 -> step_keeps c1 c3.
Proof.
  intros H12 H23 Hq. destruct (H12 Hq) as [Hq2 Hf2]. destruct (H23 Hq2) as [Hq3 Hf3].
  auto.
Qed.

Lemma load_customers_keeps (fault : Db.conn -> Db.stmt -> bool) (c : Db.conn)
      (df : list (Z * Customer.t)) :
  step_keeps c (load_customers fault c df).1.
Proof.
  unfold load_customers. destruct (length df =? 0)%nat; [apply step_keeps_refl|].
  destruct (negb (Db.connected c)); [apply step_keeps_refl|].
  pose proof (load_step_keeps fault (fun r => Db.InsertCustomer (customer_values r.2))
                (fun r => py_str (Customer.customer_id r.2)) c df (fun _ => eq_refl)) as H.
  unfold insert_customers. destruct (insert_rows _ _ _ _ _ _); exact H.
Qed.

Lemma load_products_keeps (fault : Db.conn -> Db.stmt -> bool) (c : Db.conn)
      (df : list (Z * Product.t)) :
  step_keeps c (load_products fault c df).1.
Proof.
  unfold load_products. destruct (length df =? 0)%nat; [apply step_keeps_refl|].
  destruct (negb (Db.connected c)); [apply step_keeps_refl|].
  pose proof (load_step_keeps fault (fun r => Db.InsertProduct (product_values r.2))
                (fun r => py_str (Product.product_id r.2)) c df (fun _ => eq_refl)) as H.
  unfold insert_products. destruct (insert_rows _ _ _ _ _ _); exact H.
Qed.

Lemma load_orders_keeps (fault : Db.conn -> Db.stmt -> bool) (c : Db.conn)
      (df : list Order.t) :
  step_keeps c (load_orders fault c df).1.
Proof.
  unfold load_orders. destruct (length df =? 0)%nat; [apply step_keeps_refl|].
  destruct (negb (Db.connected c)); [apply step_keeps_refl|].
  pose proof (load_step_keeps fault (fun r => Db.InsertOrder (order_values r))
                Order.order_id c df (fun _ => eq_refl)) as H.
  unfold insert_orders. destruct (insert_rows _ _ _ _ _ _); exact H.
Qed.

Lemma load_order_items_keeps (fault : Db.conn -> Db.stmt -> bool) (c : Db.conn)
      (items : list OrderItem.t) (m : gmap Z Z) :
  step_keeps c (load_order_items fault c items m).
Proof.
  unfold load_order_items. destruct (length items =? 0)%nat; [apply step_keeps_refl|].
  destruct (negb (Db.connected c)); [apply step_keeps_refl|].
  pose proof (insert_order_items_keeps fault c items m) as H. intros Hq.
  destruct (insert_order_items fault c items m) as [c' []|c'].
  - destruct H as [_ Hfk]. split; [reflexivity|]. cbn. rewrite <- Hq. exact Hfk.
  - split; [reflexivity|]. cbn. rewrite H. auto.
Qed.

(** The purge leaves no transaction open, and the committed tables are
    afterwards all empty or what they were. *)
Lemma clear_existing_data_cases (fault : Db.conn -> Db.stmt -> bool) (c : Db.conn) :
  let c' := clear_existing_data fault c in
  Db.pending c' = Db.committed c' /\
  (Db.committed c' = Db.mk_tables [] [] [] [] \/ Db.committed c' = Db.committed c).
Proof.
  cbv zeta. unfold clear_existing_data, execute_all, Db.execute.
  destruct (fault c (Db.DeleteFrom Db.OrderItems)); [auto|].
  match goal with |- context [fault ?c1 (Db.DeleteFrom Db.Orders)] =>
    destruct (fault c1 (Db.DeleteFrom Db.Orders)) end; [auto|].
  match goal with |- context [fault ?c1 (Db.DeleteFrom Db.Customers)] =>
    destruct (fault c1 (Db.DeleteFrom Db.Customers)) end; [auto|].
  match goal with |- context [fault ?c1 (Db.DeleteFrom Db.Products)] =>
    destruct (fault c1 (Db.DeleteFrom Db.Products)) end; auto.
Qed.

Lemma close_keeps (c : Db.conn) : step_keeps c (Db.close c).
Proof. intros Hq. split; [reflexivity | auto]. Qed.

(** From the purge on, [load] is a chain of steps each of which keeps the
    store settled. *)
Lemma load_keeps (fault : Db.conn -> Db.stmt -> bool) (c : Db.conn) (self : pipeline) :
  step_keeps (clear_existing_data fault (Db.open_session c))
             (final_state (load fault true c self)).
Proof.
  unfold load. cbn [negb].
  set (c1 := clear_existing_data fault (Db.open_session c)).
  pose proof (load_customers_keeps fault c1 (customers_df self)) as H2.
  destruct (load_customers fault c1 (customers_df self)) as [c2 cm]. cbn [fst] in H2.
  pose proof (load_products_keeps fault c2 (products_df self)) as H3.
  destruct (load_products fault c2 (products_df self)) as [c3 pm]. cbn [fst] in H3.
  pose proof (step_keeps_trans _ _ _ H2 H3) as H13.
  destruct (transform_sales_to_orders _ _ _) as [[orders items]|]; [|exact H13].
  pose proof (load_orders_keeps fault c3 orders) as H4.
  destruct (load_orders fault c3 orders) as [c4 om]. cbn [fst] in H4.
  pose proof (step_keeps_trans _ _ _ H13 H4) as H14.
  destruct (0 <? length items)%nat.
  - destruct om as [om|]; [|exact H14]. cbn [final_state].
    apply (step_keeps_trans _ _ _ H14).
    apply (step_keeps_trans _ (load_order_items fault c4 (rewrite_order_ids om items) om));
      [apply load_order_items_keeps | apply close_keeps].
  - cbn [final_state]. apply (step_keeps_trans _ _ _ H14), close_keeps.
Qed.

(** X14.  [load] leaves no transaction open: whichever way it ends (it
    returns, or the aggregator or the order-id rewrite raises), every
    statement it executed on the connection has been committed or rolled
    back. *)
Theorem load_leaves_no_open_transaction (fault : Db.conn -> Db.stmt -> bool)
        (c : Db.conn) (self : pipeline) :
  Db.pending (final_state (load fault true c self))
  = Db.committed (final_state (load fault true c self)).
Proof.
  apply (load_keeps fault c self), clear_existing_data_cases.
Qed.

(** ** Products: a filled price is never out of range *)

Lemma mean_between (a b : Q) :
  (a <= b)%Q -> (a <= (a + b) / (2 # 1))%Q /\ ((a + b) / (2 # 1) <= b)%Q.
Proof.
  intros Hab. split.
  - apply Qle_shift_div_l; [reflexivity|].
    assert (E : (a * (2 # 1) == a + a)%Q) by ring. rewrite E.
    apply Qplus_le_r, Hab.
  - apply Qle_shift_div_r; [reflexivity|].
    assert (E : (b * (2 # 1) == b + b)%Q) by ring. rewrite E.
    apply Qplus_le_l, Hab.
Qed.

(** The median of a column lies between two of its present cells. *)
Lemma median_between (col : list (option Q)) (m : Q) :
  Pd.median col = Some m ->
  exists a b, In (Some a) col /\ In (Some b) col /\ (a <= m)%Q /\ (m <= b)%Q.
Proof.
  unfold Pd.median. set (v := Pd.sort Qle_bool (omap id col)).
  assert (Hv : forall i x, v !! i = Some x -> In (Some x) col).
  { intros i x Hi. apply list_elem_of_lookup_2, list_elem_of_In in Hi. unfold v in Hi.
    apply (proj1 (In_sort Qle_bool _ _)) in Hi.
    apply list_elem_of_In, list_elem_of_omap in Hi as ([y|] & Hy & [= ->]).
    apply list_elem_of_In, Hy. }
  destruct (length v =? 0)%nat; [discriminate|].
  destruct (Nat.odd (length v)).
  - intros Hm. exists m, m. pose proof (Hv _ _ Hm). repeat split; auto; apply Qle_refl.
  - destruct (v !! (length v / 2 - 1)%nat) as [a|] eqn:Ea; [|discriminate].
    destruct (v !! (length v / 2)%nat) as [b|] eqn:Eb; [|discriminate].
    intros [= <-]. pose proof (Hv _ _ Ea). pose proof (Hv _ _ Eb).
    destruct (Qlt_le_dec b a) as [Hlt|Hle].
    + exists b, a. destruct (mean_between b a (Qlt_le_weak _ _ Hlt)) as [H1 H2].
      assert (E : (a + b == b + a)%Q) by ring.
      repeat split; auto; rewrite E; assumption.
    + exists a, b. destruct (mean_between a b Hle). repeat split; auto.
Qed.

Lemma price_within_present (df : list Product.t) (r : Product.t) (p : Q) :
  In r df -> Product.price r = Some p -> price_within df p.
Proof.
  intros Hr Hp. exists p, p. rewrite <- Hp.
  repeat split; try apply in_map, Hr; apply Qle_refl.
Qed.

Lemma price_within_trans (df cur : list Product.t) (m : Q) :
  (forall r p, In r cur -> Product.price r = Some p -> price_within df p) ->
  price_within cur m -> price_within df m.
Proof.
  intros Hcur (a & b & Ha & Hb & Ham & Hmb).
  apply in_map_iff in Ha as (ra & Epa & Hra). apply in_map_iff in Hb as (rb & Epb & Hrb).
  destruct (Hcur ra a Hra Epa) as (a1 & _ & Ha1 & _ & Hle1 & _).
  destruct (Hcur rb b Hrb Epb) as (_ & b2 & _ & Hb2 & _ & Hle2).
  exists a1, b2. repeat split; auto.
  - exact (Qle_trans _ _ _ Hle1 Ham).
  - exact (Qle_trans _ _ _ Hmb Hle2).
Qed.

Lemma category_median_within (df : list Product.t) (c : string) (m : Q) :
  category_medians df !! c = Some (Some m) -> price_within df m.
Proof.
  rewrite category_medians_lookup. destruct (decide _); [|discriminate].
  intros [= Hm]. apply median_between in Hm as (a & b & Ha & Hb & Hle).
  exists a, b. unfold prices_of_category in Ha, Hb.
  apply in_map_iff in Ha as (ra & Ea & Hra). apply filter_In in Hra as [Hra _].
  apply in_map_iff in Hb as (rb & Eb & Hrb). apply filter_In in Hrb as [Hrb _].
  rewrite <- Ea, <- Eb. repeat split; try (apply in_map; assumption); apply Hle.
Qed.

Lemma fill_price_at_within (df cur : list Product.t) (idx : nat) :
  (forall r p, In r cur -> Product.price r = Some p -> price_within df p) ->
  forall r p, In r (fill_price_at (category_medians df) cur idx) ->
              Product.price r = Some p -> price_within df p.
Proof.
  intros Hcur r p. unfold fill_price_at.
  destruct (cur !! idx) as [row|] eqn:Erow; [|apply Hcur].
  intros Hr Hp. apply list_elem_of_In, list_elem_of_lookup in Hr as [j Hj].
  destruct (decide (j = idx)) as [->|Hne].
  - rewrite list_lookup_insert_eq in Hj by (eapply lookup_lt_Some, Erow).
    injection Hj as <-. cbn [set_price Product.price] in Hp.
    unfold fill_value in Hp.
    destruct (Product.category row ≫= _) as [[m|]|] eqn:Em.
    + injection Hp as <-.
      destruct (Product.category row) as [c|]; [|discriminate].
      exact (category_median_within df c m Em).
    + apply (price_within_trans df cur p Hcur).
      apply median_between in Hp as (a & b & Hab). exists a, b. exact Hab.
    + apply (price_within_trans df cur p Hcur).
      apply median_between in Hp as (a & b & Hab). exists a, b. exact Hab.
  - rewrite list_lookup_insert_ne in Hj by auto.
    apply (Hcur r p); [|exact Hp]. apply list_elem_of_In, list_elem_of_lookup. eauto.
Qed.

Lemma fill_missing_prices_within (df : list Product.t) (r : Product.t) (p : Q) :
  In r (fill_missing_prices df) -> Product.price r = Some p -> price_within df p.
Proof.
  unfold fill_missing_prices.
  destruct (0 <? Pd.count_na Product.price df)%nat; [|apply price_within_present].
  assert (Hgen : forall idxs cur,
             (forall r p, In r cur -> Product.price r = Some p -> price_within df p) ->
             forall r p, In r (fold_left (fill_price_at (category_medians df)) idxs cur) ->
                         Product.price r = Some p -> price_within df p).
  { induction idxs as [|i idxs IH]; intros cur Hcur; [exact Hcur|].
    cbn [fold_left]. apply IH, fill_price_at_within, Hcur. }
  revert r p. apply Hgen. intros r p. apply price_within_present.
Qed.

(** X16.  No price is invented out of range: the price of every cleansed
    product, kept or filled, lies between two prices that raw product
    records carry (a filled price is a median of such prices, or a median of
    prices already within that range). *)
Theorem cleansed_price_within_raw_prices (raw : list Product.t) (x : Z * Product.t)
        (p : Q) :
  In x (transform_products raw) ->
  Product.price x.2 = Some p ->
  price_within raw p.
Proof.
  intros Hx Hp. apply list_elem_of_In, list_elem_of_lookup in Hx as [i Hi].
  destruct x as [id r']. apply transform_products_row in Hi as (r & q & _ & Hf & _ & ->).
  cbn in Hp. subst q.
  apply list_elem_of_lookup_2, list_elem_of_In in Hf.
  apply fill_missing_prices_within with (p := p) in Hf; [|reflexivity].
  destruct Hf as (a & b & Ha & Hb & Hle). exists a, b.
  assert (Hsub : forall y, In y (List.map Product.price
                                   (Pd.drop_duplicates Product.product_id raw)) ->
                           In y (List.map Product.price raw)).
  { intros y Hy. apply in_map_iff in Hy as (ry & <- & Hry). apply in_map.
    apply drop_duplicates_In in Hry as (pre & post & -> & _).
    apply in_or_app. right. left. reflexivity. }
  auto.
Qed.

Lemma cleansed_price_within_raw_prices_witness :
  price_within [Sample.product "P1" (Some "Office") (Some (10 # 1));
                Sample.product "P2" (Some "Office") None;
                Sample.product "P3" (Some "Office") (Some (30 # 1))] (40 # 2).
Proof.
  apply (cleansed_price_within_raw_prices _
           (2, Sample.product "P2" (Some "Office") (Some (40 # 2)))).
  - vm_compute. right. left. reflexivity.
  - reflexivity.
Defined.

(** ** Category labels *)

Lemma is_space_to_lower (c : ascii) : Text.is_space (Text.to_lower c) = Text.is_space c.
Proof. by_character c. Qed.

Lemma is_space_to_upper (c : ascii) : Text.is_space (Text.to_upper c) = Text.is_space c.
Proof. by_character c. Qed.

Lemma is_cased_to_lower (c : ascii) : Text.is_cased (Text.to_lower c) = Text.is_cased c.
Proof. by_character c. Qed.

Lemma is_cased_to_upper (c : ascii) : Text.is_cased (Text.to_upper c) = Text.is_cased c.
Proof. by_character c. Qed.

Lemma to_lower_to_lower (c : ascii) : Text.to_lower (Text.to_lower c) = Text.to_lower c.
Proof. by_character c. Qed.

Lemma to_upper_to_upper (c : ascii) : Text.to_upper (Text.to_upper c) = Text.to_upper c.
Proof. by_character c. Qed.

Lemma to_upper_to_lower (c : ascii) : Text.to_upper (Text.to_lower c) = Text.to_upper c.
Proof. by_character c. Qed.

Lemma title_from_lower (b : bool) (s : string) :
  Text.title_from b (Text.lower s) = Text.title_from b s.
Proof.
  revert b. induction s as [|c s IH]; intros b; [reflexivity|].
  cbn [Text.lower Text.title_from]. rewrite is_cased_to_lower, IH.
  destruct b; [rewrite to_lower_to_lower | rewrite to_upper_to_lower]; reflexivity.
Qed.

Lemma lower_lstrip (s : string) : Text.lower (Text.lstrip s) = Text.lstrip (Text.lower s).
Proof.
  induction s as [|c s IH]; [reflexivity|].
  cbn [Text.lower Text.lstrip]. rewrite is_space_to_lower.
  destruct (Text.is_space c); [exact IH | reflexivity].
Qed.

Lemma lower_rstrip (s : string) : Text.lower (Text.rstrip s) = Text.rstrip (Text.lower s).
Proof.
  induction s as [|c s IH]; [reflexivity|].
  cbn [Text.lower Text.rstrip]. rewrite <- IH, is_space_to_lower.
  destruct (Text.rstrip s); cbn [Text.lower]; [destruct (Text.is_space c)|]; reflexivity.
Qed.

Lemma title_from_idempotent (b : bool) (s : string) :
  Text.title_from b (Text.title_from b s) = Text.title_from b s.
Proof.
  revert b. induction s as [|c s IH]; intros b; [reflexivity|].
  cbn [Text.title_from]. f_equal.
  - destruct b; [apply to_lower_to_lower | apply to_upper_to_upper].
  - replace (Text.is_cased (if b then Text.to_lower c else Text.to_upper c))
      with (Text.is_cased c); [apply IH|].
    destruct b; [rewrite is_cased_to_lower | rewrite is_cased_to_upper]; reflexivity.
Qed.

Lemma title_from_empty (b : bool) (s : string) : Text.title_from b s = "" -> s = "".
Proof. destruct s; [reflexivity | discriminate]. Qed.

Lemma is_space_title_char (b : bool) (c : ascii) :
  Text.is_space (if b then Text.to_lower c else Text.to_upper c) = Text.is_space c.
Proof. destruct b; [apply is_space_to_lower | apply is_space_to_upper]. Qed.

(** A text without a blank at either end stays so under [title]. *)
Lemma lstrip_title_from (b : bool) (s : string) :
  Text.lstrip s = s -> Text.lstrip (Text.title_from b s) = Text.title_from b s.
Proof.
  destruct s as [|c s]; [reflexivity|]. cbn [Text.lstrip Text.title_from].
  rewrite is_space_title_char. destruct (Text.is_space c) eqn:Ec; [|reflexivity].
  intros E. exfalso.
  assert (Hlen : forall t, (String.length (Text.lstrip t) <= String.length t)%nat).
  { induction t as [|a t IH]; [cbn; lia|]. cbn [Text.lstrip].
    destruct (Text.is_space a); cbn [String.length]; lia. }
  specialize (Hlen s). rewrite E in Hlen. cbn in Hlen. lia.
Qed.

Lemma rstrip_title_from (b : bool) (s : string) :
  Text.rstrip s = s -> Text.rstrip (Text.title_from b s) = Text.title_from b s.
Proof.
  revert b. induction s as [|c s IH]; intros b; [reflexivity|].
  cbn [Text.rstrip Text.title_from]. destruct (Text.rstrip s) as [|a r] eqn:Er.
  - destruct (Text.is_space c) eqn:Ec; [discriminate|]. intros [= <-].
    cbn [Text.title_from Text.rstrip]. rewrite is_space_title_char, Ec. reflexivity.
  - intros [= <-]. rewrite (IH (Text.is_cased c) eq_refl).
    destruct (Text.title_from (Text.is_cased c) (String a r)) eqn:Et; [discriminate|].
    reflexivity.
Qed.

Lemma rstrip_idempotent (s : string) : Text.rstrip (Text.rstrip s) = Text.rstrip s.
Proof.
  induction s as [|c s IH]; [reflexivity|]. cbn [Text.rstrip].
  destruct (Text.rstrip s) as [|a r] eqn:Er.
  - destruct (Text.is_space c) eqn:Ec; [reflexivity|].
    cbn [Text.rstrip]. rewrite Ec. reflexivity.
  - cbn [Text.rstrip] in *. rewrite IH. reflexivity.
Qed.

Lemma lstrip_head (s : string) :
  match Text.lstrip s with
  | EmptyString => True
  | String c _ => Text.is_space c = false
  end.
Proof.
  induction s as [|c s IH]; [exact I|]. cbn [Text.lstrip].
  destruct (Text.is_space c) eqn:Ec; [exact IH | exact Ec].
Qed.

Lemma strip_strip (s : string) : Text.strip (Text.strip s) = Text.strip s.
Proof.
  unfold Text.strip. pose proof (lstrip_head s) as Hh.
  destruct (Text.lstrip s) as [|c w]; [reflexivity|].
  assert (E : Text.lstrip (Text.rstrip (String c w)) = Text.rstrip (String c w)).
  { cbn [Text.rstrip]. destruct (Text.rstrip w).
    - rewrite Hh. cbn [Text.lstrip]. rewrite Hh. reflexivity.
    - cbn [Text.lstrip]. rewrite Hh. reflexivity. }
  rewrite E. apply rstrip_idempotent.
Qed.

Lemma strip_fixed (s : string) :
  Text.strip s = s -> Text.lstrip s = s /\ Text.rstrip s = s.
Proof.
  unfold Text.strip. intros E. pose proof (lstrip_head s) as Hh.
  assert (Hl : Text.lstrip s = s).
  { destruct s as [|c s]; [reflexivity|]. cbn [Text.lstrip] in *.
    destruct (Text.is_space c) eqn:Ec; [|reflexivity]. exfalso.
    destruct (Text.lstrip s) as [|a w] eqn:El; [discriminate|].
    cbn [Text.rstrip] in E.
    destruct (Text.rstrip w); [rewrite Hh in E|]; injection E as -> _; congruence. }
  rewrite Hl in E. auto.
Qed.

(** X17.  Category labels that differ only in the case of their letters get
    the same standardized label. *)
Theorem standardize_category_ignores_case (s t : string) :
  Text.lower s = Text.lower t ->
  standardize_category (Some s) = standardize_category (Some t).
Proof.
  intros E. unfold standardize_category.
  destruct s as [|a s], t as [|b t]; try discriminate; [reflexivity|].
  cbn [String.eqb]. f_equal. unfold Text.title, Text.strip.
  rewrite <- (title_from_lower false (Text.rstrip (Text.lstrip (String a s)))).
  rewrite <- (title_from_lower false (Text.rstrip (Text.lstrip (String b t)))).
  rewrite !lower_rstrip, !lower_lstrip, E. reflexivity.
Qed.

Lemma standardize_category_ignores_case_witness :
  standardize_category (Some " home APPLIANCES") = standardize_category (Some " Home appliances").
Proof.
  apply standardize_category_ignores_case. reflexivity.
Defined.

(** X18.  Standardizing is idempotent on every label it produces, the empty
    one apart: a standardized label has no blank at either end and is in
    title case already.  (A label of blanks only standardizes to the empty
    text, and the empty text to a missing label.) *)
Theorem standardize_category_idempotent (category : option string) :
  standardize_category category <> Some "" ->
  standardize_category (standardize_category category) = standardize_category category.
Proof.
  destruct category as [s|]; [|reflexivity]. unfold standardize_category at 1 3 4.
  destruct (String.eqb s ""); [reflexivity|]. intros Hne.
  set (u := Text.strip s) in *. unfold standardize_category.
  destruct (String.eqb_spec (Text.title u) ""); [congruence|]. f_equal.
  destruct (strip_fixed u (strip_strip s)) as [Hl Hr].
  unfold Text.title, Text.strip.
  rewrite (lstrip_title_from false u Hl), (rstrip_title_from false u Hr).
  apply title_from_idempotent.
Qed.

Lemma standardize_category_idempotent_witness :
  standardize_category (standardize_category (Some " home APPLIANCES "))
  = standardize_category (Some " home APPLIANCES ").
Proof.
  apply standardize_category_idempotent. discriminate.
Defined.

Lemma lstrip_blank (s : string) :
  Forall (fun c => Text.is_space c = true) (list_ascii_of_string s) -> Text.lstrip s = "".
Proof.
  induction s as [|c s IH]; [reflexivity|]. cbn [list_ascii_of_string Text.lstrip].
  intros H. apply Forall_cons in H as [-> H]. exact (IH H).
Qed.

(** X19.  Only the empty text and a missing cell count as no category: a
    label made of blanks alone is not treated as missing, it standardizes
    to the empty label (which [load_products] then stores as it is, not as
    [Unknown]). *)
Theorem standardize_category_blank_label (s : string) :
  s <> "" ->
  Forall (fun c => Text.is_space c = true) (list_ascii_of_string s) ->
  standardize_category (Some s) = Some "" /\
  forall r, Product.category r = Some s ->
            Db.category (product_values (clean_category r)) = "".
Proof.
  intros Hne Hs.
  assert (E : standardize_category (Some s) = Some "").
  { unfold standardize_category. destruct (String.eqb_spec s ""); [contradiction|].
    unfold Text.strip. rewrite (lstrip_blank s Hs). reflexivity. }
  split; [exact E|]. intros r Hr. cbn. rewrite Hr, E. reflexivity.
Qed.

Lemma standardize_category_blank_label_witness :
  standardize_category (Some "  ") = Some "".
Proof.
  apply (standardize_category_blank_label "  "); [discriminate|].
  repeat constructor.
Defined.

(** ** Products: one row per product id *)

Lemma length_transform_products (raw : list Product.t) :
  length (transform_products raw)
  = length (Pd.drop_duplicates Product.product_id raw).
Proof.
  unfold transform_products. rewrite length_add_surrogate_key, length_map.
  destruct (0 <? _)%nat; [rewrite length_map|]; apply length_fill_missing_prices.
Qed.

(** The cleansed row at a position, from the deduplicated row there. *)
Lemma transform_products_at (raw : list Product.t) (i : nat) (r : Product.t) :
  Pd.drop_duplicates Product.product_id raw !! i = Some r ->
  exists p,
    transform_products raw !! i
    = Some (Z.of_nat i + 1,
            Product.mk (Product.product_id r) (Product.product_name r)
                       (standardize_category (Product.category r)) p
                       (Some (default 0 (Product.stock_quantity r)))) /\
    forall q, Product.price r = Some q -> p = Some q.
Proof.
  intros Hr.
  destruct (lookup_lt_is_Some_2 (transform_products raw) i) as [[id r'] Hx].
  { rewrite length_transform_products. exact (lookup_lt_Some _ _ _ Hr). }
  destruct (transform_products_row raw i id r' Hx) as (r0 & p & Hr0 & Hf & -> & ->).
  rewrite Hr in Hr0. injection Hr0 as <-.
  exists p. split; [exact Hx|]. intros q Hq.
  destruct (fill_missing_prices_row _ i r Hr) as (_ & p' & Hf' & Hkeep & _).
  rewrite Hf in Hf'. injection Hf' as ->. exact (Hkeep q Hq).
Qed.

(** X20.  Product cleansing keeps one row per product id, the first one: the
    surrogate keys of the result are 1, 2, ..., N in row order; no two
    cleansed products share a product id; every raw product id is still
    present; and the cleansed row of an id carries the name of the first raw
    row with that id, its category standardized, its stock with 0 for a
    missing one, and its price when it has one. *)
Theorem transform_products_keeps_first_occurrence (raw : list Product.t) :
  let out := transform_products raw in
  List.map fst out = List.map (fun i => Z.of_nat i + 1) (seq 0 (length out)) /\
  List.NoDup (List.map (fun x => Product.product_id x.2) out) /\
  (forall r, In r raw ->
             exists x, In x out /\ Product.product_id x.2 = Product.product_id r) /\
  (forall pre r post,
      raw = (pre ++ r :: post)%list ->
      Product.product_id r ∉ List.map Product.product_id pre ->
      exists x, In x out /\
                Product.product_id x.2 = Product.product_id r /\
                Product.product_name x.2 = Product.product_name r /\
                Product.category x.2 = standardize_category (Product.category r) /\
                Product.stock_quantity x.2
                = Some (default 0 (Product.stock_quantity r)) /\
                (forall q, Product.price r = Some q -> Product.price x.2 = Some q)).
Proof.
  intros out.
  assert (Hin : forall r, In r (Pd.drop_duplicates Product.product_id raw) ->
            exists x, In x out /\
                Product.product_id x.2 = Product.product_id r /\
                Product.product_name x.2 = Product.product_name r /\
                Product.category x.2 = standardize_category (Product.category r) /\
                Product.stock_quantity x.2
                = Some (default 0 (Product.stock_quantity r)) /\
                (forall q, Product.price r = Some q -> Product.price x.2 = Some q)).
  { intros r Hr. apply list_elem_of_In, list_elem_of_lookup in Hr as [i Hi].
    destruct (transform_products_at raw i r Hi) as (p & Hx & Hp).
    eexists. split; [apply list_elem_of_In, list_elem_of_lookup_2 with i, Hx|].
    cbn. auto. }
  assert (Hkeys : List.map (fun x => Product.product_id x.2) out
                  = List.map Product.product_id
                             (Pd.drop_duplicates Product.product_id raw)).
  { apply list_eq. intros i. rewrite !lookup_map.
    destruct (Pd.drop_duplicates Product.product_id raw !! i) as [r|] eqn:Hi.
    - destruct (transform_products_at raw i r Hi) as (p & Hx & _).
      unfold out. rewrite Hx. reflexivity.
    - apply lookup_ge_None in Hi. rewrite <- length_transform_products in Hi.
      apply lookup_ge_None in Hi. unfold out. rewrite Hi. reflexivity. }
  split; [|split; [|split]].
  - unfold out at 1 2. unfold transform_products.
    rewrite map_fst_add_surrogate_key, length_add_surrogate_key. reflexivity.
  - rewrite Hkeys. apply drop_duplicates_NoDup.
  - intros r Hr.
    destruct (drop_duplicates_keys Product.product_id raw r Hr) as (r' & Hr' & Hk).
    destruct (Hin r' Hr') as (x & Hx & Hid & _). exists x. split; [exact Hx|]. congruence.
  - intros pre r post E Hfirst. apply Hin, drop_duplicates_In. eauto.
Qed.

Lemma transform_products_keeps_first_occurrence_witness :
  exists x, In x (transform_products
                    [Sample.product "P1" (Some "office") (Some (10 # 1));
                     Sample.product "P1" (Some "toys") None]) /\
            Product.category x.2 = Some "Office" /\
            Product.price x.2 = Some (10 # 1).
Proof.
  destruct (transform_products_keeps_first_occurrence
              [Sample.product "P1" (Some "office") (Some (10 # 1));
               Sample.product "P1" (Some "toys") None]) as (_ & _ & _ & H0).
  destruct (H0 [] (Sample.product "P1" (Some "office") (Some (10 # 1)))
               [Sample.product "P1" (Some "toys") None] eq_refl)
    as (x & Hx & _ & _ & Hc & _ & Hp); [apply not_elem_of_nil|].
  exists x. split; [exact Hx|]. split; [exact Hc | apply Hp; reflexivity].
Defined.

(** ** Aggregation: no line is lost, none counted twice *)

Lemma NoDup_insert_sorted {A} (leb : A -> A -> bool) (x : A) (l : list A) :
  ~ In x l -> List.NoDup l -> List.NoDup (Pd.insert_sorted leb x l).
Proof.
  induction l as [|a l IH]; intros Hx Hl; cbn [Pd.insert_sorted].
  - constructor; [exact Hx | constructor].
  - destruct (leb x a); [constructor; assumption|].
    apply NoDup_cons_iff in Hl as [Ha Hl]. constructor.
    + rewrite In_insert_sorted. intros [->|H0]; [apply Hx; left; reflexivity | auto].
    + apply IH; [|exact Hl]. intros H0. apply Hx. right. exact H0.
Qed.

Lemma NoDup_sort {A} (leb : A -> A -> bool) (l : list A) :
  List.NoDup l -> List.NoDup (Pd.sort leb l).
Proof.
  induction l as [|a l IH]; intros Hl; [constructor|].
  apply NoDup_cons_iff in Hl as [Ha Hl]. cbn [Pd.sort foldr]. fold (Pd.sort leb l).
  apply NoDup_insert_sorted; [|auto]. rewrite In_sort. exact Ha.
Qed.

Lemma NoDup_unique {A} `{EqDecision A} (l : list A) : List.NoDup (Pd.unique l).
Proof.
  induction l as [|a l IH]; [constructor|]. cbn [Pd.unique]. constructor.
  - intros H0. apply filter_In in H0 as [_ H0].
    rewrite bool_decide_eq_true_2 in H0 by reflexivity. discriminate.
  - apply List.NoDup_filter, IH.
Qed.

Lemma filter_disjoint_Permutation {A} (p q : A -> bool) (l : list A) :
  (forall x, In x l -> p x = true -> q x = false) ->
  (List.filter p l ++ List.filter q l)%list ≡ₚ List.filter (fun x => p x || q x) l.
Proof.
  induction l as [|a l IH]; intros Hd; [reflexivity|].
  assert (IH' := IH (fun x Hx => Hd x (or_intror Hx))).
  cbn [List.filter]. destruct (p a) eqn:Ep.
  - rewrite (Hd a (or_introl eq_refl) Ep). cbn. constructor. exact IH'.
  - destruct (q a); cbn [orb]; [|exact IH'].
    rewrite <- Permutation_middle. constructor. exact IH'.
Qed.

(** The groups of [groupby] partition the rows that have a key. *)
Lemma groups_partition {A K} `{EqDecision K} (f : A -> option K) (ks : list K)
      (df : list A) :
  List.NoDup ks ->
  flat_map (fun k => List.filter (fun l => bool_decide (f l = Some k)) df) ks
  ≡ₚ List.filter (fun l => existsb (fun k => bool_decide (f l = Some k)) ks) df.
Proof.
  induction ks as [|k ks IH]; intros Hnd.
  - cbn. induction df as [|a df IHdf]; [reflexivity | exact IHdf].
  - apply NoDup_cons_iff in Hnd as [Hk Hnd]. cbn [flat_map existsb].
    rewrite (IH Hnd). apply filter_disjoint_Permutation.
    intros x _ Hx. apply bool_decide_eq_true in Hx.
    apply not_true_is_false. intros H0. apply existsb_exists in H0 as (k' & Hk' & E).
    apply bool_decide_eq_true in E. congruence.
Qed.

Lemma build_orders_payload (grouped : list ((Z * string) * list Line.t)) (n : Z)
      (orders : list Order.t) (items : list OrderItem.t) :
  build_orders grouped n = Some (orders, items) ->
  List.map item_payload items = flat_map (fun kg => List.map line_payload kg.2) grouped /\
  List.map (fun o => (Order.customer_id o, Order.order_date o)) orders
  = List.map fst grouped.
Proof.
  revert n orders items. induction grouped as [|[[c d] g] rest IH]; intros n orders items.
  - intros [= <- <-]. split; reflexivity.
  - cbn [build_orders].
    destruct (mapM (make_item n) g) as [its|] eqn:Eg; [|discriminate].
    destruct (build_orders rest (n + 1)) as [[orders' items']|] eqn:Er; [|discriminate].
    intros [= <- <-]. destruct (IH _ _ _ Er) as [IH1 IH2]. split.
    + rewrite map_app, IH1. cbn [flat_map snd]. f_equal.
      apply mapM_Some in Eg. clear -Eg.
      induction Eg as [|l it g its Hl _ IHg]; [reflexivity|].
      cbn [List.map]. rewrite IHg. f_equal.
      apply make_item_fields in Hl as (_ & Hs & Hu & (q & Hq & Hqi) & Hp).
      unfold item_payload, line_payload. rewrite Hs, Hu, Hq, Hqi, Hp. reflexivity.
    + cbn [List.map fst Order.customer_id Order.order_date]. rewrite IH2. reflexivity.
Qed.

Lemma flat_map_map {A B C} (f : A -> list B) (g : B -> C) (l : list A) :
  flat_map (fun x => List.map g (f x)) l = List.map g (flat_map f l).
Proof.
  induction l as [|a l IH]; [reflexivity|]. cbn [flat_map]. rewrite map_app, IH. reflexivity.
Qed.

(** The items of the aggregator are, up to their order, the lines that have
    a key, each once. *)
Lemma items_are_the_keyed_lines (df : list Line.t) (n : Z) (orders : list Order.t)
      (items : list OrderItem.t) :
  build_orders (groupby df) n = Some (orders, items) ->
  List.map item_payload items
  ≡ₚ List.map line_payload
       (List.filter (fun l => bool_decide (is_Some (group_key l))) df).
Proof.
  intros Hb. destruct (build_orders_payload _ _ _ _ Hb) as [Hitems _].
  assert (Hnd : List.NoDup (Pd.sort key_leb (Pd.unique (omap group_key df))))
    by apply NoDup_sort, NoDup_unique.
  rewrite Hitems. unfold groupby. rewrite flat_map_concat_map, List.map_map.
  rewrite <- flat_map_concat_map. cbn [snd].
  rewrite (flat_map_map (fun k => List.filter (fun l => bool_decide (group_key l = Some k)) df)
                        line_payload).
  apply Permutation_map. rewrite (groups_partition group_key _ df Hnd).
  erewrite filter_ext_in; [reflexivity|]. intros l Hl. cbn beta.
  destruct (group_key l) as [k|] eqn:Ek.
  - rewrite bool_decide_eq_true_2 by eauto. apply existsb_exists.
    exists k. split; [|apply bool_decide_eq_true_2; reflexivity].
    apply (In_sort key_leb), In_unique, list_elem_of_In, list_elem_of_omap.
    exists l. split; [apply list_elem_of_In, Hl | exact Ek].
  - rewrite bool_decide_eq_false_2 by (intros [? ?]; discriminate).
    apply not_true_is_false. intros H0. apply existsb_exists in H0 as (k & _ & E).
    apply bool_decide_eq_true in E. discriminate.
Qed.

(** X21.  Aggregating splits the surviving lines into orders without losing
    or repeating any: there is one order per (customer, date) pair that
    occurs, no two orders share the pair, every order has an item, and the
    items are, up to their order, exactly the lines that have a customer and
    a date, each once. *)
Theorem aggregation_partitions_lines (sales : list (Z * Sale.t))
        (cm pm : gmap string Z) (orders : list Order.t) (items : list OrderItem.t) :
  transform_sales_to_orders sales cm pm = Some (orders, items) ->
  List.NoDup (List.map (fun o => (Order.customer_id o, Order.order_date o)) orders) /\
  (forall l, In l (sales_lines sales cm pm) ->
             forall k, group_key l = Some k ->
                       exists o, In o orders /\
                                 (Order.customer_id o, Order.order_date o) = k) /\
  (forall o, In o orders ->
             exists it, In it items /\ OrderItem.order_id it = Order.order_id o) /\
  List.map item_payload items
  ≡ₚ List.map line_payload
       (List.filter (fun l => bool_decide (is_Some (group_key l)))
                    (sales_lines sales cm pm)).
Proof.
  unfold transform_sales_to_orders. destruct (length sales =? 0)%nat eqn:El.
  { intros [= <- <-]. destruct sales; [|discriminate].
    repeat split; try constructor; intros ? []. }
  set (df := sales_lines sales cm pm). intros Hb.
  destruct (build_orders_payload _ _ _ _ Hb) as [Hitems Hkeys].
  assert (Hnd : List.NoDup (Pd.sort key_leb (Pd.unique (omap group_key df))))
    by apply NoDup_sort, NoDup_unique.
  assert (Hmem : forall l k, In l df -> group_key l = Some k ->
                             In k (Pd.sort key_leb (Pd.unique (omap group_key df)))).
  { intros l k Hl Hk. apply (In_sort key_leb), In_unique, list_elem_of_In, list_elem_of_omap.
    exists l. split; [apply list_elem_of_In, Hl | exact Hk]. }
  assert (Hfst : List.map fst (groupby df)
                 = Pd.sort key_leb (Pd.unique (omap group_key df))).
  { unfold groupby. rewrite List.map_map. apply map_id. }
  split; [|split; [|split]].
  - rewrite Hkeys, Hfst. exact Hnd.
  - intros l Hl k Hk. specialize (Hmem l k Hl Hk). rewrite <- Hfst, <- Hkeys in Hmem.
    apply in_map_iff in Hmem as (o & Ho & Hin). eauto.
  - intros o Ho. destruct (build_orders_order _ _ _ _ o Hb Ho) as (k & g & Hg & _ & Hm).
    apply groupby_group in Hg as [_ Hne].
    destruct g as [|l g]; [contradiction|].
    apply mapM_Some in Hm. inversion Hm as [|? it ? its _ _ E1 E2].
    assert (Hit : In it (List.filter (fun it => OrderItem.order_id it =? Order.order_id o)
                                     items)) by (rewrite <- E2; left; reflexivity).
    apply filter_In in Hit as [Hit Hid]. exists it. split; [exact Hit | lia].
  - exact (items_are_the_keyed_lines df 1 orders items Hb).
Qed.

Lemma aggregation_partitions_lines_witness :
  List.NoDup (List.map (fun o => (Order.customer_id o, Order.order_date o)) Cases.orders).
Proof.
  eassert (Ht : transform_sales_to_orders (sales_df Sample.two_days)
                  {["C001" := 1]} {["P001" := 1]} = Some (Cases.orders, _))
    by (vm_compute; reflexivity).
  exact (proj1 (aggregation_partitions_lines _ _ _ _ _ Ht)).
Defined.

(** ** A load that nothing stands in the way of *)

Lemma length_numbered {R} (n : Z) (rows : list R) : length (numbered n rows) = length rows.
Proof. apply length_imap. Qed.

Lemma numbered_app {R} (n : Z) (rows more : list R) :
  numbered n (rows ++ more)
  = (numbered n rows ++ numbered (n + Z.of_nat (length rows)) more)%list.
Proof.
  revert n. induction rows as [|r rows IH]; intros n.
  - cbn [app length numbered imap]. rewrite Z.add_0_r. reflexivity.
  - cbn [app]. rewrite !numbered_cons, IH. cbn [app length]. do 3 f_equal. lia.
Qed.

Lemma has_key_numbered {R} (n : Z) (rows : list R) (i : nat) :
  (i < length rows)%nat -> Db.has_key (n + Z.of_nat i) (numbered n rows) = true.
Proof.
  intros Hi. destruct (lookup_lt_is_Some_2 rows i Hi) as [r Hr].
  apply existsb_exists. exists (n + Z.of_nat i, r). split; [|apply Z.eqb_refl].
  apply list_elem_of_In, list_elem_of_lookup. exists i.
  unfold numbered. rewrite list_lookup_imap, Hr. reflexivity.
Qed.

Section FreshLoad.

Variable fault : Db.conn -> Db.stmt -> bool.
Hypothesis no_fault : forall c s, fault c s = false.

(** With nothing refused, the purge empties the four tables. *)
Lemma clear_existing_data_empties (c : Db.conn) :
  clear_existing_data fault c
  = Db.mk_conn (Db.connected c) (Db.mk_tables [] [] [] []) (Db.mk_tables [] [] [] [])
               (Db.next_customer_id c) (Db.next_product_id c) (Db.next_order_id c)
               (Db.next_order_item_id c).
Proof.
  unfold clear_existing_data, execute_all, Db.execute. rewrite !no_fault. reflexivity.
Qed.

(** The customers' loop runs to its end when no email repeats, among the
    rows and against the table. *)
Lemma insert_customers_runs (rows : list (Z * Customer.t)) :
  forall (c : Db.conn) (m0 : gmap string Z),
    List.NoDup (List.map (fun r => Db.email r.2) (Db.customers (Db.pending c))
                ++ List.map (fun r => py_str (Customer.email r.2)) rows)%list ->
    exists m,
      insert_rows fault (fun r => Db.InsertCustomer (customer_values r.2))
                  (fun r => py_str (Customer.customer_id r.2)) c rows m0
      = Ran (Db.mk_conn (Db.connected c) (Db.committed c)
               (Db.mk_tables
                  (Db.customers (Db.pending c)
                   ++ loaded (Db.next_customer_id c) (fun r => customer_values r.2) rows)
                  (Db.products (Db.pending c)) (Db.orders (Db.pending c))
                  (Db.order_items (Db.pending c)))
               (Db.next_customer_id c + Z.of_nat (length rows)) (Db.next_product_id c)
               (Db.next_order_id c) (Db.next_order_item_id c)) m.
Proof.
  induction rows as [|r rows IH]; intros c m0 Hnd.
  - exists m0. cbn [insert_rows]. f_equal. destruct c as [? ? [] ? ? ? ?].
    unfold loaded. cbn. rewrite app_nil_r, Z.add_0_r. reflexivity.
  - cbn [insert_rows]. unfold Db.execute. rewrite no_fault.
    assert (Hfree : existsb (fun x => String.eqb (Db.email x.2)
                                        (Db.email (customer_values r.2)))
                            (Db.customers (Db.pending c)) = false).
    { apply not_true_is_false. intros H0. apply existsb_exists in H0 as (x & Hx & E).
      apply String.eqb_eq in E. cbn [List.map] in Hnd.
      apply NoDup_remove_2 in Hnd. apply Hnd, in_or_app. left.
      apply in_map_iff. exists x. split; [exact E | exact Hx]. }
    rewrite Hfree.
    match goal with |- context [insert_rows _ _ _ ?c1 rows ?m1] =>
      destruct (IH c1 m1) as [m Hm] end.
    + cbn [Db.pending Db.customers]. rewrite map_app. cbn [List.map snd].
      rewrite <- app_assoc. exact Hnd.
    + exists m. rewrite Hm. f_equal.
      cbn [Db.connected Db.committed Db.pending Db.customers Db.products Db.orders
           Db.order_items Db.next_customer_id Db.next_product_id Db.next_order_id
           Db.next_order_item_id].
      unfold loaded. cbn [List.map length]. rewrite numbered_cons, <- app_assoc.
      cbn [app]. f_equal. lia.
Qed.

Lemma insert_products_runs (rows : list (Z * Product.t)) :
  forall (c : Db.conn) (m0 : gmap string Z),
    exists m,
      insert_rows fault (fun r => Db.InsertProduct (product_values r.2))
                  (fun r => py_str (Product.product_id r.2)) c rows m0
      = Ran (Db.mk_conn (Db.connected c) (Db.committed c)
               (Db.mk_tables
                  (Db.customers (Db.pending c))
                  (Db.products (Db.pending c)
                   ++ loaded (Db.next_product_id c) (fun r => product_values r.2) rows)
                  (Db.orders (Db.pending c)) (Db.order_items (Db.pending c)))
               (Db.next_customer_id c) (Db.next_product_id c + Z.of_nat (length rows))
               (Db.next_order_id c) (Db.next_order_item_id c)) m.
Proof.
  induction rows as [|r rows IH]; intros c m0.
  - exists m0. cbn [insert_rows]. f_equal. destruct c as [? ? [] ? ? ? ?].
    unfold loaded. cbn. rewrite app_nil_r, Z.add_0_r. reflexivity.
  - cbn [insert_rows]. unfold Db.execute. rewrite no_fault.
    match goal with |- context [insert_rows _ _ _ ?c1 rows ?m1] =>
      destruct (IH c1 m1) as [m Hm] end.
    exists m. rewrite Hm. f_equal.
    cbn [Db.connected Db.committed Db.pending Db.customers Db.products Db.orders
         Db.order_items Db.next_customer_id Db.next_product_id Db.next_order_id
         Db.next_order_item_id].
    unfold loaded. cbn [List.map length]. rewrite numbered_cons, <- app_assoc.
    cbn [app]. f_equal. lia.
Qed.

(** The orders' loop runs to its end when every order names a customer of
    the table. *)
Lemma insert_orders_runs (rows : list Order.t) :
  forall (c : Db.conn) (m0 : gmap Z Z),
    (forall o, In o rows ->
               Db.has_key (Order.customer_id o) (Db.customers (Db.pending c)) = true) ->
    exists m,
      insert_rows fault (fun r => Db.InsertOrder (order_values r)) Order.order_id
                  c rows m0
      = Ran (Db.mk_conn (Db.connected c) (Db.committed c)
               (Db.mk_tables
                  (Db.customers (Db.pending c)) (Db.products (Db.pending c))
                  (Db.orders (Db.pending c)
                   ++ loaded (Db.next_order_id c) order_values rows)
                  (Db.order_items (Db.pending c)))
               (Db.next_customer_id c) (Db.next_product_id c)
               (Db.next_order_id c + Z.of_nat (length rows)) (Db.next_order_item_id c)) m.
Proof.
  induction rows as [|r rows IH]; intros c m0 Hfk.
  - exists m0. cbn [insert_rows]. f_equal. destruct c as [? ? [] ? ? ? ?].
    unfold loaded. cbn. rewrite app_nil_r, Z.add_0_r. reflexivity.
  - cbn [insert_rows]. unfold Db.execute. rewrite no_fault.
    cbn [order_values Db.customer_id]. rewrite (Hfk r) by (left; reflexivity).
    cbn [negb].
    match goal with |- context [insert_rows _ _ _ ?c1 rows ?m1] =>
      destruct (IH c1 m1) as [m Hm] end.
    + intros o Ho. apply Hfk. right. exact Ho.
    + exists m. rewrite Hm. f_equal.
      cbn [Db.connected Db.committed Db.pending Db.customers Db.products Db.orders
           Db.order_items Db.next_customer_id Db.next_product_id Db.next_order_id
           Db.next_order_item_id].
      unfold loaded. cbn [List.map length]. rewrite numbered_cons, <- app_assoc.
      cbn [app]. f_equal. lia.
Qed.

(** The items' loop runs to its end when every item resolves: its order id
    has an entry that is an order of the table, its product is in the table,
    and unit price and subtotal are present. *)
Lemma insert_order_items_runs (items : list OrderItem.t) (m : gmap Z Z) :
  forall c : Db.conn,
    (forall it, In it items ->
                exists row, order_item_row_of m it = Some row /\
                  Db.has_key (Db.order_id row) (Db.orders (Db.pending c)) = true /\
                  Db.has_key (Db.product_id row) (Db.products (Db.pending c)) = true) ->
    exists rows,
      mapM (order_item_row_of m) items = Some rows /\
      insert_order_items fault c items m
      = Ran (Db.mk_conn (Db.connected c) (Db.committed c)
               (Db.mk_tables
                  (Db.customers (Db.pending c)) (Db.products (Db.pending c))
                  (Db.orders (Db.pending c))
                  (Db.order_items (Db.pending c)
                   ++ numbered (Db.next_order_item_id c) rows))
               (Db.next_customer_id c) (Db.next_product_id c) (Db.next_order_id c)
               (Db.next_order_item_id c + Z.of_nat (length items))) tt.
Proof.
  induction items as [|it items IH]; intros c Hall.
  - exists []. split; [reflexivity|]. cbn [insert_order_items]. f_equal.
    destruct c as [? ? [] ? ? ? ?]. cbn. rewrite app_nil_r, Z.add_0_r. reflexivity.
  - destruct (Hall it (or_introl eq_refl)) as (row & Hrow & Hko & Hkp).
    pose proof Hrow as Hrow'. unfold order_item_row_of in Hrow'.
    destruct (m !! OrderItem.order_id it) as [db|] eqn:Em; [|discriminate].
    destruct (OrderItem.unit_price it) as [u|] eqn:Eu; [|discriminate].
    destruct (OrderItem.subtotal it) as [sub|] eqn:Es; [|discriminate].
    injection Hrow' as <-. cbn [Db.order_id Db.product_id] in Hko, Hkp.
    cbn [insert_order_items]. rewrite Em. unfold Db.execute.
    rewrite no_fault, Eu, Es, Hko, Hkp. cbn [negb orb].
    match goal with |- context [insert_order_items _ ?c1 items m] =>
      destruct (IH c1) as (rows & Hrows & Hrun) end.
    + intros it' Hit'. destruct (Hall it' (or_intror Hit')) as (row' & ? & ? & ?).
      exists row'. auto.
    + eexists. split.
      * cbn [mapM]. rewrite Hrow, Hrows. reflexivity.
      * rewrite Hrun. f_equal.
        cbn [Db.connected Db.committed Db.pending Db.customers Db.products Db.orders
             Db.order_items Db.next_customer_id Db.next_product_id Db.next_order_id
             Db.next_order_item_id].
        cbn [length]. rewrite numbered_cons, <- app_assoc. cbn [app]. f_equal. lia.
Qed.

End FreshLoad.

Lemma maps_rows_intro {A K} `{Countable K} (key : A -> K) (n : Z) (rows : list A)
      (m : gmap K Z) :
  (forall k, ~ In k (List.map key rows) -> m !! k = (∅ : gmap K Z) !! k) ->
  (forall i a, rows !! i = Some a -> m !! key a = Some (n + Z.of_nat i)) ->
  maps_rows m key n rows.
Proof.
  intros Hout Hin. split; [exact Hin|]. intros k v Hk.
  destruct (in_dec (fun x y => decide (x = y)) k (List.map key rows)) as [Hi|Hn].
  - apply in_map_iff in Hi as (a & <- & Ha).
    apply list_elem_of_In, list_elem_of_lookup in Ha as [i Hi].
    exists i, a. split; [exact Hi|]. split; [reflexivity|].
    rewrite (Hin i a Hi) in Hk. congruence.
  - rewrite (Hout k Hn), lookup_empty in Hk. discriminate.
Qed.

Lemma maps_rows_nil {A K} `{Countable K} (key : A -> K) (n : Z) :
  maps_rows (∅ : gmap K Z) key n [].
Proof.
  split; [intros i a Hi; destruct i; discriminate|].
  intros k v Hk. rewrite lookup_empty in Hk. discriminate.
Qed.

(** A key of the frame has an entry, and an entry is a key of the table the
    step filled. *)
Lemma maps_rows_key {A K R} `{Countable K} (key : A -> K) (n : Z) (rows : list A)
      (m : gmap K Z) (values : A -> R) (k : K) :
  maps_rows m key n rows -> In k (List.map key rows) ->
  exists v, m !! k = Some v /\ Db.has_key v (loaded n values rows) = true.
Proof.
  intros [Hin _] Hk. apply in_map_iff in Hk as (a & <- & Ha).
  apply list_elem_of_In, list_elem_of_lookup in Ha as [i Hi].
  exists (n + Z.of_nat i). split; [exact (Hin i a Hi)|].
  apply has_key_numbered. rewrite length_map. exact (lookup_lt_Some _ _ _ Hi).
Qed.

Lemma maps_rows_value {A K R} `{Countable K} (key : A -> K) (n : Z) (rows : list A)
      (m : gmap K Z) (values : A -> R) (k : K) (v : Z) :
  maps_rows m key n rows -> m !! k = Some v ->
  Db.has_key v (loaded n values rows) = true.
Proof.
  intros [_ Hout] Hk. destruct (Hout k v Hk) as (i & a & Hi & _ & ->).
  apply has_key_numbered. rewrite length_map. exact (lookup_lt_Some _ _ _ Hi).
Qed.

(** Distinct keys get distinct ids. *)
Lemma maps_rows_inj {A K} `{Countable K} (key : A -> K) (n : Z) (rows : list A)
      (m : gmap K Z) (k1 k2 : K) (v : Z) :
  maps_rows m key n rows -> m !! k1 = Some v -> m !! k2 = Some v -> k1 = k2.
Proof.
  intros [_ Hout] H1 H2.
  destruct (Hout k1 v H1) as (i1 & a1 & Hi1 & <- & E1).
  destruct (Hout k2 v H2) as (i2 & a2 & Hi2 & <- & E2).
  assert (i1 = i2) by lia. subst i2. congruence.
Qed.

Section FreshStore.

Variable fault : Db.conn -> Db.stmt -> bool.
Hypothesis no_fault : forall c s, fault c s = false.

Lemma load_customers_fresh (nc np no ni : Z) (df : list (Z * Customer.t)) :
  List.NoDup (List.map customer_key df) ->
  List.NoDup (List.map (fun r => py_str (Customer.email r.2)) df) ->
  exists m,
    load_customers fault
      (Db.mk_conn true (Db.mk_tables [] [] [] []) (Db.mk_tables [] [] [] []) nc np no ni) df
    = (Db.mk_conn true
         (Db.mk_tables (loaded nc (fun r => customer_values r.2) df) [] [] [])
         (Db.mk_tables (loaded nc (fun r => customer_values r.2) df) [] [] [])
         (nc + Z.of_nat (length df)) np no ni, m) /\
    maps_rows m customer_key nc df.
Proof.
  intros Hid Hem. unfold load_customers. destruct df as [|r df].
  - exists ∅. cbn. rewrite Z.add_0_r. split; [reflexivity | apply maps_rows_nil].
  - cbn [length Nat.eqb Db.connected negb]. unfold insert_customers.
    destruct (insert_customers_runs fault no_fault (r :: df)
                (Db.mk_conn true (Db.mk_tables [] [] [] []) (Db.mk_tables [] [] [] [])
                            nc np no ni) ∅) as [m Hm]; [exact Hem|].
    rewrite Hm. exists m. split; [reflexivity|].
    eapply insert_rows_ran in Hm as (_ & _ & _ & Hout & Hin);
      [|intros; eapply execute_insert_customer; eassumption].
    exact (maps_rows_intro customer_key nc (r :: df) m Hout (Hin Hid)).
Qed.

Lemma load_products_fresh (lc : list (Z * Db.customer_row)) (nc np no ni : Z)
      (df : list (Z * Product.t)) :
  List.NoDup (List.map product_key df) ->
  exists m,
    load_products fault
      (Db.mk_conn true (Db.mk_tables lc [] [] []) (Db.mk_tables lc [] [] []) nc np no ni) df
    = (Db.mk_conn true
         (Db.mk_tables lc (loaded np (fun r => product_values r.2) df) [] [])
         (Db.mk_tables lc (loaded np (fun r => product_values r.2) df) [] [])
         nc (np + Z.of_nat (length df)) no ni, m) /\
    maps_rows m product_key np df.
Proof.
  intros Hid. unfold load_products. destruct df as [|r df].
  - exists ∅. cbn. rewrite Z.add_0_r. split; [reflexivity | apply maps_rows_nil].
  - cbn [length Nat.eqb Db.connected negb]. unfold insert_products.
    destruct (insert_products_runs fault no_fault (r :: df)
                (Db.mk_conn true (Db.mk_tables lc [] [] []) (Db.mk_tables lc [] [] [])
                            nc np no ni) ∅) as [m Hm].
    rewrite Hm. exists m. split; [reflexivity|].
    eapply insert_rows_ran in Hm as (_ & _ & _ & Hout & Hin);
      [|intros; eapply execute_insert_product; eassumption].
    exact (maps_rows_intro product_key np (r :: df) m Hout (Hin Hid)).
Qed.

Lemma load_orders_fresh (lc : list (Z * Db.customer_row)) (lp : list (Z * Db.product_row))
      (nc np no ni : Z) (orders : list Order.t) :
  (forall o, In o orders -> Db.has_key (Order.customer_id o) lc = true) ->
  List.NoDup (List.map Order.order_id orders) ->
  exists om,
    load_orders fault
      (Db.mk_conn true (Db.mk_tables lc lp [] []) (Db.mk_tables lc lp [] []) nc np no ni)
      orders
    = (Db.mk_conn true
         (Db.mk_tables lc lp (loaded no order_values orders) [])
         (Db.mk_tables lc lp (loaded no order_values orders) [])
         nc np (no + Z.of_nat (length orders)) ni, om) /\
    (orders <> [] -> exists m, om = Some m /\ maps_rows m Order.order_id no orders).
Proof.
  intros Hfk Hid. unfold load_orders. destruct orders as [|o orders].
  - exists None. cbn. rewrite Z.add_0_r. split; [reflexivity | congruence].
  - cbn [length Nat.eqb Db.connected negb]. unfold insert_orders.
    destruct (insert_orders_runs fault no_fault (o :: orders)
                (Db.mk_conn true (Db.mk_tables lc lp [] []) (Db.mk_tables lc lp [] [])
                            nc np no ni) ∅) as [m Hm]; [exact Hfk|].
    rewrite Hm. exists (Some m). split; [reflexivity|]. intros _.
    exists m. split; [reflexivity|].
    eapply (insert_rows_ran fault _ Order.order_id order_values Db.orders
                            Db.next_order_id) in Hm as (_ & _ & _ & Hout & Hin);
      [|intros; eapply execute_insert_order; eassumption].
    exact (maps_rows_intro Order.order_id no (o :: orders) m Hout (Hin Hid)).
Qed.

Lemma load_order_items_fresh (lc : list (Z * Db.customer_row))
      (lp : list (Z * Db.product_row)) (lo : list (Z * Db.order_row))
      (nc np no ni : Z) (items : list OrderItem.t) (m : gmap Z Z) :
  (forall it, In it items ->
              m !! OrderItem.order_id it = Some (OrderItem.order_id it) /\
              is_Some (OrderItem.unit_price it) /\ is_Some (OrderItem.subtotal it) /\
              Db.has_key (OrderItem.order_id it) lo = true /\
              Db.has_key (OrderItem.product_id it) lp = true) ->
  exists rows,
    mapM stored_item items = Some rows /\
    load_order_items fault
      (Db.mk_conn true (Db.mk_tables lc lp lo []) (Db.mk_tables lc lp lo []) nc np no ni)
      items m
    = Db.mk_conn true
        (Db.mk_tables lc lp lo (numbered ni rows))
        (Db.mk_tables lc lp lo (numbered ni rows))
        nc np no (ni + Z.of_nat (length items)).
Proof.
  intros Hall.
  assert (Hrow : forall it, In it items -> order_item_row_of m it = stored_item it).
  { intros it Hit. destruct (Hall it Hit) as (Hm & _).
    unfold order_item_row_of, stored_item. rewrite Hm. reflexivity. }
  assert (Hrows : mapM (order_item_row_of m) items = mapM stored_item items).
  { clear Hall. induction items as [|it items IH]; [reflexivity|].
    cbn [mapM]. rewrite (Hrow it) by (left; reflexivity).
    rewrite IH by (intros it' Hit'; apply Hrow; right; exact Hit'). reflexivity. }
  unfold load_order_items. destruct items as [|it items].
  - exists []. cbn. rewrite Z.add_0_r. split; reflexivity.
  - cbn [length Nat.eqb Db.connected negb].
    destruct (insert_order_items_runs fault no_fault (it :: items) m
                (Db.mk_conn true (Db.mk_tables lc lp lo []) (Db.mk_tables lc lp lo [])
                            nc np no ni)) as (rows & Hm & Hrun).
    { intros it' Hit'. destruct (Hall it' Hit') as (Hm & [u Hu] & [sub Hs] & Hko & Hkp).
      eexists. split.
      - unfold order_item_row_of. rewrite Hm, Hu, Hs. reflexivity.
      - split; [exact Hko | exact Hkp]. }
    rewrite Hrun. exists rows. split; [rewrite <- Hrows; exact Hm | reflexivity].
Qed.

End FreshStore.

Lemma transform_as_build (sales : list (Z * Sale.t)) (cm pm : gmap string Z) :
  transform_sales_to_orders sales cm pm
  = build_orders (groupby (sales_lines sales cm pm)) 1.
Proof. unfold transform_sales_to_orders. destruct sales; reflexivity. Qed.

Lemma omap_map_ext {A B C} (f : A -> option C) (h : A -> option B) (g : B -> C)
      (l : list A) :
  (forall x, In x l -> f x = g <$> h x) -> omap f l = List.map g (omap h l).
Proof.
  induction l as [|a l IH]; intros Hf; [reflexivity|].
  cbn [omap list_omap]. rewrite (Hf a) by (left; reflexivity).
  fold (omap f l). fold (omap h l).
  rewrite IH by (intros x Hx; apply Hf; right; exact Hx).
  destruct (h a); reflexivity.
Qed.

(** Renaming the values of a column one to one keeps the number of distinct
    values. *)
Lemma length_unique_map {A B} `{EqDecision A} `{EqDecision B} (f : A -> B)
      (l : list A) :
  (forall x y, In x l -> In y l -> f x = f y -> x = y) ->
  length (Pd.unique (List.map f l)) = length (Pd.unique l).
Proof.
  intros Hinj. rewrite <- (length_map f (Pd.unique l)).
  apply Permutation_length, Permutation.NoDup_Permutation.
  - apply NoDup_unique.
  - apply List.NoDup_map_NoDup_ForallPairs; [|apply NoDup_unique].
    intros x y Hx Hy. apply (proj1 (In_unique _ _)) in Hx, Hy. auto.
  - intros x. rewrite In_unique, !in_map_iff. split.
    + intros (a & E & Ha). exists a. split; [exact E | apply (proj2 (In_unique _ _)), Ha].
    + intros (a & E & Ha). exists a. split; [exact E | apply (proj1 (In_unique _ _)), Ha].
Qed.

Section Resolved.

Variable self : pipeline.
Variables cm pm : gmap string Z.
Variables nc np : Z.
Hypothesis customers_mapped : maps_rows cm customer_key nc (customers_df self).
Hypothesis products_mapped : maps_rows pm product_key np (products_df self).
Hypothesis sales_resolve : forall x, In x (sales_df self) -> resolvable self x.

Lemma resolvable_cells (x : Z * Sale.t) :
  In x (sales_df self) ->
  exists c v d p w q u,
    Sale.customer_id x.2 = Some (Text c) /\ cm !! c = Some v /\
    Sale.transaction_date x.2 = Some d /\
    Sale.product_id x.2 = Some (Text p) /\ pm !! p = Some w /\
    Sale.quantity x.2 = Some q /\ Sale.unit_price x.2 = Some u.
Proof.
  intros Hx.
  destruct (sales_resolve x Hx) as ((c & Hc & Hck) & (p & Hp & Hpk) & [d Hd] & [q Hq] & [u Hu]).
  destruct (maps_rows_key customer_key nc _ cm (fun r => customer_values r.2) c
              customers_mapped Hck) as (v & Hv & _).
  destruct (maps_rows_key product_key np _ pm (fun r => product_values r.2) p
              products_mapped Hpk) as (w & Hw & _).
  exists c, v, d, p, w, q, u. auto 10.
Qed.

Lemma sales_with_ids_all : sales_with_ids self = sales_df self.
Proof.
  unfold sales_with_ids. apply filter_all. intros x Hx.
  destruct (resolvable_cells x Hx) as (c & v & d & p & w & q & u & Hc & _ & _ & Hp & _).
  rewrite Hc, Hp. reflexivity.
Qed.

Lemma sales_lines_resolved :
  sales_lines (sales_df self) cm pm = List.map (line_of cm pm) (sales_df self).
Proof.
  unfold sales_lines. fold (sales_with_ids self). rewrite sales_with_ids_all.
  rewrite filter_all.
  - rewrite List.map_map. reflexivity.
  - intros l Hl. apply in_map_iff in Hl as (x & <- & Hx).
    destruct (resolvable_cells x Hx) as (c & v & d & p & w & q & u & Hc & Hv & _ & Hp & Hw & _).
    cbn [Line.db_customer_id Line.db_product_id]. rewrite Hc, Hp. cbn. rewrite Hv, Hw.
    reflexivity.
Qed.

(** The group of a line is the group of its sales row, customer ids renamed. *)
Lemma group_key_line_of (x : Z * Sale.t) :
  In x (sales_df self) ->
  group_key (line_of cm pm x)
  = (fun k : ident * string => (default 0 (map_ids cm (Some k.1)), k.2))
      <$> natural_key x.2.
Proof.
  intros Hx.
  destruct (resolvable_cells x Hx) as (c & v & d & p & w & q & u & Hc & Hv & Hd & _).
  unfold group_key, natural_key, line_of. cbn [Line.db_customer_id Line.sale].
  rewrite Hc, Hd. cbn. rewrite Hv. reflexivity.
Qed.

Lemma natural_key_mapped (x : Z * Sale.t) (k : ident * string) :
  In x (sales_df self) -> natural_key x.2 = Some k ->
  exists c v, k.1 = Text c /\ cm !! c = Some v.
Proof.
  intros Hx Hk.
  destruct (resolvable_cells x Hx) as (c & v & d & p & w & q & u & Hc & Hv & Hd & _).
  unfold natural_key in Hk. rewrite Hc, Hd in Hk. injection Hk as <-. cbn. eauto.
Qed.

Lemma groups_are_natural_groups :
  length (groupby (sales_lines (sales_df self) cm pm)) = expected_orders self.
Proof.
  unfold groupby, expected_orders. rewrite length_map, length_sort.
  rewrite sales_with_ids_all, sales_lines_resolved.
  assert (E : omap group_key (List.map (line_of cm pm) (sales_df self))
              = List.map (fun k : ident * string =>
                            (default 0 (map_ids cm (Some k.1)), k.2))
                         (omap (fun r => natural_key r.2) (sales_df self))).
  { rewrite <- (omap_map_ext (fun x => group_key (line_of cm pm x))).
    - generalize (sales_df self) as l. induction l as [|a l IH]; [reflexivity|].
      cbn [List.map omap list_omap]. fold (omap group_key (List.map (line_of cm pm) l)).
      fold (omap (fun x => group_key (line_of cm pm x)) l). rewrite IH. reflexivity.
    - exact group_key_line_of. }
  rewrite E. apply length_unique_map.
  intros k1 k2 H1 H2 [= Ev Ed].
  apply list_elem_of_In, list_elem_of_omap in H1 as (x1 & Hx1 & Hk1).
  apply list_elem_of_In, list_elem_of_omap in H2 as (x2 & Hx2 & Hk2).
  apply list_elem_of_In in Hx1, Hx2.
  destruct (natural_key_mapped x1 k1 Hx1 Hk1) as (c1 & v1 & Ek1 & Hv1).
  destruct (natural_key_mapped x2 k2 Hx2 Hk2) as (c2 & v2 & Ek2 & Hv2).
  rewrite Ek1, Ek2 in Ev. cbn [map_ids] in Ev. rewrite Hv1, Hv2 in Ev. cbn in Ev. subst v2.
  pose proof (maps_rows_inj customer_key nc _ cm _ _ _ customers_mapped Hv1 Hv2).
  destruct k1, k2. cbn in *. congruence.
Qed.

End Resolved.

(** What the aggregator builds from sales that all resolve. *)
Lemma aggregator_on_resolved (self : pipeline) (cm pm : gmap string Z) (nc np : Z) :
  maps_rows cm customer_key nc (customers_df self) ->
  maps_rows pm product_key np (products_df self) ->
  (forall x, In x (sales_df self) -> resolvable self x) ->
  exists orders items,
    transform_sales_to_orders (sales_df self) cm pm = Some (orders, items) /\
    (forall i o, orders !! i = Some o -> Order.order_id o = 1 + Z.of_nat i) /\
    (forall o, In o orders ->
       Db.has_key (Order.customer_id o)
                  (loaded nc (fun r => customer_values r.2) (customers_df self)) = true) /\
    (forall it, In it items ->
       (exists o, In o orders /\ Order.order_id o = OrderItem.order_id it) /\
       is_Some (OrderItem.unit_price it) /\ is_Some (OrderItem.subtotal it) /\
       Db.has_key (OrderItem.product_id it)
                  (loaded np (fun r => product_values r.2) (products_df self)) = true) /\
    length items = length (sales_df self) /\
    length orders = expected_orders self.
Proof.
  intros Hcm Hpm Hres.
  pose proof (resolvable_cells self cm pm nc np Hcm Hpm Hres) as Hcells.
  pose proof (sales_lines_resolved self cm pm nc np Hcm Hpm Hres) as Hlines.
  destruct (transform_sales_to_orders_total (sales_df self) cm pm) as [[orders items] Ht].
  { intros r Hr. destruct (Hcells r Hr) as (c & v & d & p & w & q & u & H0).
    exists q. apply H0. }
  pose proof Ht as Hb. rewrite transform_as_build in Hb.
  assert (Hline : forall k g l, In (k, g) (groupby (sales_lines (sales_df self) cm pm)) ->
                    In l g ->
                    group_key l = Some k /\
                    exists x, In x (sales_df self) /\ l = line_of cm pm x).
  { intros k g l Hg Hl. apply groupby_group in Hg as [-> _].
    apply filter_In in Hl as [Hl Hk]. apply bool_decide_eq_true in Hk.
    split; [exact Hk|]. rewrite Hlines in Hl.
    apply in_map_iff in Hl as (x & <- & Hx). eauto. }
  exists orders, items. split; [exact Ht|]. split; [|split; [|split; [|split]]].
  - exact (build_orders_order_ids _ _ _ _ Hb).
  - intros o Ho. destruct (build_orders_order _ _ _ _ o Hb Ho) as (k & g & Hg & Eo & _).
    pose proof Hg as Hne. apply groupby_group in Hne as [_ Hne].
    destruct g as [|l g]; [contradiction|].
    destruct (Hline k (l :: g) l Hg (or_introl eq_refl)) as (Hk & x & Hx & ->).
    destruct (Hcells x Hx) as (c & v & d & p & w & q & u & Hc & Hv & Hd & _).
    unfold group_key, line_of in Hk. cbn [Line.db_customer_id Line.sale] in Hk.
    rewrite Hc, Hd in Hk. cbn in Hk. rewrite Hv in Hk. injection Hk as <-.
    rewrite Eo. cbn [Order.customer_id fst].
    exact (maps_rows_value customer_key nc _ cm _ c v Hcm Hv).
  - intros it Hit. split; [exact (build_orders_item_order _ _ _ _ _ Hb Hit)|].
    destruct (build_orders_item _ _ _ _ it Hb Hit) as (k & g & l & Hg & Hl & Hmk).
    destruct (Hline k g l Hg Hl) as (_ & x & Hx & ->).
    destruct (Hcells x Hx) as (c & v & d & p & w & q & u & _ & _ & _ & Hp & Hw & Hq & Hu).
    apply make_item_fields in Hmk as (_ & Hsub & Hup & _ & Hpid).
    cbn [line_of Line.subtotal Line.sale Line.db_product_id] in Hsub, Hup, Hpid.
    rewrite Hq, Hu in Hsub. rewrite Hu in Hup. rewrite Hp in Hpid. cbn in Hsub, Hpid.
    rewrite Hw in Hpid. injection Hpid as <-.
    split; [rewrite Hup; eauto|]. split; [rewrite Hsub; eauto|].
    exact (maps_rows_value product_key np _ pm _ p w Hpm Hw).
  - apply items_are_the_keyed_lines, Permutation_length in Hb.
    rewrite !length_map in Hb. rewrite Hb, filter_all.
    + rewrite Hlines. apply length_map.
    + intros l Hl. rewrite Hlines in Hl. apply in_map_iff in Hl as (x & <- & Hx).
      rewrite (group_key_line_of self cm pm nc np Hcm Hpm Hres x Hx).
      destruct (Hcells x Hx) as (c & v & d & p & w & q & u & Hc & _ & Hd & _).
      unfold natural_key. rewrite Hc, Hd. reflexivity.
  - apply build_orders_payload in Hb as [_ Hkeys]. apply (f_equal length) in Hkeys.
    rewrite !length_map in Hkeys. rewrite Hkeys.
    exact (groups_are_natural_groups self cm pm nc np Hcm Hpm Hres).
Qed.

Lemma verify_data_loaded_counts (c : Db.conn) (self : pipeline) :
  Db.connected c = true ->
  length (Db.customers (Db.pending c)) = length (customers_df self) ->
  length (Db.products (Db.pending c)) = length (products_df self) ->
  length (Db.orders (Db.pending c)) = expected_orders self ->
  length (Db.order_items (Db.pending c)) = expected_order_items self ->
  verify_data_loaded true c self = Some Verified.
Proof.
  intros Hc H1 H2 H3 H4. unfold verify_data_loaded.
  rewrite Hc, H1, H2, H3, H4, !Nat.eqb_refl. reflexivity.
Qed.

Lemma length_loaded {A R} (n : Z) (values : A -> R) (df : list A) :
  length (loaded n values df) = length df.
Proof. unfold loaded. rewrite length_numbered. apply length_map. Qed.

(** X22.  The load that nothing stands in the way of.  On a store that
    refuses no statement and whose orders counter stands at 1, with cleansed
    frames in which customer ids, emails and product ids do not repeat and
    every sale names, by text ids, a cleansed customer and product and has a
    date, a quantity and a unit price, [load] returns; the four tables then hold
    exactly the customers, the products, the orders of the aggregator and
    its items, each item under the id of its own order; and the
    verification [load] runs before it closes the connection reports that
    all data is loaded. *)
Theorem load_on_fresh_store (fault : Db.conn -> Db.stmt -> bool) (c : Db.conn)
        (self : pipeline) :
  (forall c0 s, fault c0 s = false) ->
  Db.next_order_id c = 1 ->
  List.NoDup (List.map customer_key (customers_df self)) ->
  List.NoDup (List.map (fun r => py_str (Customer.email r.2)) (customers_df self)) ->
  List.NoDup (List.map product_key (products_df self)) ->
  (forall x, In x (sales_df self) -> resolvable self x) ->
  exists c' cm pm orders items rows,
    load fault true c self = Finished c' /\
    maps_rows cm customer_key (Db.next_customer_id c) (customers_df self) /\
    maps_rows pm product_key (Db.next_product_id c) (products_df self) /\
    transform_sales_to_orders (sales_df self) cm pm = Some (orders, items) /\
    mapM stored_item items = Some rows /\
    Db.committed c'
    = Db.mk_tables
        (loaded (Db.next_customer_id c) (fun r => customer_values r.2) (customers_df self))
        (loaded (Db.next_product_id c) (fun r => product_values r.2) (products_df self))
        (loaded 1 order_values orders)
        (numbered (Db.next_order_item_id c) rows) /\
    verify_data_loaded true (Db.open_session c') self = Some Verified.
Proof.
  intros Hf Hone Hcid Hem Hpid Hres. unfold load. cbn [negb].
  rewrite (clear_existing_data_empties fault Hf).
  cbn [Db.open_session Db.connected Db.next_customer_id Db.next_product_id
       Db.next_order_id Db.next_order_item_id].
  rewrite Hone.
  set (nc := Db.next_customer_id c). set (np := Db.next_product_id c).
  set (ni := Db.next_order_item_id c).
  destruct (load_customers_fresh fault Hf nc np 1 ni _ Hcid Hem) as (cm & Hlc & Hcm).
  rewrite Hlc.
  destruct (load_products_fresh fault Hf
              (loaded nc (fun r => customer_values r.2) (customers_df self))
              (nc + Z.of_nat (length (customers_df self))) np 1 ni _ Hpid)
    as (pm & Hlp & Hpm).
  rewrite Hlp.
  destruct (aggregator_on_resolved self cm pm nc np Hcm Hpm Hres)
    as (orders & items & Ht & Hoid & Hofk & Hit & Hlen_i & Hlen_o).
  rewrite Ht.
  destruct (load_orders_fresh fault Hf
              (loaded nc (fun r => customer_values r.2) (customers_df self))
              (loaded np (fun r => product_values r.2) (products_df self))
              (nc + Z.of_nat (length (customers_df self)))
              (np + Z.of_nat (length (products_df self))) 1 ni orders Hofk
              (NoDup_order_ids _ _ Hoid)) as (om & Hlo & Hom).
  rewrite Hlo.
  assert (Hexp : expected_order_items self = length items).
  { unfold expected_order_items.
    rewrite (sales_with_ids_all self cm pm nc np Hcm Hpm Hres). symmetry. exact Hlen_i. }
  destruct items as [|it items].
  - cbn [length Nat.ltb Nat.leb].
    eexists _, cm, pm, orders, [], []. split; [reflexivity|].
    split; [exact Hcm|]. split; [exact Hpm|]. split; [exact Ht|].
    split; [reflexivity|]. split; [reflexivity|].
    apply verify_data_loaded_counts; cbn; rewrite ?length_loaded; auto.
  - assert (Hne : orders <> []).
    { destruct (Hit it (or_introl eq_refl)) as ((o & Ho & _) & _).
      intros ->. destruct Ho. }
    destruct (Hom Hne) as (m & -> & Hm).
    assert (Hidm : forall it', In it' (it :: items) ->
                     m !! OrderItem.order_id it' = Some (OrderItem.order_id it') /\
                     Db.has_key (OrderItem.order_id it') (loaded 1 order_values orders)
                     = true).
    { intros it' Hit'. destruct (Hit it' Hit') as ((o & Ho & <-) & _).
      apply list_elem_of_In, list_elem_of_lookup in Ho as [i Hi].
      pose proof (proj1 Hm i o Hi) as Hmo. rewrite (Hoid i o Hi) in Hmo |- *.
      split; [exact Hmo|].
      apply has_key_numbered. rewrite length_map. exact (lookup_lt_Some _ _ _ Hi). }
    rewrite (rewrite_order_ids_identity m (it :: items))
      by (intros it' Hit'; apply Hidm, Hit').
    destruct (load_order_items_fresh fault Hf
                (loaded nc (fun r => customer_values r.2) (customers_df self))
                (loaded np (fun r => product_values r.2) (products_df self))
                (loaded 1 order_values orders)
                (nc + Z.of_nat (length (customers_df self)))
                (np + Z.of_nat (length (products_df self)))
                (1 + Z.of_nat (length orders)) ni (it :: items) m) as (rows & Hrows & Hli).
    { intros it' Hit'. destruct (Hidm it' Hit') as [H1 H2].
      destruct (Hit it' Hit') as (_ & Hu & Hs & Hp). auto. }
    cbn [length Nat.ltb Nat.leb]. rewrite Hli.
    eexists _, cm, pm, orders, (it :: items), rows. split; [reflexivity|].
    split; [exact Hcm|]. split; [exact Hpm|]. split; [exact Ht|].
    split; [exact Hrows|]. split; [reflexivity|].
    apply verify_data_loaded_counts; cbn [Db.open_session Db.close Db.connected Db.pending
      Db.committed Db.customers Db.products Db.orders Db.order_items];
      rewrite ?length_loaded, ?length_numbered; auto.
    rewrite Hexp. apply mapM_Some, Forall2_length in Hrows. symmetry. exact Hrows.
Qed.

Lemma load_on_fresh_store_witness :
  exists c', load Sample.no_fault true Sample.fresh_store Sample.two_days = Finished c' /\
             verify_data_loaded true (Db.open_session c') Sample.two_days = Some Verified.
Proof.
  destruct (load_on_fresh_store Sample.no_fault Sample.fresh_store Sample.two_days)
    as (c' & cm & pm & orders & items & rows & Hl & _ & _ & _ & _ & _ & Hv).
  - reflexivity.
  - reflexivity.
  - vm_compute. repeat constructor; cbn; intuition discriminate.
  - vm_compute. repeat constructor; cbn; intuition discriminate.
  - vm_compute. repeat constructor; cbn; intuition discriminate.
  - intros x Hx. vm_compute in Hx.
    repeat (destruct Hx as [<-|Hx];
            [repeat split; try (eexists; split; [reflexivity|]);
             try (eexists; reflexivity); vm_compute; auto|]).
    destruct Hx.
  - exists c'. split; [exact Hl | exact Hv].
Defined.

(** X24.  Sales whose customer ids, or whose product ids, are numbers
    resolve to nothing: the mappings are keyed by text, a number is not a
    key, and the aggregator returns no order and no item whatever the
    mappings hold. *)
Theorem numeric_ids_resolve_nothing (sales : list (Z * Sale.t)) (cm pm : gmap string Z) :
  (forall r, In r sales -> forall s, Sale.customer_id r.2 <> Some (Text s)) \/
  (forall r, In r sales -> forall s, Sale.product_id r.2 <> Some (Text s)) ->
  transform_sales_to_orders sales cm pm = Some ([], []).
Proof.
  intros Hnum. unfold transform_sales_to_orders.
  destruct (length sales =? 0)%nat; [reflexivity|].
  assert (E : sales_lines sales cm pm = []); [|rewrite E; reflexivity].
  unfold sales_lines.
  match goal with
  | |- List.map _ (List.filter ?f ?l) = [] => rewrite (filter_none f l); [reflexivity|]
  end.
  intros l Hl. apply in_map_iff in Hl as (r & <- & Hr). apply filter_In in Hr as [Hr _].
  cbn [Line.db_customer_id Line.db_product_id].
  assert (Hnone : forall (m : gmap string Z) k,
            (forall s, k <> Some (Text s)) -> map_ids m k = None).
  { intros m [[s|n]|] Hk; [destruct (Hk s eq_refl) | reflexivity | reflexivity]. }
  destruct Hnum as [Hc|Hp].
  - rewrite (Hnone cm _ (Hc r Hr)). reflexivity.
  - rewrite (Hnone pm _ (Hp r Hr)). apply andb_false_r.
Qed.

Lemma numeric_ids_resolve_nothing_witness :
  transform_sales_to_orders
    (transform_sales [Sale.mk (Some "T001") (Some (Number "1")) (Some (Number "7"))
                              (Some (Pd.Int64 3)) (Some (Pd.Float64 (10 # 1)))
                              (Some "2024-01-01") (Some "Pending")])
    {["1" := 1]} {["7" := 1]}
  = Some ([], []).
Proof.
  apply numeric_ids_resolve_nothing. left. intros r Hr s.
  vm_compute in Hr. destruct Hr as [<-|[]]. discriminate.
Defined.
